(** * Momentum Sniper: the decision engine, embedded and verified

    A shallow embedding of the decision/state engine of the trading bot
    ([strategy.py], [utils.py], [order_manager.py], [config.py]) together
    with the properties its specification states about it.

    Conventions of the embedding.
    - Python [float] and [Decimal] values are exact rationals ([Qc], with
      Leibniz equality); rounding is not modelled.  Every property below
      concerns control flow, ordering or exact arithmetic.  For the time
      bucket of a tick, where a configured bar period divides the clock
      before [int] is applied, the finite range of the floats is modelled:
      outside it the conversion raises [OverflowError].  Differences of
      clock readings are taken to lie within that range.
    - A Python call either returns or raises: [Py A].
    - [time.time()] is an input of every function that reads it.
    - Dictionaries are [gmap]s; a [defaultdict] lookup that misses inserts
      the default, as in Python. *)

From Stdlib Require Import QArith Qcanon Qcabs Qround ZArith List Sorted.
From stdpp Require Import base option list gmap strings numbers pretty.

Set Default Proof Using "Type".

(** ** Python outcomes *)

Inductive PyExn : Type :=
  | TypeError
  | AttributeError
  | NameError
  | ZeroDivisionError
  | OverflowError
  | ValueError
  | IndexError
  | KeyError.

Inductive Py (A : Type) : Type :=
  | Ret (a : A)
  | Raise (e : PyExn).
Arguments Ret {A} a.
Arguments Raise {A} e.

Definition py_bind {A B} (k : A → Py B) (m : Py A) : Py B :=
  match m with
  | Ret a => k a
  | Raise e => Raise e
  end.

#[global] Instance Py_ret : MRet Py := @Ret.
#[global] Instance Py_bind : MBind Py := @py_bind.
#[global] Instance Py_fmap : FMap Py := λ A B f m, py_bind (λ a, Ret (f a)) m.

(** [try: return body / except: return fallback], with a bare [except]. *)
Definition except_all {A} (body : Py A) (fallback : A) : A :=
  match body with
  | Ret a => a
  | Raise _ => fallback
  end.

Fixpoint py_mapM {A B} (f : A → Py B) (l : list A) : Py (list B) :=
  match l with
  | [] => Ret []
  | x :: l' => y ← f x; ys ← py_mapM f l'; Ret (y :: ys)
  end.

(** ** Numbers *)

Definition qc (n : Z) (d : positive) : Qc := Q2Qc (n # d).

(** [a < b] and [a <= b] as Python evaluates them. *)
Definition qlt (a b : Qc) : bool := bool_decide (a < b)%Qc.
Definition qle (a b : Qc) : bool := bool_decide (a ≤ b)%Qc.

(** Closed equations and disequations between rationals, by evaluation. *)
Ltac qc_eq := apply Qc_is_canon; vm_compute; reflexivity.
Ltac qc_neq :=
  let H := fresh in
  intros H; apply (f_equal this) in H; vm_compute in H; discriminate H.

(** [int(x)]: truncation toward zero. *)
Definition py_int (x : Qc) : Z := Z.quot (Qnum x) (Z.pos (Qden x)).

(** Floats are taken as exact rationals, but their range is finite: a sum
    or a quotient of magnitude [2^1024 - 2^970] or more (the largest float
    plus half a unit in its last place) rounds to an infinity, and [int] of
    an infinity raises [OverflowError]. *)
Definition float_limit : Qc := Qc_of_Z (2 ^ 1024 - 2 ^ 970).
Definition float_overflows (x : Qc) : bool := qle float_limit (Qcabs x).

(** [a / b]; a zero divisor raises. *)
Definition py_truediv (a b : Qc) : Py Qc :=
  if decide (b = 0%Qc) then Raise ZeroDivisionError else Ret (a / b)%Qc.

(** [max(a, b)] keeps [a] unless [b > a]; [min(a, b)] keeps [a] unless [b < a]. *)
Definition py_max (a b : Qc) : Qc := if qlt a b then b else a.
Definition py_min (a b : Qc) : Qc := if qlt b a then b else a.

(** [sum(xs)] *)
Definition py_sum (xs : list Qc) : Qc := foldl Qcplus 0%Qc xs.

(** [xs[-n:]] for [n > 0]: the last [n] items (all of them when [n] exceeds
    the length). *)
Definition last_n {A} (n : nat) (xs : list A) : list A :=
  drop (length xs - n) xs.

(** [xs[-n:] if n else xs] *)
Definition tail_slice {A} (n : option nat) (xs : list A) : list A :=
  match n with
  | Some (S k) => last_n (S k) xs
  | _ => xs
  end.

(** ** BarAggregator ([strategy.py], lines 15-49) *)

Module BarAggregator.

(** A closed bar is the 6-tuple (start, open, high, low, close, volume). *)
Record Bar : Type := mkBar {
  bar_start : Qc;
  bar_open : Qc;
  bar_high : Qc;
  bar_low : Qc;
  bar_close : Qc;
  bar_volume : Qc
}.

(** The bar in progress is the 5-tuple (start, open, high, low, close). *)
Definition OpenBar : Type := (Qc * Qc * Qc * Qc * Qc)%type.

Record t : Type := mk {
  bar_period : Qc;
  max_bars : nat;                 (* maxlen of the deque *)
  bars : list Bar;                (* deque(maxlen=max_bars), oldest first *)
  current_bar : option OpenBar;
  current_bar_start : Qc;
  trade_volumes : list Qc
}.

(** [__init__] *)
Definition init (bar_period_sec : Qc) (max_bars : nat) : t :=
  {| bar_period := bar_period_sec; max_bars := max_bars; bars := [];
     current_bar := None; current_bar_start := 0%Qc; trade_volumes := [] |}.

(** [deque.append] on a deque with [maxlen]: the oldest items fall off. *)
Definition deque_append {A} (maxlen : nat) (d : list A) (x : A) : list A :=
  last_n maxlen (d ++ [x]).

(** [int(server_now / self.bar_period) * self.bar_period].  The division
    raises on a zero period; [int] raises when [server_now] or the quotient
    has left the range of the floats. *)
Definition bucket_of (period server_now : Qc) : Py Qc :=
  q ← py_truediv server_now period;
  if float_overflows server_now || float_overflows q then Raise OverflowError
  else Ret (Qc_of_Z (py_int q) * period)%Qc.

Definition close_bar (cb : OpenBar) (total_vol : Qc) : Bar :=
  let '(s, o, h, l, c) := cb in mkBar s o h l c total_vol.

(** [add_tick(price, volume)]; [now] is [time.time()] and [time_offset]
    is [self.order_manager.time_offset]. *)
Definition add_tick (a : t) (now time_offset price volume : Qc) : Py t :=
  let server_now := (now + time_offset)%Qc in
  bar_bucket ← bucket_of (bar_period a) server_now;
  let a1 :=
    if bool_decide (current_bar a = None) || qlt (current_bar_start a) bar_bucket
    then
      let bars' :=
        match current_bar a with
        | Some cb =>
            let total_vol :=
              match trade_volumes a with [] => 0%Qc | vs => py_sum vs end in
            deque_append (max_bars a) (bars a) (close_bar cb total_vol)
        | None => bars a
        end in
      {| bar_period := bar_period a; max_bars := max_bars a; bars := bars';
         current_bar := Some (bar_bucket, price, price, price, price);
         current_bar_start := bar_bucket; trade_volumes := [] |}
    else a in
  match current_bar a1 with
  | None => Raise TypeError       (* unpacking None *)
  | Some (_, o, h, l, _) =>
      Ret {| bar_period := bar_period a1; max_bars := max_bars a1;
             bars := bars a1;
             current_bar :=
               Some (bar_bucket, o, py_max h price, py_min l price, price);
             current_bar_start := current_bar_start a1;
             trade_volumes :=
               if qlt 0 volume then trade_volumes a1 ++ [volume]
               else trade_volumes a1 |}
  end.

(** [get_closes(n)], [get_bars(n)], [__len__] *)
Definition get_closes (a : t) (n : option nat) : list Qc :=
  tail_slice n (bar_close <$> bars a).
Definition get_bars (a : t) (n : option nat) : list Bar :=
  tail_slice n (bars a).
Definition len (a : t) : nat := length (bars a).

(** A tick as [add_tick] sees it: the two clock components it reads, and
    its two arguments. *)
Record Tick : Type := mkTick {
  tick_now : Qc;
  tick_offset : Qc;
  tick_price : Qc;
  tick_volume : Qc
}.

Definition server_time (k : Tick) : Qc := (tick_now k + tick_offset k)%Qc.

(** The time bucket a tick falls in, for a non-zero period. *)
Definition tick_bucket (period : Qc) (k : Tick) : Qc :=
  (Qc_of_Z (py_int (server_time k / period)) * period)%Qc.

(** The clock of a tick and its quotient by the period are within the range
    of the floats. *)
Definition tick_in_range (period : Qc) (k : Tick) : Prop :=
  float_overflows (server_time k) = false
  ∧ float_overflows (server_time k / period) = false.

Fixpoint add_ticks (a : t) (ks : list Tick) : Py t :=
  match ks with
  | [] => Ret a
  | k :: ks' =>
      a' ← add_tick a (tick_now k) (tick_offset k) (tick_price k) (tick_volume k);
      add_ticks a' ks'
  end.

End BarAggregator.

(** A run of six ticks over four one-second buckets, for a series that holds
    two bars. *)
Definition example_ticks : list BarAggregator.Tick :=
  [ BarAggregator.mkTick (qc 2 10) 0 (qc 10 1) 0;
    BarAggregator.mkTick (qc 7 10) 0 (qc 11 1) (qc 1 1);
    BarAggregator.mkTick (qc 11 10) 0 (qc 12 1) 0;
    BarAggregator.mkTick (qc 25 10) 0 (qc 13 1) (qc 3 1);
    BarAggregator.mkTick (qc 29 10) 0 (qc 9 1) 0;
    BarAggregator.mkTick (qc 3 1) 0 (qc 14 1) 0 ]%Qc.

(** ** Configuration ([config.py]) *)

Record Config : Type := mkConfig {
  BAR_SAMPLING_SEC : Qc;
  BAR_HISTORY_MAX : nat;
  MIN_CANDLES_FOR_ENTRY : nat;
  LOOKBACK_CANDLES : nat;
  MIN_BREAKOUT_STRENGTH_BPS : Qc;
  BREAKOUT_DEAD_ZONE_BPS : Qc;
  ATR_PERIOD : nat;
  MIN_ATR_BPS : Qc;
  REQUIRE_EMA_CROSS : bool;
  EMA_FAST : nat;
  EMA_SLOW : nat;
  MIN_CONFIRMATIONS_NEEDED : nat;
  ARMED_CANDIDATE_TIMEOUT_SEC : Qc;
  ZSCORE_WINDOW : nat;
  ZSCORE_THRESHOLD : Qc;
  VOLUME_AVG_WINDOW : nat;
  VOLUME_SPIKE_WINDOW : nat;
  VOLUME_SPIKE_MULTIPLIER : Qc;
  MIN_IMBALANCE : Qc;
  MAX_IMBALANCE : Qc;
  MIN_BID_DEPTH_USDT : Qc;
  MAX_SPREAD_PCT : Qc;
  FEE_TAKER_BPS : Qc;
  MAX_SLIPPAGE_BPS : Qc;
  TP_ATR_MULTIPLIER : Qc;
  SL_ATR_MULTIPLIER : Qc;
  MIN_TP_BPS : Qc;
  MAX_TP_BPS : Qc;
  MIN_SL_BPS : Qc;
  MAX_SL_BPS : Qc;
  MIN_RISK_REWARD_RATIO : Qc;
  ENABLE_TRAILING_STOP : bool;
  TRAILING_ACTIVATION_BPS : Qc;
  TRAILING_DISTANCE_ATR_MULTIPLIER : Qc;
  TRAILING_DISTANCE_MIN_BPS : Qc;
  MAX_POSITION_HOLD_SECONDS : Qc;
  BASE_ORDER_NOTIONAL_USDT : Qc;
  MAX_CONCURRENT_TRADES : nat;
  MAX_CONSECUTIVE_LOSSES : nat;
  MAX_DAILY_LOSS : Qc;
  COOL_DOWN_AFTER_EXIT_SEC : Qc;
  COOL_DOWN_AFTER_LOSS_SEC : Qc;
  MAX_TRADES_PER_PAIR_PER_HOUR : nat
}.

(** The values of [config.py]. *)
Definition config : Config := {|
  BAR_SAMPLING_SEC := qc 1 1;
  BAR_HISTORY_MAX := 400;
  MIN_CANDLES_FOR_ENTRY := 12;
  LOOKBACK_CANDLES := 8;
  MIN_BREAKOUT_STRENGTH_BPS := qc 15 10;
  BREAKOUT_DEAD_ZONE_BPS := qc 0 1;
  ATR_PERIOD := 14;
  MIN_ATR_BPS := qc 5 1;
  REQUIRE_EMA_CROSS := false;
  EMA_FAST := 5;
  EMA_SLOW := 13;
  MIN_CONFIRMATIONS_NEEDED := 1;
  ARMED_CANDIDATE_TIMEOUT_SEC := qc 20 1;
  ZSCORE_WINDOW := 15;
  ZSCORE_THRESHOLD := qc 10 100;
  VOLUME_AVG_WINDOW := 30;
  VOLUME_SPIKE_WINDOW := 3;
  VOLUME_SPIKE_MULTIPLIER := qc 11 10;
  MIN_IMBALANCE := qc 105 100;
  MAX_IMBALANCE := qc 20 1;
  MIN_BID_DEPTH_USDT := qc 400 1;
  MAX_SPREAD_PCT := qc 35 100;
  FEE_TAKER_BPS := qc 10 1;
  MAX_SLIPPAGE_BPS := qc 5 1;
  TP_ATR_MULTIPLIER := qc 4 1;
  SL_ATR_MULTIPLIER := qc 2 1;
  MIN_TP_BPS := qc 20 1;
  MAX_TP_BPS := qc 80 1;
  MIN_SL_BPS := qc 15 1;
  MAX_SL_BPS := qc 60 1;
  MIN_RISK_REWARD_RATIO := qc 2 10;
  ENABLE_TRAILING_STOP := true;
  TRAILING_ACTIVATION_BPS := qc 15 1;
  TRAILING_DISTANCE_ATR_MULTIPLIER := qc 1 1;
  TRAILING_DISTANCE_MIN_BPS := qc 10 1;
  MAX_POSITION_HOLD_SECONDS := qc 120 1;
  BASE_ORDER_NOTIONAL_USDT := qc 20 1;
  MAX_CONCURRENT_TRADES := 1;
  MAX_CONSECUTIVE_LOSSES := 5;
  MAX_DAILY_LOSS := qc 30 1;
  COOL_DOWN_AFTER_EXIT_SEC := qc 2 1;
  COOL_DOWN_AFTER_LOSS_SEC := qc 8 1;
  MAX_TRADES_PER_PAIR_PER_HOUR := 8
|}.

(** ** RiskManager ([utils.py], lines 336-362) *)

Module RiskManager.

Record t : Type := mk {
  daily_pnl : Qc;
  consecutive_losses : nat;
  last_trade_time : Qc;
  last_loss_time : Qc;
  pair_trade_times : gmap string (list Qc)      (* defaultdict(list) *)
}.

(** [__init__] *)
Definition init : t :=
  {| daily_pnl := 0%Qc; consecutive_losses := 0; last_trade_time := 0%Qc;
     last_loss_time := 0%Qc; pair_trade_times := ∅ |}.

(** [self.pair_trade_times[inst_id]] as a value. *)
Definition trade_times (rm : t) (inst_id : string) : list Qc :=
  default [] (pair_trade_times rm !! inst_id).

(** The five checks of [can_open_position] that come before the rate limit
    (lines 345-349), in order; the reason of the first one that fails. *)
Definition early_rejection (cfg : Config) (rm : t) (open_positions : nat)
    (now : Qc) : option string :=
  if qlt (now - last_trade_time rm) (COOL_DOWN_AFTER_EXIT_SEC cfg) then
    Some ("Cooldown ("
          +:+ pretty (py_int (COOL_DOWN_AFTER_EXIT_SEC cfg - (now - last_trade_time rm)))
          +:+ "s)")
  else if bool_decide (0 < consecutive_losses rm)
          && qlt (now - last_loss_time rm) (COOL_DOWN_AFTER_LOSS_SEC cfg) then
    Some ("Loss cooldown ("
          +:+ pretty (py_int (COOL_DOWN_AFTER_LOSS_SEC cfg - (now - last_loss_time rm)))
          +:+ "s)")
  else if qle (daily_pnl rm) (- MAX_DAILY_LOSS cfg) then
    Some "Daily loss limit hit"
  else if bool_decide (MAX_CONSECUTIVE_LOSSES cfg ≤ consecutive_losses rm) then
    Some ("Max consecutive losses (" +:+ pretty (consecutive_losses rm) +:+ ")")
  else if bool_decide (MAX_CONCURRENT_TRADES cfg ≤ open_positions) then
    Some ("Max concurrent trades (" +:+ pretty open_positions +:+ ")")
  else None.

(** [t for t in ... if now - t < 3600] *)
Definition recent_trades (now : Qc) (times : list Qc) : list Qc :=
  filter (λ t, (now - t < qc 3600 1)%Qc) times.

(** [can_open_position(inst_id, open_positions)], reading the clock as
    [now]; [inst_id = None] is Python's [None].  Returns the manager as the
    call leaves it, and the (allowed, reason) pair. *)
Definition can_open_position (cfg : Config) (rm : t) (inst_id : option string)
    (open_positions : nat) (now : Qc) : t * (bool * string) :=
  match early_rejection cfg rm open_positions now with
  | Some reason => (rm, (false, reason))
  | None =>
      match inst_id with
      | Some i =>
          if bool_decide (i = "") then (rm, (true, ""))
          else
            let recent := recent_trades now (trade_times rm i) in
            let rm' :=
              {| daily_pnl := daily_pnl rm;
                 consecutive_losses := consecutive_losses rm;
                 last_trade_time := last_trade_time rm;
                 last_loss_time := last_loss_time rm;
                 pair_trade_times := <[i := recent]> (pair_trade_times rm) |} in
            if bool_decide (MAX_TRADES_PER_PAIR_PER_HOUR cfg ≤ length recent)
            then (rm', (false, i +:+ " rate limit"))
            else (rm', (true, ""))
      | None => (rm, (true, ""))
      end
  end.

(** [record_trade(inst_id, pnl)].  The clock is read three times: for
    [last_trade_time], for the instrument's window, and (on a loss) for
    [last_loss_time]. *)
Definition record_trade (rm : t) (inst_id : string) (pnl : Qc)
    (now_trade now_window now_loss : Qc) : t :=
  {| daily_pnl := (daily_pnl rm + pnl)%Qc;
     consecutive_losses :=
       if qlt pnl 0 then S (consecutive_losses rm) else 0;
     last_trade_time := now_trade;
     last_loss_time := if qlt pnl 0 then now_loss else last_loss_time rm;
     pair_trade_times :=
       <[inst_id := trade_times rm inst_id ++ [now_window]]> (pair_trade_times rm) |}.

End RiskManager.

(** Two trades on one instrument, the second of them a second ago. *)
Definition traded_twice : RiskManager.t :=
  RiskManager.record_trade
    (RiskManager.record_trade RiskManager.init "BTC-USDT" (qc 1 1)
       (qc 1000 1) (qc 1000 1) (qc 1000 1))
    "BTC-USDT" (qc 1 1) (qc 9999 1) (qc 9999 1) (qc 9999 1).

(** ** MomentumSniper: data ([strategy.py], lines 52-66, 172-178, 358-363) *)

(** An armed candidate: the dict built by [check_setup_conditions].
    [cand_obj] is the identity of the dict object (its allocation number);
    ["imbalance"] is added when the candidate is promoted. *)
Record Candidate : Type := mkCandidate {
  cand_obj : nat;
  cand_entry_price : Qc;
  cand_tp : Qc;
  cand_sl : Qc;
  cand_tp_bps : Qc;
  cand_sl_bps : Qc;
  cand_atr : Qc;
  cand_breakout_strength : Qc;
  cand_rr : Qc;
  cand_time : Qc;
  cand_imbalance : option Qc
}.

Inductive PositionState : Type :=
  | PENDING_ENTRY
  | OPEN
  | CLOSING
  | CLOSING_FAILED.

#[global] Instance PositionState_eq_dec : EqDecision PositionState.
Proof. solve_decision. Defined.

(** The position dict.  Keys that the code adds later are options;
    [pos_origin] is the identity of the candidate it was built from. *)
Record Position : Type := mkPosition {
  pos_inst_id : string;
  pos_state : PositionState;
  pos_entry_order_id : option string;
  pos_clOrdId : string;
  pos_attach_algo_id : option string;
  pos_tp_price : Qc;
  pos_sl_price : Qc;
  pos_tp_bps : Qc;
  pos_sl_bps : Qc;
  pos_atr : Qc;
  pos_rr : Qc;
  pos_time : Qc;
  pos_entry_price : option Qc;
  pos_entry_size : option Qc;
  pos_entry_fee : option Qc;
  pos_peak_price : option Qc;
  pos_trailing_active : bool;
  pos_current : option Qc;
  pos_exit_order_id : option string;
  pos_exit_price : option Qc;
  pos_exit_fee : option Qc;
  pos_exit_type : option string;
  pos_origin : nat
}.

(** One side of the top of book: a list of levels, each level a list
    [px; qty; ...] of decimal strings, here already parsed. *)
Definition BookSide : Type := list (list Qc).

Record OrderBook : Type := mkOrderBook {
  ob_bids : BookSide;
  ob_asks : BookSide
}.

(** [self.pairs_data[inst_id]]: a dict whose keys appear as they are
    written. *)
Record PairData : Type := mkPairData {
  pd_best_bid : option Qc;
  pd_best_ask : option Qc;
  pd_mid : option Qc;
  pd_order_book : option OrderBook;
  pd_last_armed_high : option Qc
}.

Definition empty_pair_data : PairData :=
  {| pd_best_bid := None; pd_best_ask := None; pd_mid := None;
     pd_order_book := None; pd_last_armed_high := None |}.

(** The engine state: the attributes of [MomentumSniper] that the decision
    logic reads and writes, with the collaborators' state it reaches
    ([order_manager.time_offset], [order_manager.usdt_balance], the risk
    manager).  [next_obj] numbers the dicts allocated so far.  Telemetry
    ([last_setup_log], [display], the log files) is left out. *)
Record Sniper : Type := mkSniper {
  pairs_data : gmap string PairData;
  active_position : option Position;
  armed_candidates : gmap string Candidate;
  bar_aggregators : gmap string BarAggregator.t;    (* defaultdict *)
  risk_manager : RiskManager.t;
  time_offset : Qc;
  usdt_balance : Qc;
  next_obj : nat
}.

Definition set_pairs_data (f : gmap string PairData → gmap string PairData)
    (s : Sniper) : Sniper :=
  {| pairs_data := f (pairs_data s); active_position := active_position s;
     armed_candidates := armed_candidates s; bar_aggregators := bar_aggregators s;
     risk_manager := risk_manager s; time_offset := time_offset s;
     usdt_balance := usdt_balance s; next_obj := next_obj s |}.

Definition set_active_position (p : option Position) (s : Sniper) : Sniper :=
  {| pairs_data := pairs_data s; active_position := p;
     armed_candidates := armed_candidates s; bar_aggregators := bar_aggregators s;
     risk_manager := risk_manager s; time_offset := time_offset s;
     usdt_balance := usdt_balance s; next_obj := next_obj s |}.

Definition set_armed_candidates
    (f : gmap string Candidate → gmap string Candidate) (s : Sniper) : Sniper :=
  {| pairs_data := pairs_data s; active_position := active_position s;
     armed_candidates := f (armed_candidates s); bar_aggregators := bar_aggregators s;
     risk_manager := risk_manager s; time_offset := time_offset s;
     usdt_balance := usdt_balance s; next_obj := next_obj s |}.

Definition set_bar_aggregators
    (f : gmap string BarAggregator.t → gmap string BarAggregator.t)
    (s : Sniper) : Sniper :=
  {| pairs_data := pairs_data s; active_position := active_position s;
     armed_candidates := armed_candidates s; bar_aggregators := f (bar_aggregators s);
     risk_manager := risk_manager s; time_offset := time_offset s;
     usdt_balance := usdt_balance s; next_obj := next_obj s |}.

Definition set_risk_manager (rm : RiskManager.t) (s : Sniper) : Sniper :=
  {| pairs_data := pairs_data s; active_position := active_position s;
     armed_candidates := armed_candidates s; bar_aggregators := bar_aggregators s;
     risk_manager := rm; time_offset := time_offset s;
     usdt_balance := usdt_balance s; next_obj := next_obj s |}.

Definition set_usdt_balance (b : Qc) (s : Sniper) : Sniper :=
  {| pairs_data := pairs_data s; active_position := active_position s;
     armed_candidates := armed_candidates s; bar_aggregators := bar_aggregators s;
     risk_manager := risk_manager s; time_offset := time_offset s;
     usdt_balance := b; next_obj := next_obj s |}.

Definition bump_next_obj (s : Sniper) : Sniper :=
  {| pairs_data := pairs_data s; active_position := active_position s;
     armed_candidates := armed_candidates s; bar_aggregators := bar_aggregators s;
     risk_manager := risk_manager s; time_offset := time_offset s;
     usdt_balance := usdt_balance s; next_obj := S (next_obj s) |}.

(** [MomentumSniper.__init__] *)
Definition new_sniper : Sniper :=
  {| pairs_data := ∅; active_position := None; armed_candidates := ∅;
     bar_aggregators := ∅; risk_manager := RiskManager.init;
     time_offset := 0%Qc; usdt_balance := 0%Qc; next_obj := 0 |}.

(** ** Signal arithmetic ([strategy.py], lines 87-101) *)

(** [compute_ema(values, period)]; [None] is Python's [None]. *)
Definition compute_ema (values : list Qc) (period : nat) : Py (option Qc) :=
  if bool_decide (length values < period) then Ret None
  else
    let k := (qc 2 1 / (Qc_of_Z (Z.of_nat period) + 1))%Qc in
    match values with
    | [] => Raise IndexError                      (* values[0] *)
    | v0 :: rest =>
        Ret (Some (foldl (λ ema v, (v * k) + (ema * (1 - k)))%Qc v0 rest))
    end.

(** Reading a local variable, or a variable of the enclosing function from
    a generator expression: unbound, it raises. *)
Definition load_name (cell : option Qc) : Py Qc :=
  match cell with
  | Some v => Ret v
  | None => Raise NameError
  end.

Section zscore.

(** [x ** y] on floats has no rational model; it is a parameter. *)
Variable float_pow : Qc → Qc → Qc.

(** [compute_zscore(returns)].  Line 98 is one tuple assignment,
      [mean, var = sum(arr) / len(arr), sum((x - mean) ** 2 for x in arr) / len(arr)]:
    both right-hand sides are evaluated before either name is bound, so the
    generator reads [mean] while its cell is still empty.  The bare
    [except] turns whatever is raised into [0.0]. *)
Definition compute_zscore (returns : list Qc) : Qc :=
  if bool_decide (length returns < 5) then 0%Qc
  else
    except_all
     (let arr := returns in
      let mean_cell : option Qc := None in          (* [mean] not yet bound *)
      rhs1 ← py_truediv (py_sum arr) (Qc_of_Z (Z.of_nat (length arr)));
      squares ← py_mapM (λ x, mean ← load_name mean_cell; Ret ((x - mean) ^ 2)%Qc) arr;
      rhs2 ← py_truediv (py_sum squares) (Qc_of_Z (Z.of_nat (length arr)));
      let mean := rhs1 in
      let var := rhs2 in
      let std := if qlt 0 var then float_pow var (qc 1 2) else qc 1 1000000000 in
      last ← match last arr with Some x => Ret x | None => Raise IndexError end;
      py_truediv (last - mean)%Qc std)
     0%Qc.

(** The z-score in the words of the specification: (last − mean) / stddev,
    with the population standard deviation, epsilon-guarded. *)
Definition zscore_as_specified (returns : list Qc) : Qc :=
  let n := Qc_of_Z (Z.of_nat (length returns)) in
  let mean := (py_sum returns / n)%Qc in
  let var := (py_sum ((λ x, (x - mean) ^ 2)%Qc <$> returns) / n)%Qc in
  let std := if qlt 0 var then float_pow var (qc 1 2) else qc 1 1000000000 in
  ((default 0%Qc (last returns) - mean) / std)%Qc.

(** [math.log]; it raises [ValueError] outside its domain. *)
Variable math_log : Qc → Py Qc.

(** [[math_log(closes[i] / closes[i - 1]) for i in range(1, len(closes))
      if closes[i - 1] > 0]] *)
Definition log_returns (closes : list Qc) : Py (list Qc) :=
  py_mapM (λ pc, q ← py_truediv pc.2 pc.1; math_log q)
          (filter (λ pc, (0 < pc.1)%Qc) (zip closes (tail closes))).

(** The momentum test of the confirmation scan (line 215):
    [abs(z_score) >= config.ZSCORE_THRESHOLD]. *)
Definition zscore_confirms (cfg : Config) (z_score : Qc) : bool :=
  qle (ZSCORE_THRESHOLD cfg) (Qcabs z_score).

(** The momentum block of [check_execution_conditions] (lines 208-217):
    whether it adds one to [confirmations]. *)
Definition momentum_confirmation (cfg : Config)
    (aggregator : option BarAggregator.t) : Py bool :=
  match aggregator with
  | Some a =>
      if bool_decide (0 < BarAggregator.len a)
         && bool_decide (ZSCORE_WINDOW cfg ≤ BarAggregator.len a)
      then
        let closes := BarAggregator.get_closes a (Some (ZSCORE_WINDOW cfg)) in
        if bool_decide (1 < length closes) then
          rets ← log_returns closes;
          match rets with
          | [] => Ret false
          | _ => Ret (zscore_confirms cfg (compute_zscore rets))
          end
        else Ret false
      else Ret false
  | None => Ret false
  end.

End zscore.

(** Five returns whose last one stands out. *)
Definition example_returns : list Qc :=
  [qc 1 100; qc 2 100; qc 3 100; qc 4 100; qc 10 100].

(** ** The setup scan ([strategy.py], lines 103-182) *)

(** How a scan ends. *)
Inductive ScanOutcome : Type :=
  | Skipped                               (* a plain [return] *)
  | Rejected (stage reason : string)      (* [_log_rejection(..)], then [return] *)
  | Armed (c : Candidate)                 (* the candidate is in the table *)
  | Promoted (c : Candidate)              (* popped, [enter_position] scheduled *)
  | Faulted (e : PyExn).                  (* the [except] branch ran *)

(** [max(xs)] and [max(a, b, c)] on a non-empty sequence keep the first
    maximal item. *)
Definition py_max_list (x : Qc) (xs : list Qc) : Qc := foldl py_max x xs.

(** [xs[:-1]] *)
Definition drop_last {A} (xs : list A) : list A := take (length xs - 1) xs.

(** [(dist / current_price) * 10000] *)
Definition to_bps (dist current_price : Qc) : Py Qc :=
  q ← py_truediv dist current_price; Ret (q * qc 10000 1)%Qc.

(** True ranges (line 149):
    [max(curr[2] - curr[3], abs(curr[2] - prev[4]), abs(curr[3] - prev[4]))]
    over [zip(bars, bars[1:])]. *)
Definition true_ranges (bars : list BarAggregator.Bar) : list Qc :=
  (λ pc : BarAggregator.Bar * BarAggregator.Bar,
     let (prev, curr) := pc in
     py_max_list
       (BarAggregator.bar_high curr - BarAggregator.bar_low curr)%Qc
       [ Qcabs (BarAggregator.bar_high curr - BarAggregator.bar_close prev);
         Qcabs (BarAggregator.bar_low curr - BarAggregator.bar_close prev) ])
  <$> zip bars (tail bars).

(** Lines 105-140: from the aggregator to the breakout strength.  [inl] is
    an early return; [inr] carries (current_price, recent_high,
    breakout_bps) on. *)
Definition setup_breakout (cfg : Config) (s : Sniper) (inst_id : string)
    : Py (ScanOutcome + (BarAggregator.t * Qc * Qc * Qc)) :=
  match bar_aggregators s !! inst_id with
  | None => Ret (inl Skipped)
  | Some aggregator =>
      if bool_decide (BarAggregator.len aggregator = 0)
         || bool_decide (BarAggregator.len aggregator < MIN_CANDLES_FOR_ENTRY cfg)
      then Ret (inl Skipped)
      else if bool_decide (is_Some (armed_candidates s !! inst_id))
      then Ret (inl Skipped)
      else
        let closes := BarAggregator.get_closes aggregator None in
        if bool_decide (length closes < MIN_CANDLES_FOR_ENTRY cfg)
        then Ret (inl Skipped)
        else
          ema_stop ←
            (if REQUIRE_EMA_CROSS cfg then
               ema_fast ← compute_ema closes (EMA_FAST cfg);
               ema_slow ← compute_ema closes (EMA_SLOW cfg);
               match ema_fast, ema_slow with
               | Some f, Some sl =>
                   Ret (bool_decide (f = 0%Qc) || bool_decide (sl = 0%Qc) || qle f sl)
               | _, _ => Ret true
               end
             else Ret false);
          if ema_stop : bool then Ret (inl Skipped)
          else
            current_price ←
              match last closes with Some c => Ret c | None => Raise IndexError end;
            let lookback_closes := tail_slice (Some (LOOKBACK_CANDLES cfg)) closes in
            if bool_decide (length lookback_closes < 2) then Ret (inl Skipped)
            else
              recent_high ←
                match drop_last lookback_closes with
                | x :: xs => Ret (py_max_list x xs)
                | [] => Raise ValueError
                end;
              let last_armed_high :=
                default 0%Qc (pairs_data s !! inst_id ≫= pd_last_armed_high) in
              let dead_zone_price :=
                (recent_high * (1 - BREAKOUT_DEAD_ZONE_BPS cfg / qc 10000 1))%Qc in
              if qlt 0 (BREAKOUT_DEAD_ZONE_BPS cfg)
                 && bool_decide (recent_high = last_armed_high)
                 && qlt dead_zone_price current_price
              then Ret (inl (Rejected "Setup" "In Dead Zone"))
              else if qle current_price recent_high
              then Ret (inl (Rejected "Setup" "No Breakout"))
              else
                breakout_bps ← to_bps (current_price - recent_high)%Qc recent_high;
                if qlt breakout_bps (MIN_BREAKOUT_STRENGTH_BPS cfg)
                then Ret (inl (Rejected "Setup" "Weak Breakout"))
                else Ret (inr (aggregator, current_price, recent_high, breakout_bps))
  end.

(** [max(lo, min(hi, x))] *)
Definition clamp_bps (lo hi x : Qc) : Qc := py_max lo (py_min hi x).

(** Lines 146-178: from the bars to the candidate dict. *)
Definition setup_targets (cfg : Config) (aggregator : BarAggregator.t)
    (current_price breakout_bps now : Qc) (obj : nat)
    : Py (ScanOutcome + Candidate) :=
  let bars := BarAggregator.get_bars aggregator (Some (ATR_PERIOD cfg + 1)) in
  if bool_decide (length bars < ATR_PERIOD cfg + 1) then Ret (inl Skipped)
  else
    let trs := true_ranges bars in
    match trs with
    | [] => Ret (inl Skipped)
    | _ =>
        atr ← py_truediv (py_sum trs) (Qc_of_Z (Z.of_nat (length trs)));
        atr_bps ← to_bps atr current_price;
        if qlt atr_bps (MIN_ATR_BPS cfg) then Ret (inl (Rejected "Setup" "Low ATR"))
        else
          let tp_dist := (atr * TP_ATR_MULTIPLIER cfg)%Qc in
          let sl_dist := (atr * SL_ATR_MULTIPLIER cfg)%Qc in
          raw_tp_bps ← to_bps tp_dist current_price;
          raw_sl_bps ← to_bps sl_dist current_price;
          let expected_cost_bps := (FEE_TAKER_BPS cfg + MAX_SLIPPAGE_BPS cfg)%Qc in
          if qle (raw_tp_bps - expected_cost_bps) 0 || qle raw_sl_bps 0
          then Ret (inl Skipped)
          else
            rr ← py_truediv (raw_tp_bps - expected_cost_bps)%Qc
                            (raw_sl_bps + expected_cost_bps)%Qc;
            if qlt rr (MIN_RISK_REWARD_RATIO cfg)
            then Ret (inl (Rejected "Setup" "Low R:R"))
            else
              let tp_bps_adj := clamp_bps (MIN_TP_BPS cfg) (MAX_TP_BPS cfg) raw_tp_bps in
              let sl_bps_adj := clamp_bps (MIN_SL_BPS cfg) (MAX_SL_BPS cfg) raw_sl_bps in
              Ret (inr {|
                cand_obj := obj;
                cand_entry_price := current_price;
                cand_tp := (current_price * (1 + tp_bps_adj / qc 10000 1))%Qc;
                cand_sl := (current_price * (1 - sl_bps_adj / qc 10000 1))%Qc;
                cand_tp_bps := tp_bps_adj;
                cand_sl_bps := sl_bps_adj;
                cand_atr := atr;
                cand_breakout_strength := breakout_bps;
                cand_rr := rr;
                cand_time := now;
                cand_imbalance := None |})
    end.

(** [self.pairs_data[inst_id]['last_armed_high'] = recent_high], creating
    the inner dict when the instrument has none (lines 142-144). *)
Definition store_last_armed_high (inst_id : string) (recent_high : Qc)
    (s : Sniper) : Sniper :=
  let pd := default empty_pair_data (pairs_data s !! inst_id) in
  set_pairs_data
    <[inst_id := {| pd_best_bid := pd_best_bid pd; pd_best_ask := pd_best_ask pd;
                    pd_mid := pd_mid pd; pd_order_book := pd_order_book pd;
                    pd_last_armed_high := Some recent_high |}]> s.

(** [if inst_id in self.pairs_data:
       self.pairs_data[inst_id].pop('last_armed_high', None)] *)
Definition pop_last_armed_high (inst_id : string) (s : Sniper) : Sniper :=
  set_pairs_data
    (alter (λ pd, {| pd_best_bid := pd_best_bid pd; pd_best_ask := pd_best_ask pd;
                     pd_mid := pd_mid pd; pd_order_book := pd_order_book pd;
                     pd_last_armed_high := None |}) inst_id) s.

(** [check_setup_conditions(inst_id)], reading the clock as [now].  The
    [except] branch drops the dead-zone level from the state as it stands
    when the exception is raised; what its logging call does after that is
    not modelled, the scan is over either way. *)
Definition check_setup_conditions (cfg : Config) (s : Sniper) (inst_id : string)
    (now : Qc) : Sniper * ScanOutcome :=
  match setup_breakout cfg s inst_id with
  | Raise e => (pop_last_armed_high inst_id s, Faulted e)
  | Ret (inl out) => (s, out)
  | Ret (inr (aggregator, current_price, recent_high, breakout_bps)) =>
      let s1 :=
        if qlt 0 (BREAKOUT_DEAD_ZONE_BPS cfg)
        then store_last_armed_high inst_id recent_high s else s in
      match setup_targets cfg aggregator current_price breakout_bps now (next_obj s1) with
      | Raise e => (pop_last_armed_high inst_id s1, Faulted e)
      | Ret (inl out) => (s1, out)
      | Ret (inr c) =>
          (bump_next_obj (set_armed_candidates <[inst_id := c]> s1), Armed c)
      end
  end.

(** Fifteen closed bars: fourteen closing at 99 with a range of 1, then one
    closing at 100 with high 100 and low 99.  The newest close is 100 and
    the average true range is 1. *)
Definition example_bars : list BarAggregator.Bar :=
  ((λ i : nat, BarAggregator.mkBar (Qc_of_Z (Z.of_nat i))
      (qc 99 1) (qc 995 10) (qc 985 10) (qc 99 1) 0%Qc) <$> seq 0 14)
  ++ [BarAggregator.mkBar (qc 14 1) (qc 99 1) (qc 100 1) (qc 99 1) (qc 100 1) 0%Qc].

Definition example_sniper : Sniper :=
  set_bar_aggregators
    <["BTC-USDT" :=
        {| BarAggregator.bar_period := qc 1 1; BarAggregator.max_bars := 400;
           BarAggregator.bars := example_bars;
           BarAggregator.current_bar := None;
           BarAggregator.current_bar_start := qc 14 1;
           BarAggregator.trade_volumes := [] |}]>
    new_sniper.

(** ** OrderManager ([order_manager.py], lines 130-152, 181-195) *)

(** A Python value as it crosses a call boundary. *)
Inductive PyVal : Type :=
  | VNone
  | VBool (b : bool)
  | VStr (s : string)
  | VNum (q : Qc).

Module OrderManager.

(** One element of the ["data"] list of an answer of the exchange. *)
Record ApiItem : Type := mkItem {
  sCode : option string;
  sMsg : option string;
  ordId : option string;
  algoId : option string
}.

(** What [_make_request] returns: the JSON answer, or
    [{"code": "-1", "msg": "Max retries exceeded"}]. *)
Record ApiResponse : Type := mkResponse {
  code : option string;
  msg : option string;
  data : option (list ApiItem)
}.

Definition empty_item : ApiItem :=
  {| sCode := None; sMsg := None; ordId := None; algoId := None |}.

(** [res.get("data", [{}])[0]] *)
Definition first_item (res : ApiResponse) : Py ApiItem :=
  match data res with
  | None => Ret empty_item
  | Some (d :: _) => Ret d
  | Some [] => Raise IndexError
  end.

(** The body of [place_market_order], after its parameters are bound;
    [meta] is [self.meta] (instrument to lot decimals), [res] the answer of
    the exchange to the request it sends. *)
Definition place_market_order_body (meta : gmap string nat) (res : ApiResponse)
    (inst_id side amount cl_ord_id is_quote_amount : PyVal)
    : Py (option string * option string) :=
  match inst_id with
  | VStr i =>
      match meta !! i with
      | None => Ret (None, Some "No metadata")
      | Some _ =>
          if bool_decide (code res = Some "0") then
            d ← first_item res;
            if bool_decide (sCode d = Some "0") then Ret (ordId d, None)
            else Ret (None, Some (default "Order Rejected" (sMsg d)))
          else Ret (None, Some (default "API Error" (msg res)))
      end
  | _ => Ret (None, Some "No metadata")
  end.

(** A call [self.order_manager.place_market_order(..)] with the positional
    arguments [args].  The signature is
    [(self, inst_id, side, amount, cl_ord_id, is_quote_amount=False)]: four
    positional parameters are required and a fifth is optional; any other
    number of arguments raises [TypeError] before the body runs. *)
Definition place_market_order (meta : gmap string nat) (res : ApiResponse)
    (args : list PyVal) : Py (option string * option string) :=
  match args with
  | [inst_id; side; amount; cl_ord_id] =>
      place_market_order_body meta res inst_id side amount cl_ord_id (VBool false)
  | [inst_id; side; amount; cl_ord_id; is_quote_amount] =>
      place_market_order_body meta res inst_id side amount cl_ord_id is_quote_amount
  | _ => Raise TypeError
  end.

(** [cancel_algo_order(inst_id, algo_id)] *)
Definition cancel_algo_order (res : ApiResponse) (inst_id : string)
    (algo_id : option string) : Py (option string * option string) :=
  match algo_id with
  | None | Some "" => Ret (None, Some "Invalid algo_id")
  | Some _ =>
      if bool_decide (code res = Some "0") then
        d ← first_item res;
        if bool_decide (sCode d ≠ Some "0") && bool_decide (sCode d ≠ Some "51300")
        then Ret (None, Some (default "Cancel failed" (sMsg d)))
        else Ret (algoId d, None)
      else Ret (None, Some (default "API Error" (msg res)))
  end.

End OrderManager.

(** ** Forced exit ([strategy.py], lines 420-445) *)

Definition with_state (st : PositionState) (p : Position) : Position :=
  {| pos_inst_id := pos_inst_id p; pos_state := st;
     pos_entry_order_id := pos_entry_order_id p; pos_clOrdId := pos_clOrdId p;
     pos_attach_algo_id := pos_attach_algo_id p; pos_tp_price := pos_tp_price p;
     pos_sl_price := pos_sl_price p; pos_tp_bps := pos_tp_bps p;
     pos_sl_bps := pos_sl_bps p; pos_atr := pos_atr p; pos_rr := pos_rr p;
     pos_time := pos_time p; pos_entry_price := pos_entry_price p;
     pos_entry_size := pos_entry_size p; pos_entry_fee := pos_entry_fee p;
     pos_peak_price := pos_peak_price p; pos_trailing_active := pos_trailing_active p;
     pos_current := pos_current p; pos_exit_order_id := pos_exit_order_id p;
     pos_exit_price := pos_exit_price p; pos_exit_fee := pos_exit_fee p;
     pos_exit_type := pos_exit_type p; pos_origin := pos_origin p |}.

(** [pos.update({"exit_order_id": exit_ord_id, "exit_type": reason})] *)
Definition with_exit_order (exit_ord_id reason : string) (p : Position) : Position :=
  {| pos_inst_id := pos_inst_id p; pos_state := pos_state p;
     pos_entry_order_id := pos_entry_order_id p; pos_clOrdId := pos_clOrdId p;
     pos_attach_algo_id := pos_attach_algo_id p; pos_tp_price := pos_tp_price p;
     pos_sl_price := pos_sl_price p; pos_tp_bps := pos_tp_bps p;
     pos_sl_bps := pos_sl_bps p; pos_atr := pos_atr p; pos_rr := pos_rr p;
     pos_time := pos_time p; pos_entry_price := pos_entry_price p;
     pos_entry_size := pos_entry_size p; pos_entry_fee := pos_entry_fee p;
     pos_peak_price := pos_peak_price p; pos_trailing_active := pos_trailing_active p;
     pos_current := pos_current p; pos_exit_order_id := Some exit_ord_id;
     pos_exit_price := pos_exit_price p; pos_exit_fee := pos_exit_fee p;
     pos_exit_type := Some reason; pos_origin := pos_origin p |}.

(** Truth value of an optional string or number: [None], [""] and zero are
    false. *)
Definition truthy_str (o : option string) : bool :=
  match o with None | Some "" => false | Some _ => true end.
Definition truthy_num (o : option Qc) : bool :=
  match o with None => false | Some q => negb (bool_decide (q = 0%Qc)) end.

(** [force_close_position(reason)].  [cancel_res] and [order_res] are the
    answers of the exchange to the cancel and to the market-exit request,
    should they be sent.  The state is returned as the call leaves it, also
    when it raises. *)
Definition force_close_position (meta : gmap string nat) (s : Sniper)
    (reason : string) (cancel_res order_res : OrderManager.ApiResponse)
    : Sniper * Py unit :=
  match active_position s with
  | None => (s, Ret ())
  | Some pos0 =>
      if bool_decide (pos_state pos0 ≠ OPEN) then (s, Ret ())
      else
        let inst_id := pos_inst_id pos0 in
        let pos := with_state CLOSING pos0 in              (* pos["state"] = "CLOSING" *)
        let s1 := set_active_position (Some pos) s in
        let cancelled :=
          if truthy_str (pos_attach_algo_id pos)
          then OrderManager.cancel_algo_order cancel_res inst_id (pos_attach_algo_id pos)
          else Ret (None, None) in
        match cancelled with
        | Raise e => (s1, Raise e)
        | Ret _ =>
            let size_to_sell := pos_entry_size pos in
            if negb (truthy_num size_to_sell)
            then (set_active_position None s1, Ret ())
            else
              match OrderManager.place_market_order meta order_res
                      [VStr inst_id; VStr "sell";
                       match size_to_sell with Some q => VNum q | None => VNone end]
              with
              | Raise e => (s1, Raise e)
              | Ret (exit_ord_id, error) =>
                  if truthy_str exit_ord_id
                  then (set_active_position
                          (Some (with_exit_order (default "" exit_ord_id) reason pos)) s1,
                        Ret ())
                  else (set_active_position (Some (with_state CLOSING_FAILED pos)) s1,
                        Ret ())
              end
        end
  end.

(** A filled position of 0.2 units, no attached exit order, and an answer of
    the exchange that turns the market-exit order down. *)
Definition example_open_position : Position :=
  {| pos_inst_id := "BTC-USDT"; pos_state := OPEN;
     pos_entry_order_id := Some "1001"; pos_clOrdId := "MS86BTC1";
     pos_attach_algo_id := None; pos_tp_price := qc 1008 10;
     pos_sl_price := qc 994 10; pos_tp_bps := qc 80 1; pos_sl_bps := qc 60 1;
     pos_atr := qc 1 1; pos_rr := qc 77 43; pos_time := qc 16 1;
     pos_entry_price := Some (qc 100 1); pos_entry_size := Some (qc 2 10);
     pos_entry_fee := Some (qc 2 100); pos_peak_price := Some (qc 100 1);
     pos_trailing_active := false; pos_current := None;
     pos_exit_order_id := None; pos_exit_price := None; pos_exit_fee := None;
     pos_exit_type := None; pos_origin := 0 |}.

Definition example_meta : gmap string nat := {["BTC-USDT" := 8]}.

Definition order_rejected : OrderManager.ApiResponse :=
  {| OrderManager.code := Some "1"; OrderManager.msg := Some "Operation failed";
     OrderManager.data := Some [ {| OrderManager.sCode := Some "51008";
                                   OrderManager.sMsg := Some "Insufficient balance";
                                   OrderManager.ordId := None;
                                   OrderManager.algoId := None |} ] |}.

(** ** The monitor on an open position ([strategy.py], lines 391-418) *)

(** The keys that the monitor writes on the position dict: ["current"],
    ["peak_price"], ["trailing_active"] and ["attach_algo_id"]. *)
Definition with_monitoring (current peak : option Qc) (trailing : bool)
    (algo : option string) (p : Position) : Position :=
  {| pos_inst_id := pos_inst_id p; pos_state := pos_state p;
     pos_entry_order_id := pos_entry_order_id p; pos_clOrdId := pos_clOrdId p;
     pos_attach_algo_id := algo; pos_tp_price := pos_tp_price p;
     pos_sl_price := pos_sl_price p; pos_tp_bps := pos_tp_bps p;
     pos_sl_bps := pos_sl_bps p; pos_atr := pos_atr p; pos_rr := pos_rr p;
     pos_time := pos_time p; pos_entry_price := pos_entry_price p;
     pos_entry_size := pos_entry_size p; pos_entry_fee := pos_entry_fee p;
     pos_peak_price := peak; pos_trailing_active := trailing;
     pos_current := current; pos_exit_order_id := pos_exit_order_id p;
     pos_exit_price := pos_exit_price p; pos_exit_fee := pos_exit_fee p;
     pos_exit_type := pos_exit_type p; pos_origin := pos_origin p |}.

(** The part of one pass of [monitor_position] that handles an OPEN
    position, inside the position lock; [now] is the clock read at line 374.
    Nothing in [monitor_position] catches an exception: what
    [force_close_position] or [cancel_algo_order] raises leaves the
    coroutine. *)
Definition monitor_open (cfg : Config) (meta : gmap string nat) (s : Sniper)
    (now : Qc) (cancel_res order_res : OrderManager.ApiResponse)
    : Sniper * Py unit :=
  match active_position s with
  | None => (s, Ret ())
  | Some pos =>
      if bool_decide (pos_state pos ≠ OPEN) then (s, Ret ())
      else
        let current := pairs_data s !! pos_inst_id pos ≫= pd_mid in
        match current with
        | None => (s, Ret ())
        | Some current_price =>
            if bool_decide (current_price = 0%Qc) then (s, Ret ())
            else
              let pos1 :=
                with_monitoring current (pos_peak_price pos) (pos_trailing_active pos)
                  (pos_attach_algo_id pos) pos in
              let s1 := set_active_position (Some pos1) s in
              if qlt (MAX_POSITION_HOLD_SECONDS cfg) (now - pos_time pos1)
              then force_close_position meta s1 "MAX_HOLD_TIME" cancel_res order_res
              else
                match pos_entry_price pos1 with
                | Some entry_price =>
                    if negb (ENABLE_TRAILING_STOP cfg) || bool_decide (entry_price = 0%Qc)
                    then (s1, Ret ())
                    else
                      let peak0 :=
                        if truthy_num (pos_peak_price pos1)
                        then default entry_price (pos_peak_price pos1)
                        else entry_price in
                      let peak := if qlt peak0 current_price then current_price else peak0 in
                      let activation_price :=
                        (entry_price
                         * (1 + TRAILING_ACTIVATION_BPS cfg / qc 10000 1))%Qc in
                      let activates :=
                        negb (pos_trailing_active pos1)
                        && qle activation_price current_price in
                      let pos2 :=
                        with_monitoring current (Some peak)
                          (pos_trailing_active pos1 || activates)
                          (pos_attach_algo_id pos1) pos1 in
                      let cancelled :=
                        if activates && truthy_str (pos_attach_algo_id pos2)
                        then OrderManager.cancel_algo_order cancel_res
                               (pos_inst_id pos2) (pos_attach_algo_id pos2)
                        else Ret (None, None) in
                      match cancelled with
                      | Raise e => (set_active_position (Some pos2) s, Raise e)
                      | Ret _ =>
                          let pos3 :=
                            with_monitoring current (Some peak) (pos_trailing_active pos2)
                              (if activates && truthy_str (pos_attach_algo_id pos2)
                               then None else pos_attach_algo_id pos2) pos2 in
                          let s3 := set_active_position (Some pos3) s in
                          if pos_trailing_active pos3 then
                            let trail_dist :=
                              py_max (pos_atr pos3 * TRAILING_DISTANCE_ATR_MULTIPLIER cfg)%Qc
                                     (entry_price * TRAILING_DISTANCE_MIN_BPS cfg
                                      / qc 10000 1)%Qc in
                            if qle current_price (peak - trail_dist)
                            then force_close_position meta s3 "TRAILING_STOP"
                                   cancel_res order_res
                            else (s3, Ret ())
                          else (s3, Ret ())
                      end
                | None => (s1, Ret ())
                end
        end
  end.

(** The filled position, two minutes and a second later, with a quote in
    the snapshot of its instrument. *)
Definition example_held_sniper : Sniper :=
  set_pairs_data
    <["BTC-USDT" := {| pd_best_bid := Some (qc 9995 100);
                       pd_best_ask := Some (qc 10005 100);
                       pd_mid := Some (qc 100 1);
                       pd_order_book := None;
                       pd_last_armed_high := None |}]>
    (set_active_position (Some example_open_position) new_sniper).

(** ** Ingestion ([strategy.py], lines 257-290) *)

(** The first element of a [bbo-tbt] payload: [.get('bids')] and
    [.get('asks')] may both be missing. *)
Record Bbo : Type := mkBbo {
  bbo_bids : option BookSide;
  bbo_asks : option BookSide
}.

(** A trade print; ["px"] and ["sz"] are [None] when the key is missing or
    the text is no number, and [tr_now] is the clock when its tick is added. *)
Record Trade : Type := mkTrade {
  tr_px : option Qc;
  tr_sz : option Qc;
  tr_now : Qc
}.

(** A scan scheduled with [asyncio.create_task]. *)
Inductive Spawned : Type :=
  | SetupScan (inst_id : string)
  | ExecScan (inst_id : string).

(** [self.bar_aggregators[inst_id]]: the lookup of a [defaultdict]; a miss
    stores a fresh aggregator. *)
Definition aggregator_of (cfg : Config) (s : Sniper) (inst_id : string)
    : BarAggregator.t :=
  default (BarAggregator.init (BAR_SAMPLING_SEC cfg) (BAR_HISTORY_MAX cfg))
          (bar_aggregators s !! inst_id).

Definition touch_aggregator (cfg : Config) (inst_id : string) (s : Sniper) : Sniper :=
  set_bar_aggregators <[inst_id := aggregator_of cfg s inst_id]> s.

(** [self.pairs_data[inst_id].update({"best_bid": .., "best_ask": .., "mid": ..,
    "order_book": ..})], after [pairs_data[inst_id] = {}] on a miss. *)
Definition store_snapshot (inst_id : string) (best_bid_px best_ask_px : Qc)
    (bids asks : BookSide) (s : Sniper) : Sniper :=
  let pd := default empty_pair_data (pairs_data s !! inst_id) in
  set_pairs_data
    <[inst_id := {| pd_best_bid := Some best_bid_px;
                    pd_best_ask := Some best_ask_px;
                    pd_mid := Some ((best_bid_px + best_ask_px) / qc 2 1)%Qc;
                    pd_order_book := Some {| ob_bids := bids; ob_asks := asks |};
                    pd_last_armed_high := pd_last_armed_high pd |}]> s.

(** The exceptions [handle_bbo_data] catches (line 280). *)
Definition bbo_caught (e : PyExn) : bool :=
  match e with
  | KeyError | IndexError | ValueError | TypeError => true
  | _ => false
  end.

(** [handle_bbo_data(inst_id, bbo_data_list)], reading the clock as [now]:
    the state it leaves, and the scans it schedules or the exception that
    escapes it. *)
Definition handle_bbo_data (cfg : Config) (s : Sniper) (inst_id : string)
    (bbo_data_list : list Bbo) (now : Qc) : Sniper * Py (list Spawned) :=
  match bbo_data_list with
  | [] => (s, Ret [])
  | bbo_data :: _ =>
      match bbo_bids bbo_data, bbo_asks bbo_data with
      | Some (((best_bid_px :: _) :: _) as bids), Some (((best_ask_px :: _) :: _) as asks) =>
          let s1 := store_snapshot inst_id best_bid_px best_ask_px bids asks s in
          let mid_price := ((best_bid_px + best_ask_px) / qc 2 1)%Qc in
          if qlt 0 mid_price then
            let s2 := touch_aggregator cfg inst_id s1 in
            match BarAggregator.add_tick (aggregator_of cfg s1 inst_id) now
                    (time_offset s) mid_price 0 with
            | Ret a => (set_bar_aggregators <[inst_id := a]> s2,
                        Ret [SetupScan inst_id; ExecScan inst_id])
            | Raise e => (s2, if bbo_caught e then Ret [] else Raise e)
            end
          else (s1, Ret [])
      | _, _ => (s, Ret [])
      end
  end.

(** One pass of the loop of [handle_trade_data] (lines 287-290); the bare
    [except] swallows whatever is raised. *)
Definition fold_trade (time_offset : Qc) (a : BarAggregator.t) (tr : Trade)
    : BarAggregator.t :=
  match tr_px tr with
  | Some price =>
      if qlt 0 price then
        match tr_sz tr with
        | Some sz =>
            except_all (BarAggregator.add_tick a (tr_now tr) time_offset price sz) a
        | None => a
        end
      else a
  | None => a
  end.

(** [handle_trade_data(inst_id, trades)] *)
Definition handle_trade_data (cfg : Config) (s : Sniper) (inst_id : string)
    (trades : list Trade) : Sniper :=
  let aggregator := aggregator_of cfg s inst_id in
  set_bar_aggregators
    <[inst_id := foldl (fold_trade (time_offset s)) aggregator trades]> s.

(** A top-of-book update quoting zero on both sides. *)
Definition zero_quote : Bbo :=
  {| bbo_bids := Some [[0%Qc; qc 1 1]]; bbo_asks := Some [[0%Qc; qc 1 1]] |}.

(** [bids and bids[0]]: the side is there, and so is its first level. *)
Definition usable_side (side : option BookSide) : bool :=
  match side with
  | Some ((_ :: _) :: _) => true
  | _ => false
  end.

(** The best price of a usable side, [side[0][0]]. *)
Definition best_px (side : option BookSide) : option Qc :=
  match side with
  | Some ((px :: _) :: _) => Some px
  | _ => None
  end.

(** ** The confirmation scan ([strategy.py], lines 184-255) *)

(** [xs[:-n]] *)
Definition drop_tail {A} (n : nat) (xs : list A) : list A :=
  match n with
  | 0 => []
  | S _ => take (length xs - n) xs
  end.

Definition with_imbalance (imb : Qc) (c : Candidate) : Candidate :=
  {| cand_obj := cand_obj c; cand_entry_price := cand_entry_price c;
     cand_tp := cand_tp c; cand_sl := cand_sl c; cand_tp_bps := cand_tp_bps c;
     cand_sl_bps := cand_sl_bps c; cand_atr := cand_atr c;
     cand_breakout_strength := cand_breakout_strength c; cand_rr := cand_rr c;
     cand_time := cand_time c; cand_imbalance := Some imb |}.

(** The volume block (lines 219-230): whether it adds one to
    [confirmations]. *)
Definition volume_confirmation (cfg : Config) (aggregator : option BarAggregator.t)
    : Py bool :=
  match aggregator with
  | Some a =>
      if bool_decide (0 < BarAggregator.len a)
         && bool_decide (VOLUME_AVG_WINDOW cfg ≤ BarAggregator.len a)
      then
        let volumes :=
          BarAggregator.bar_volume
            <$> BarAggregator.get_bars a (Some (VOLUME_AVG_WINDOW cfg)) in
        if bool_decide (VOLUME_AVG_WINDOW cfg ≤ length volumes) then
          let recent_vol := py_sum (tail_slice (Some (VOLUME_SPIKE_WINDOW cfg)) volumes) in
          let base_vols := drop_tail (VOLUME_SPIKE_WINDOW cfg) volumes in
          match base_vols with
          | [] => Ret false
          | _ =>
              if qlt 0 (py_sum base_vols) then
                avg_base_vol ←
                  py_truediv (py_sum base_vols) (Qc_of_Z (Z.of_nat (length base_vols)));
                if qlt 0 avg_base_vol then
                  mult ← py_truediv recent_vol
                           (avg_base_vol * Qc_of_Z (Z.of_nat (VOLUME_SPIKE_WINDOW cfg)))%Qc;
                  Ret (qle (VOLUME_SPIKE_MULTIPLIER cfg) mult)
                else Ret false
              else Ret false
          end
        else Ret false
      else Ret false
  | None => Ret false
  end.

(** [sum(Decimal(b[1]) * Decimal(b[0]) for b in side)] *)
Definition notional (side : BookSide) : Py Qc :=
  vs ← py_mapM (λ level : list Qc,
                  match level with
                  | px :: qty :: _ => Ret (qty * px)%Qc
                  | _ => Raise IndexError
                  end) side;
  Ret (py_sum vs).

(** The book block (lines 232-240): whether it adds one to [confirmations],
    and [imb] when the block binds it. *)
Definition imbalance_confirmation (cfg : Config) (book : OrderBook)
    : Py (bool * option Qc) :=
  match ob_bids book, ob_asks book with
  | _ :: _, _ :: _ =>
      bid_vol ← notional (ob_bids book);
      ask_vol ← notional (ob_asks book);
      if qlt 0 ask_vol && qle (MIN_BID_DEPTH_USDT cfg) bid_vol then
        imb ← py_truediv bid_vol ask_vol;
        Ret (qle (MIN_IMBALANCE cfg) imb && qle imb (MAX_IMBALANCE cfg), Some imb)
      else Ret (false, None)
  | _, _ => Ret (false, None)
  end.

Section confirmation.

Variable float_pow : Qc → Qc → Qc.
Variable math_log : Qc → Py Qc.

(** Lines 202-249, after the risk check: the spread test and the three
    confirmations.  [inl reason] is a logged rejection; [inr imb] lets the
    candidate through, with the value stored under ["imbalance"]. *)
Definition confirmations (cfg : Config) (s : Sniper) (inst_id : string)
    : Py (string + Qc) :=
  match pairs_data s !! inst_id with
  | None => Raise KeyError
  | Some pd =>
      best_ask ← match pd_best_ask pd with Some x => Ret x | None => Raise KeyError end;
      best_bid ← match pd_best_bid pd with Some x => Ret x | None => Raise KeyError end;
      q ← py_truediv (best_ask - best_bid)%Qc best_ask;
      let spread_pct := (q * qc 100 1)%Qc in
      if qlt (MAX_SPREAD_PCT cfg) spread_pct then Ret (inl "Wide Spread")
      else
        let aggregator := bar_aggregators s !! inst_id in
        z_ok ← momentum_confirmation float_pow math_log cfg aggregator;
        vol_ok ← volume_confirmation cfg aggregator;
        book ← match pd_order_book pd with Some b => Ret b | None => Raise KeyError end;
        book_res ← imbalance_confirmation cfg book;
        let '(book_ok, imb) := (book_res : bool * option Qc) in
        let n := (if z_ok : bool then 1 else 0) + (if vol_ok : bool then 1 else 0)
                 + (if book_ok : bool then 1 else 0) in
        if bool_decide (n < MIN_CONFIRMATIONS_NEEDED cfg)
        then Ret (inl "Confirmations Failed")
        else Ret (inr (default 0%Qc imb))
  end.

(** Lines 186-188: what [check_execution_conditions] tests before it
    reaches [async with self.position_lock]; [true] when it goes on. *)
Definition execution_precheck (s : Sniper) (inst_id : string) : bool :=
  bool_decide (is_Some (armed_candidates s !! inst_id))
  && bool_decide (is_Some (pairs_data s !! inst_id ≫= pd_order_book)).

(** Lines 190-252: the body under the position lock, with its [except]
    branch (lines 253-255).  It holds no [await], so it runs in one piece.
    [now] is the clock read at line 193. *)
Definition execution_locked (cfg : Config) (s : Sniper) (inst_id : string)
    (now : Qc) : Sniper * ScanOutcome :=
  match active_position s with
  | Some _ => (s, Skipped)
  | None =>
      match armed_candidates s !! inst_id with
      | None => (s, Skipped)
      | Some candidate =>
          if qlt (ARMED_CANDIDATE_TIMEOUT_SEC cfg) (now - cand_time candidate)
          then (set_armed_candidates (delete inst_id) s,
                Rejected "Execution" "Stale Candidate")
          else
            let '(rm, (can, reason)) :=
              RiskManager.can_open_position cfg (risk_manager s) (Some inst_id) 0 now in
            let s1 := set_risk_manager rm s in
            if negb can then (s1, Rejected "Execution" "Risk")
            else
              match confirmations cfg s1 inst_id with
              | Raise e => (set_armed_candidates (delete inst_id) s1, Faulted e)
              | Ret (inl reason) => (s1, Rejected "Execution" reason)
              | Ret (inr imb) =>
                  (set_armed_candidates (delete inst_id) s1,
                   Promoted (with_imbalance imb candidate))
              end
      end
  end.

End confirmation.

(** ** Tasks on the event loop

    All coroutines run on one cooperative scheduler: a task runs until it
    awaits, and any other task may run then.  A task is kept here with the
    point at which it is suspended. *)

(** Where [enter_position] (lines 337-365) is suspended. *)
Inductive EnterPc : Type :=
  | EnterQueued                           (* at [async with self.position_lock] *)
  | EnterAwaitBalance                     (* in [await update_balance()], lock held *)
  | EnterAwaitOrder (size_base : Qc) (entry_cl_ord_id : string).
                                          (* in [await place_order_with_tpsl(..)], lock held *)

Inductive Task : Type :=
  | TSetup (inst_id : string)             (* [check_setup_conditions], not yet run *)
  | TExec (inst_id : string) (at_lock : bool)
                                          (* [check_execution_conditions]: not yet run,
                                             or parked at the position lock *)
  | TEnter (inst_id : string) (signal : Candidate) (pc : EnterPc)
  | TMaintain (holding : bool).           (* a pass of [monitor_position] or an order
                                             update in [handle_account_update]: parked
                                             at the position lock, or inside it *)

(** Whether a suspended task holds the position lock. *)
Definition holding (t : Task) : bool :=
  match t with
  | TEnter _ _ EnterQueued => false
  | TEnter _ _ _ => true
  | TMaintain h => h
  | _ => false
  end.

Definition enter_obj (t : Task) : option nat :=
  match t with
  | TEnter _ c _ => Some (cand_obj c)
  | _ => None
  end.

Definition spawned_task (sp : Spawned) : Task :=
  match sp with
  | SetupScan i => TSetup i
  | ExecScan i => TExec i false
  end.

(** The engine with its event loop.  [promoted] and [positions_alive] are
    history: the candidates handed to [enter_position] so far, oldest first,
    and the number of positions created and not discarded since. *)
Record World : Type := mkWorld {
  sniper : Sniper;
  position_lock : bool;                   (* [self.position_lock.locked()] *)
  tasks : list Task;
  promoted : list nat;
  positions_alive : nat
}.

Definition new_world : World :=
  {| sniper := new_sniper; position_lock := false; tasks := [];
     promoted := []; positions_alive := 0 |}.

(** What [await self.order_manager.update_balance()] comes back with: the
    available balance it read (or none), or an exception. *)
Inductive BalanceOutcome : Type :=
  | BalanceReturned (avail : option Qc)
  | BalanceRaised (e : PyExn).

(** Modelled from the spec: [place_order_with_tpsl], which [enter_position]
    awaits at line 349 and [order_manager.py] does not define.  The
    specification gives the entry submission the result (order_id, algo_id |
    error), the triple that the call site unpacks; that triple, or an
    exception, is an input here.  (On the class as it stands the attribute
    lookup itself raises [AttributeError].) *)
Inductive OrderOutcome : Type :=
  | OrderReturned (entry_ord_id attach_algo_id error : option string)
  | OrderRaised (e : PyExn).

(** The position dict of lines 358-363. *)
Definition pending_position (inst_id : string) (signal : Candidate)
    (entry_ord_id attach_algo_id : option string) (entry_cl_ord_id : string)
    (now : Qc) : Position :=
  {| pos_inst_id := inst_id; pos_state := PENDING_ENTRY;
     pos_entry_order_id := entry_ord_id; pos_clOrdId := entry_cl_ord_id;
     pos_attach_algo_id := attach_algo_id; pos_tp_price := cand_tp signal;
     pos_sl_price := cand_sl signal; pos_tp_bps := cand_tp_bps signal;
     pos_sl_bps := cand_sl_bps signal; pos_atr := cand_atr signal;
     pos_rr := cand_rr signal; pos_time := now;
     pos_entry_price := None; pos_entry_size := None; pos_entry_fee := None;
     pos_peak_price := None; pos_trailing_active := false; pos_current := None;
     pos_exit_order_id := None; pos_exit_price := None; pos_exit_fee := None;
     pos_exit_type := None; pos_origin := cand_obj signal |}.

(** One step of the system: a message arrives, or the scheduler resumes the
    task at index [k] with what it was waiting for.

    [Maintain*] stand for the other users of the position lock:
    [monitor_position] (lines 372-418, with [force_close_position]) and the
    order updates of [handle_account_update] (lines 303-335, with
    [finalize_trade]).  Inside the lock they update the position dict in
    place or set [active_position = None], record the trade with the risk
    manager and rewrite [pairs_data]; none of them assigns a new position or
    touches the candidate table.  They may await while inside, and may never
    leave. *)
Inductive Action : Type :=
  | OnBbo (inst_id : string) (bbo_data_list : list Bbo) (now : Qc)
  | OnTrades (inst_id : string) (trades : list Trade)
  | OnBalance (new_bal : Qc)              (* account update, no lock taken *)
  | OnMaintenance                         (* the monitor wakes / an order update arrives *)
  | RunSetup (k : nat) (now : Qc)
  | RunExec (k : nat) (now : Qc)
  | RunEnterAcquire (k : nat)
  | RunEnterBalance (k : nat) (r : BalanceOutcome) (entry_cl_ord_id : string)
  | RunEnterOrder (k : nat) (r : OrderOutcome) (now : Qc)
  | RunMaintainAcquire (k : nat)
  | RunMaintainMutate (k : nat) (upd : Position → option Position)
      (rm : RiskManager.t) (pd : gmap string PairData)
  | RunMaintainRelease (k : nat).

Definition with_sniper (s : Sniper) (w : World) : World :=
  {| sniper := s; position_lock := position_lock w; tasks := tasks w;
     promoted := promoted w; positions_alive := positions_alive w |}.

Definition with_tasks (ts : list Task) (w : World) : World :=
  {| sniper := sniper w; position_lock := position_lock w; tasks := ts;
     promoted := promoted w; positions_alive := positions_alive w |}.

Definition with_lock (b : bool) (w : World) : World :=
  {| sniper := sniper w; position_lock := b; tasks := tasks w;
     promoted := promoted w; positions_alive := positions_alive w |}.

Definition with_promoted (l : list nat) (w : World) : World :=
  {| sniper := sniper w; position_lock := position_lock w; tasks := tasks w;
     promoted := l; positions_alive := positions_alive w |}.

(** The task at index [k] ends. *)
Definition finish (k : nat) (w : World) : World := with_tasks (delete k (tasks w)) w.

(** The task at index [k] leaves the [async with] block and ends. *)
Definition release_and_finish (k : nat) (w : World) : World :=
  with_lock false (finish k w).

Section engine.

Variable cfg : Config.
Variable float_pow : Qc → Qc → Qc.
Variable math_log : Qc → Py Qc.

(** [enter_position], resumed at [async with self.position_lock] (lines
    338-341): it takes the free lock, and leaves at once when a position is
    active. *)
Definition enter_acquire (k : nat) (inst_id : string) (signal : Candidate)
    (w : World) : option World :=
  if position_lock w then None
  else
    match active_position (sniper w) with
    | Some _ => Some (finish k w)
    | None =>
        Some (with_lock true
                (with_tasks (<[k := TEnter inst_id signal EnterAwaitBalance]> (tasks w)) w))
    end.

(** Lines 341-349: back from [update_balance], up to the entry call. *)
Definition enter_balance (k : nat) (inst_id : string) (signal : Candidate)
    (r : BalanceOutcome) (entry_cl_ord_id : string) (w : World) : World :=
  match r with
  | BalanceRaised _ => release_and_finish k w
  | BalanceReturned avail =>
      let s := set_usdt_balance (default (usdt_balance (sniper w)) avail) (sniper w) in
      let w1 := with_sniper s w in
      if qlt (usdt_balance s) (BASE_ORDER_NOTIONAL_USDT cfg)
      then release_and_finish k w1
      else
        match py_truediv (BASE_ORDER_NOTIONAL_USDT cfg) (cand_entry_price signal) with
        | Raise _ => release_and_finish k w1
        | Ret size_base =>
            with_tasks
              (<[k := TEnter inst_id signal (EnterAwaitOrder size_base entry_cl_ord_id)]>
                 (tasks w1)) w1
        end
  end.

(** Lines 349-365: back from the entry call. *)
Definition enter_order (k : nat) (inst_id : string) (signal : Candidate)
    (entry_cl_ord_id : string) (r : OrderOutcome) (now : Qc) (w : World) : World :=
  match r with
  | OrderRaised _ => release_and_finish k w
  | OrderReturned entry_ord_id attach_algo_id error =>
      if truthy_str error then release_and_finish k w
      else
        let pos := pending_position inst_id signal entry_ord_id attach_algo_id
                     entry_cl_ord_id now in
        release_and_finish k
          {| sniper := set_active_position (Some pos) (sniper w);
             position_lock := position_lock w; tasks := tasks w;
             promoted := promoted w;
             positions_alive := S (positions_alive w) |}
  end.

(** [check_execution_conditions]: first up to the lock, then, the lock being
    free, through its body; a promoted candidate is handed to a new
    [enter_position] task. *)
Definition exec_scan (k : nat) (inst_id : string) (at_lock : bool) (now : Qc)
    (w : World) : option World :=
  if at_lock then
    if position_lock w then None
    else
      let '(s, out) := execution_locked float_pow math_log cfg (sniper w) inst_id now in
      let w1 := finish k (with_sniper s w) in
      match out with
      | Promoted signal =>
          Some (with_promoted (promoted w1 ++ [cand_obj signal])
                  (with_tasks (tasks w1 ++ [TEnter inst_id signal EnterQueued]) w1))
      | _ => Some w1
      end
  else if execution_precheck (sniper w) inst_id
  then Some (with_tasks (<[k := TExec inst_id true]> (tasks w)) w)
  else Some (finish k w).

(** A mutation made inside the lock by the monitor or by an order update. *)
Definition maintain_mutate (upd : Position → option Position) (rm : RiskManager.t)
    (pd : gmap string PairData) (w : World) : World :=
  let after := active_position (sniper w) ≫= upd in
  {| sniper :=
       set_active_position after
         (set_risk_manager rm (set_pairs_data (λ _, pd) (sniper w)));
     position_lock := position_lock w; tasks := tasks w; promoted := promoted w;
     positions_alive :=
       match active_position (sniper w), after with
       | Some _, None => pred (positions_alive w)
       | _, _ => positions_alive w
       end |}.

Definition step (w : World) (a : Action) : option World :=
  match a with
  | OnBbo inst_id bbo_data_list now =>
      let '(s, r) := handle_bbo_data cfg (sniper w) inst_id bbo_data_list now in
      let spawned := match r with Ret l => l | Raise _ => [] end in
      Some (with_tasks (tasks w ++ (spawned_task <$> spawned)) (with_sniper s w))
  | OnTrades inst_id trades =>
      Some (with_sniper (handle_trade_data cfg (sniper w) inst_id trades) w)
  | OnBalance new_bal =>
      Some (with_sniper (set_usdt_balance new_bal (sniper w)) w)
  | OnMaintenance =>
      Some (with_tasks (tasks w ++ [TMaintain false]) w)
  | RunSetup k now =>
      match tasks w !! k with
      | Some (TSetup inst_id) =>
          Some (finish k (with_sniper (check_setup_conditions cfg (sniper w) inst_id now).1 w))
      | _ => None
      end
  | RunExec k now =>
      match tasks w !! k with
      | Some (TExec inst_id at_lock) => exec_scan k inst_id at_lock now w
      | _ => None
      end
  | RunEnterAcquire k =>
      match tasks w !! k with
      | Some (TEnter inst_id signal EnterQueued) => enter_acquire k inst_id signal w
      | _ => None
      end
  | RunEnterBalance k r entry_cl_ord_id =>
      match tasks w !! k with
      | Some (TEnter inst_id signal EnterAwaitBalance) =>
          Some (enter_balance k inst_id signal r entry_cl_ord_id w)
      | _ => None
      end
  | RunEnterOrder k r now =>
      match tasks w !! k with
      | Some (TEnter inst_id signal (EnterAwaitOrder _ entry_cl_ord_id)) =>
          Some (enter_order k inst_id signal entry_cl_ord_id r now w)
      | _ => None
      end
  | RunMaintainAcquire k =>
      match tasks w !! k with
      | Some (TMaintain false) =>
          if position_lock w then None
          else Some (with_lock true (with_tasks (<[k := TMaintain true]> (tasks w)) w))
      | _ => None
      end
  | RunMaintainMutate k upd rm pd =>
      match tasks w !! k with
      | Some (TMaintain true) => Some (maintain_mutate upd rm pd w)
      | _ => None
      end
  | RunMaintainRelease k =>
      match tasks w !! k with
      | Some (TMaintain true) => Some (release_and_finish k w)
      | _ => None
      end
  end.

(** A schedule is run from left to right; [None] when one of its steps is
    not enabled. *)
Fixpoint run (w : World) (schedule : list Action) : option World :=
  match schedule with
  | [] => Some w
  | a :: rest => w' ← step w a; run w' rest
  end.

End engine.

(** ** A worked schedule

    A configuration with short windows, so that three top-of-book updates
    per instrument close two bars, and a schedule in which two instruments
    break out, are both confirmed before either entry has run, and then
    compete for the position. *)
Definition short_config : Config := {|
  BAR_SAMPLING_SEC := qc 1 1;
  BAR_HISTORY_MAX := 400;
  MIN_CANDLES_FOR_ENTRY := 2;
  LOOKBACK_CANDLES := 2;
  MIN_BREAKOUT_STRENGTH_BPS := qc 15 10;
  BREAKOUT_DEAD_ZONE_BPS := qc 0 1;
  ATR_PERIOD := 1;
  MIN_ATR_BPS := qc 5 1;
  REQUIRE_EMA_CROSS := false;
  EMA_FAST := 5;
  EMA_SLOW := 13;
  MIN_CONFIRMATIONS_NEEDED := 1;
  ARMED_CANDIDATE_TIMEOUT_SEC := qc 20 1;
  ZSCORE_WINDOW := 15;
  ZSCORE_THRESHOLD := qc 10 100;
  VOLUME_AVG_WINDOW := 30;
  VOLUME_SPIKE_WINDOW := 3;
  VOLUME_SPIKE_MULTIPLIER := qc 11 10;
  MIN_IMBALANCE := qc 105 100;
  MAX_IMBALANCE := qc 20 1;
  MIN_BID_DEPTH_USDT := qc 400 1;
  MAX_SPREAD_PCT := qc 35 100;
  FEE_TAKER_BPS := qc 10 1;
  MAX_SLIPPAGE_BPS := qc 5 1;
  TP_ATR_MULTIPLIER := qc 4 1;
  SL_ATR_MULTIPLIER := qc 2 1;
  MIN_TP_BPS := qc 20 1;
  MAX_TP_BPS := qc 80 1;
  MIN_SL_BPS := qc 15 1;
  MAX_SL_BPS := qc 60 1;
  MIN_RISK_REWARD_RATIO := qc 2 10;
  ENABLE_TRAILING_STOP := true;
  TRAILING_ACTIVATION_BPS := qc 15 1;
  TRAILING_DISTANCE_ATR_MULTIPLIER := qc 1 1;
  TRAILING_DISTANCE_MIN_BPS := qc 10 1;
  MAX_POSITION_HOLD_SECONDS := qc 120 1;
  BASE_ORDER_NOTIONAL_USDT := qc 20 1;
  MAX_CONCURRENT_TRADES := 1;
  MAX_CONSECUTIVE_LOSSES := 5;
  MAX_DAILY_LOSS := qc 30 1;
  COOL_DOWN_AFTER_EXIT_SEC := qc 2 1;
  COOL_DOWN_AFTER_LOSS_SEC := qc 8 1;
  MAX_TRADES_PER_PAIR_PER_HOUR := 8
|}.

(** A quote around [mid], a tenth wide, with twice the size on the bid. *)
Definition quote (mid : Qc) : Bbo :=
  {| bbo_bids := Some [[(mid - qc 5 100)%Qc; qc 10 1]];
     bbo_asks := Some [[(mid + qc 5 100)%Qc; qc 5 1]] |}.

Definition no_pow : Qc → Qc → Qc := λ _ _, 0%Qc.
Definition no_log : Qc → Py Qc := λ _, Raise ValueError.

Definition example_schedule : list Action :=
  [ OnBbo "BTC-USDT" [quote (qc 99 1)] (qc 5 10);
    OnBbo "BTC-USDT" [quote (qc 100 1)] (qc 15 10);
    OnBbo "BTC-USDT" [quote (qc 100 1)] (qc 25 10);
    OnBbo "ETH-USDT" [quote (qc 49 1)] (qc 6 10);
    OnBbo "ETH-USDT" [quote (qc 50 1)] (qc 16 10);
    OnBbo "ETH-USDT" [quote (qc 50 1)] (qc 26 10);
    (* the newest setup scan of each instrument arms a candidate *)
    RunSetup 4 (qc 27 10);
    RunSetup 9 (qc 27 10);
    (* both confirmation scans pass before any entry has run *)
    RunExec 4 (qc 28 10); RunExec 4 (qc 28 10);
    RunExec 8 (qc 28 10); RunExec 8 (qc 28 10);
    (* an older confirmation scan of the first instrument finds nothing *)
    RunExec 3 (qc 29 10);
    (* the first entry takes the lock and keeps it across both awaits *)
    RunEnterAcquire 7;
    RunEnterBalance 7 (BalanceReturned (Some (qc 100 1))) "MS86BTC1";
    OnMaintenance;
    RunEnterOrder 7 (OrderReturned (Some "1001") (Some "2001") None) (qc 3 1);
    (* the second entry finds the position and gives up *)
    RunEnterAcquire 7 ].

(** ** Invariants

    The predicates that the proofs below carry through the runs of the
    aggregator and of the event loop. *)

(** What a closed bar records about the ticks [ks] seen so far: its close is
    the price of a tick of its own bucket that is directly followed by a
    tick of a later bucket. *)
Definition closed_from (period : Qc) (ks : list BarAggregator.Tick)
    (b : BarAggregator.Bar) : Prop :=
  ∃ pre k nxt post,
    ks = pre ++ k :: nxt :: post ∧
    BarAggregator.tick_bucket period k = BarAggregator.bar_start b ∧
    BarAggregator.tick_price k = BarAggregator.bar_close b ∧
    (BarAggregator.bar_start b < BarAggregator.tick_bucket period nxt)%Qc.

Definition open_from (period : Qc) (ks : list BarAggregator.Tick)
    (a : BarAggregator.t) : Prop :=
  match BarAggregator.current_bar a with
  | None => ks = [] ∧ BarAggregator.bars a = []
  | Some (s, _, _, _, c) =>
      s = BarAggregator.current_bar_start a ∧
      ∃ pre k, ks = pre ++ [k]
               ∧ BarAggregator.tick_bucket period k = s
               ∧ BarAggregator.tick_price k = c
  end.

Record series_inv (period : Qc) (capacity : nat) (ks : list BarAggregator.Tick)
    (a : BarAggregator.t) : Prop := {
  inv_period : BarAggregator.bar_period a = period;
  inv_capacity : BarAggregator.max_bars a = capacity;
  inv_length : length (BarAggregator.bars a) ≤ capacity;
  inv_sorted : StronglySorted Qclt (BarAggregator.bar_start <$> BarAggregator.bars a);
  inv_below :
    Forall (λ b, (BarAggregator.bar_start b < BarAggregator.current_bar_start a)%Qc)
           (BarAggregator.bars a);
  inv_open : open_from period ks a;
  inv_closed : Forall (closed_from period ks) (BarAggregator.bars a)
}.

(** The bar series in the words of the specification.  Consecutive ticks
    that fall in one time bucket form a run; every run but the newest is a
    closed bar, which opens at the first price of the run and closes at its
    last; the series keeps the newest [capacity] closed bars. *)

(** The runs, newest first: a run is its first tick and the ticks that
    follow it in its bucket. *)
Definition push_tick (period : Qc) (runs : list (BarAggregator.Tick * list BarAggregator.Tick))
    (k : BarAggregator.Tick) : list (BarAggregator.Tick * list BarAggregator.Tick) :=
  match runs with
  | (k0, run) :: older =>
      if decide (BarAggregator.tick_bucket period k = BarAggregator.tick_bucket period k0)
      then (k0, run ++ [k]) :: older
      else (k, []) :: runs
  | [] => [(k, [])]
  end.

Definition runs_of_ticks (period : Qc) (ks : list BarAggregator.Tick)
    : list (BarAggregator.Tick * list BarAggregator.Tick) :=
  foldl (push_tick period) [] ks.

Definition bar_of_run (period : Qc)
    (r : BarAggregator.Tick * list BarAggregator.Tick) : BarAggregator.Bar :=
  BarAggregator.mkBar
    (BarAggregator.tick_bucket period r.1)
    (BarAggregator.tick_price r.1)
    (foldl py_max (BarAggregator.tick_price r.1) (BarAggregator.tick_price <$> r.2))
    (foldl py_min (BarAggregator.tick_price r.1) (BarAggregator.tick_price <$> r.2))
    (List.last (BarAggregator.tick_price <$> r.2) (BarAggregator.tick_price r.1))
    (py_sum (filter (λ v, (0 < v)%Qc) (BarAggregator.tick_volume <$> r.1 :: r.2))).

Definition bars_as_specified (period : Qc) (capacity : nat)
    (ks : list BarAggregator.Tick) : list BarAggregator.Bar :=
  last_n capacity (reverse (bar_of_run period <$> tail (runs_of_ticks period ks))).

(** The aggregator after the ticks [ks], told from their runs. *)
Definition runs_inv (period : Qc) (capacity : nat) (ks : list BarAggregator.Tick)
    (a : BarAggregator.t) : Prop :=
  match runs_of_ticks period ks with
  | [] => ks = [] ∧ a = BarAggregator.init period capacity
  | r :: older =>
      r.1 ∈ ks
      ∧ a = {| BarAggregator.bar_period := period;
               BarAggregator.max_bars := capacity;
               BarAggregator.bars :=
                 last_n capacity (reverse (bar_of_run period <$> older));
               BarAggregator.current_bar :=
                 Some (BarAggregator.bar_start (bar_of_run period r),
                       BarAggregator.bar_open (bar_of_run period r),
                       BarAggregator.bar_high (bar_of_run period r),
                       BarAggregator.bar_low (bar_of_run period r),
                       BarAggregator.bar_close (bar_of_run period r));
               BarAggregator.current_bar_start := BarAggregator.tick_bucket period r.1;
               BarAggregator.trade_volumes :=
                 filter (λ v, (0 < v)%Qc) (BarAggregator.tick_volume <$> r.1 :: r.2) |}
  end.

(** The tasks that are inside the position lock. *)
Definition holders (ts : list Task) : nat :=
  sum_list_with (λ t, if holding t then 1 else 0) ts.

(** An entry task that is inside the lock sees no position. *)
Definition entering_ok (pos : option Position) (t : Task) : Prop :=
  holding t = true → is_Some (enter_obj t) → pos = None.

Record lock_inv (w : World) : Prop := {
  li_alive : positions_alive w
             = match active_position (sniper w) with Some _ => 1 | None => 0 end;
  li_holders : holders (tasks w) = (if position_lock w then 1 else 0);
  li_entering : Forall (entering_ok (active_position (sniper w))) (tasks w)
}.

Abbreviation armed w := (armed_candidates (sniper w)).



(** ** Predicates used by the further properties *)

(** Low, open, close and high of a bar are in order. *)
Definition ohlc_ordered (o h l c : Qc) : Prop :=
  (l ≤ o)%Qc ∧ (o ≤ h)%Qc ∧ (l ≤ c)%Qc ∧ (c ≤ h)%Qc.

Definition bar_ordered (b : BarAggregator.Bar) : Prop :=
  ohlc_ordered (BarAggregator.bar_open b) (BarAggregator.bar_high b)
               (BarAggregator.bar_low b) (BarAggregator.bar_close b).

Definition aggregator_ordered (a : BarAggregator.t) : Prop :=
  Forall bar_ordered (BarAggregator.bars a)
  ∧ match BarAggregator.current_bar a with
    | Some (_, o, h, l, c) => ohlc_ordered o h l c
    | None => True
    end.

(** A recorded trade: the arguments of one [record_trade] call and the three
    readings of the clock it makes. *)
Record Recorded : Type := mkRecorded {
  rec_inst : string;
  rec_pnl : Qc;
  rec_now_trade : Qc;
  rec_now_window : Qc;
  rec_now_loss : Qc
}.

(** Successive [record_trade] calls. *)
Definition record_trades (rm : RiskManager.t) (trs : list Recorded) : RiskManager.t :=
  foldl (λ rm r, RiskManager.record_trade rm (rec_inst r) (rec_pnl r)
                   (rec_now_trade r) (rec_now_window r) (rec_now_loss r))
        rm trs.

(** The window entries that the trades [trs] add for instrument [i]. *)
Definition window_times (i : string) (trs : list Recorded) : list Qc :=
  rec_now_window <$> filter (λ r, rec_inst r = i) trs.

(** A manager on which the daily-loss cap has tripped. *)
Definition daily_loss_hit : RiskManager.t :=
  RiskManager.record_trade RiskManager.init "BTC-USDT" (- qc 60 1)
    (qc 100 1) (qc 100 1) (qc 100 1).

(** A configuration with the dead zone switched on ([config.py] ships it
    at zero). *)
Definition with_dead_zone (dead_zone_bps : Qc) (cfg : Config) : Config :=
  {|
     BAR_SAMPLING_SEC := BAR_SAMPLING_SEC cfg;
     BAR_HISTORY_MAX := BAR_HISTORY_MAX cfg;
     MIN_CANDLES_FOR_ENTRY := MIN_CANDLES_FOR_ENTRY cfg;
     LOOKBACK_CANDLES := LOOKBACK_CANDLES cfg;
     MIN_BREAKOUT_STRENGTH_BPS := MIN_BREAKOUT_STRENGTH_BPS cfg;
     BREAKOUT_DEAD_ZONE_BPS := dead_zone_bps;
     ATR_PERIOD := ATR_PERIOD cfg;
     MIN_ATR_BPS := MIN_ATR_BPS cfg;
     REQUIRE_EMA_CROSS := REQUIRE_EMA_CROSS cfg;
     EMA_FAST := EMA_FAST cfg;
     EMA_SLOW := EMA_SLOW cfg;
     MIN_CONFIRMATIONS_NEEDED := MIN_CONFIRMATIONS_NEEDED cfg;
     ARMED_CANDIDATE_TIMEOUT_SEC := ARMED_CANDIDATE_TIMEOUT_SEC cfg;
     ZSCORE_WINDOW := ZSCORE_WINDOW cfg;
     ZSCORE_THRESHOLD := ZSCORE_THRESHOLD cfg;
     VOLUME_AVG_WINDOW := VOLUME_AVG_WINDOW cfg;
     VOLUME_SPIKE_WINDOW := VOLUME_SPIKE_WINDOW cfg;
     VOLUME_SPIKE_MULTIPLIER := VOLUME_SPIKE_MULTIPLIER cfg;
     MIN_IMBALANCE := MIN_IMBALANCE cfg;
     MAX_IMBALANCE := MAX_IMBALANCE cfg;
     MIN_BID_DEPTH_USDT := MIN_BID_DEPTH_USDT cfg;
     MAX_SPREAD_PCT := MAX_SPREAD_PCT cfg;
     FEE_TAKER_BPS := FEE_TAKER_BPS cfg;
     MAX_SLIPPAGE_BPS := MAX_SLIPPAGE_BPS cfg;
     TP_ATR_MULTIPLIER := TP_ATR_MULTIPLIER cfg;
     SL_ATR_MULTIPLIER := SL_ATR_MULTIPLIER cfg;
     MIN_TP_BPS := MIN_TP_BPS cfg;
     MAX_TP_BPS := MAX_TP_BPS cfg;
     MIN_SL_BPS := MIN_SL_BPS cfg;
     MAX_SL_BPS := MAX_SL_BPS cfg;
     MIN_RISK_REWARD_RATIO := MIN_RISK_REWARD_RATIO cfg;
     ENABLE_TRAILING_STOP := ENABLE_TRAILING_STOP cfg;
     TRAILING_ACTIVATION_BPS := TRAILING_ACTIVATION_BPS cfg;
     TRAILING_DISTANCE_ATR_MULTIPLIER := TRAILING_DISTANCE_ATR_MULTIPLIER cfg;
     TRAILING_DISTANCE_MIN_BPS := TRAILING_DISTANCE_MIN_BPS cfg;
     MAX_POSITION_HOLD_SECONDS := MAX_POSITION_HOLD_SECONDS cfg;
     BASE_ORDER_NOTIONAL_USDT := BASE_ORDER_NOTIONAL_USDT cfg;
     MAX_CONCURRENT_TRADES := MAX_CONCURRENT_TRADES cfg;
     MAX_CONSECUTIVE_LOSSES := MAX_CONSECUTIVE_LOSSES cfg;
     MAX_DAILY_LOSS := MAX_DAILY_LOSS cfg;
     COOL_DOWN_AFTER_EXIT_SEC := COOL_DOWN_AFTER_EXIT_SEC cfg;
     COOL_DOWN_AFTER_LOSS_SEC := COOL_DOWN_AFTER_LOSS_SEC cfg;
     MAX_TRADES_PER_PAIR_PER_HOUR := MAX_TRADES_PER_PAIR_PER_HOUR cfg |}.

(** The armed engine of the setup example with a quote stored for the
    instrument: a tenth wide around 100, with twice the size on the bid. *)
Definition armed_quoted_sniper : Sniper :=
  store_snapshot "BTC-USDT" (qc 9995 100) (qc 10005 100)
    [[qc 9995 100; qc 10 1]] [[qc 10005 100; qc 5 1]]
    (check_setup_conditions config example_sniper "BTC-USDT" (qc 15 1)).1.

(** A stand-in for [math.log] that is defined everywhere. *)
Definition flat_log : Qc → Py Qc := λ _, Ret 0%Qc.

(** The tick a trade print contributes: none unless its price is a positive
    number and its size a number. *)
Definition trade_tick (time_offset : Qc) (tr : Trade) : option BarAggregator.Tick :=
  match tr_px tr, tr_sz tr with
  | Some price, Some sz =>
      if qlt 0 price
      then Some (BarAggregator.mkTick (tr_now tr) time_offset price sz)
      else None
  | _, _ => None
  end.

(** ** Account updates and settlement ([strategy.py], lines 291-335, 447-470) *)

(** A value read from an exchange message: the key may be missing, and a
    value that is there may or may not read as a decimal number.
    [Text (Some q)] is a value that [Decimal] reads as the finite number
    [q]; [Text None] is one that it rejects ([None] and the empty string
    among them).  The numerals [NaN] and [Infinity], which [Decimal] reads
    as well, are outside this model. *)
Inductive Field : Type :=
  | Missing
  | Text (number : option Qc).

(** [safe_decimal(x)] on the value of a field that is there, and on [None]:
    what does not read as a number becomes zero. *)
Definition safe_decimal (f : Field) : Qc :=
  match f with
  | Text (Some q) => q
  | _ => 0%Qc
  end.

(** [update[key]] *)
Definition field_item (f : Field) : Py Field :=
  match f with
  | Missing => Raise KeyError
  | Text _ => Ret f
  end.

(** One entry of ["details"], which is taken to be a list;  [availBal],
    when it is there, is taken to read as a finite number. *)
Record Detail : Type := mkDetail {
  det_ccy : option string;
  det_availBal : option Qc
}.

(** One element of the payload of the [orders], [account] and [orders-algo]
    channels.  [upd_details] is [Some] when the key ["details"] is there. *)
Record AccountUpdate : Type := mkAccountUpdate {
  upd_details : option (list Detail);
  upd_instId : option string;
  upd_ordId : option string;
  upd_algoId : option string;
  upd_state : option string;
  upd_avgPx : Field;
  upd_accFillSz : Field;
  upd_fee : Field;
  upd_lastPx : Field
}.

(** The readings of the clock that handling one update may take: at the
    entry fill, and the three of [record_trade]. *)
Record Clocks : Type := mkClocks {
  clk_fill : Qc;
  clk_trade : Qc;
  clk_window : Qc;
  clk_loss : Qc
}.

(** Lines 310-314: [pos.update({"entry_price": .., "entry_size": ..,
    "entry_fee": .., "state": "OPEN", "time": .., "peak_price": ..})] *)
Definition with_entry_fill (px sz fee now : Qc) (p : Position) : Position :=
  {| pos_inst_id := pos_inst_id p; pos_state := OPEN;
     pos_entry_order_id := pos_entry_order_id p; pos_clOrdId := pos_clOrdId p;
     pos_attach_algo_id := pos_attach_algo_id p; pos_tp_price := pos_tp_price p;
     pos_sl_price := pos_sl_price p; pos_tp_bps := pos_tp_bps p;
     pos_sl_bps := pos_sl_bps p; pos_atr := pos_atr p; pos_rr := pos_rr p;
     pos_time := now; pos_entry_price := Some px;
     pos_entry_size := Some sz; pos_entry_fee := Some fee;
     pos_peak_price := Some px; pos_trailing_active := pos_trailing_active p;
     pos_current := pos_current p; pos_exit_order_id := pos_exit_order_id p;
     pos_exit_price := pos_exit_price p; pos_exit_fee := pos_exit_fee p;
     pos_exit_type := pos_exit_type p; pos_origin := pos_origin p |}.

(** Lines 328-332: [pos.update({"exit_price": .., "exit_fee":
    pos.get("exit_fee", 0) + exit_fee, "exit_type": pos.get("exit_type",
    "TP/SL_HIT")})] *)
Definition with_exit_fill (px fee : Qc) (p : Position) : Position :=
  {| pos_inst_id := pos_inst_id p; pos_state := pos_state p;
     pos_entry_order_id := pos_entry_order_id p; pos_clOrdId := pos_clOrdId p;
     pos_attach_algo_id := pos_attach_algo_id p; pos_tp_price := pos_tp_price p;
     pos_sl_price := pos_sl_price p; pos_tp_bps := pos_tp_bps p;
     pos_sl_bps := pos_sl_bps p; pos_atr := pos_atr p; pos_rr := pos_rr p;
     pos_time := pos_time p; pos_entry_price := pos_entry_price p;
     pos_entry_size := pos_entry_size p; pos_entry_fee := pos_entry_fee p;
     pos_peak_price := pos_peak_price p; pos_trailing_active := pos_trailing_active p;
     pos_current := pos_current p; pos_exit_order_id := pos_exit_order_id p;
     pos_exit_price := Some px;
     pos_exit_fee := Some (default 0%Qc (pos_exit_fee p) + fee)%Qc;
     pos_exit_type := Some (default "TP/SL_HIT" (pos_exit_type p));
     pos_origin := pos_origin p |}.

(** The profit that [finalize_trade] books (line 454). *)
Definition pnl_usdt (entry_price exit_price entry_size : Qc) (p : Position) : Qc :=
  ((exit_price - entry_price) * entry_size
   - (default 0%Qc (pos_entry_fee p) + default 0%Qc (pos_exit_fee p)))%Qc.

(** [finalize_trade()].  The three readings of the clock are those of
    [record_trade]; the one taken for [hold_sec] has no effect on the state
    (the time held is the difference of two clock readings, and within the
    range of the floats).
    The trade log and the display are telemetry.  The closing log line
    (line 463) reads [pos['exit_type']] after the trade is recorded and
    before the position is cleared. *)
Definition finalize_trade (s : Sniper) (clk : Clocks) : Sniper * Py unit :=
  match active_position s with
  | None => (set_active_position None s, Ret ())
  | Some pos =>
      match pos_entry_price pos, pos_exit_price pos with
      | Some entry_price, Some exit_price =>
          if bool_decide (entry_price = 0%Qc) || bool_decide (exit_price = 0%Qc)
          then (set_active_position None s, Ret ())
          else
            match pos_entry_size pos with
            | None => (s, Raise KeyError)                   (* pos["entry_size"] *)
            | Some entry_size =>
                let pnl := pnl_usdt entry_price exit_price entry_size pos in
                let s1 :=
                  set_risk_manager
                    (RiskManager.record_trade (risk_manager s) (pos_inst_id pos) pnl
                       (clk_trade clk) (clk_window clk) (clk_loss clk)) s in
                match pos_exit_type pos with
                | None => (s1, Raise KeyError)              (* pos['exit_type'] *)
                | Some _ =>
                    (pop_last_armed_high (pos_inst_id pos) (set_active_position None s1),
                     Ret ())
                end
            end
      | _, _ => (set_active_position None s, Ret ())
      end
  end.

(** Lines 294-299: the balance entries of an update that carries
    ["details"]. *)
Definition apply_details (ds : list Detail) (s : Sniper) : Sniper :=
  foldl (λ s d, if bool_decide (det_ccy d = Some "USDT")
                then set_usdt_balance (default 0%Qc (det_availBal d)) s
                else s)
        s ds.

(** Lines 303-335: an order update, inside the position lock. *)
Definition order_update (s : Sniper) (u : AccountUpdate) (clk : Clocks)
    : Sniper * Py unit :=
  match active_position s with
  | None => (s, Ret ())
  | Some pos =>
      if bool_decide (upd_instId u ≠ Some (pos_inst_id pos)) then (s, Ret ())
      else
        let filled := bool_decide (upd_state u = Some "filled") in
        let is_entry_fill :=
          bool_decide (upd_ordId u = pos_entry_order_id pos) && filled in
        let is_tpsl_fill :=
          truthy_str (pos_attach_algo_id pos)
          && bool_decide (upd_algoId u = pos_attach_algo_id pos) in
        let is_manual_exit_fill :=
          truthy_str (pos_exit_order_id pos)
          && bool_decide (upd_ordId u = pos_exit_order_id pos) && filled in
        if is_entry_fill && bool_decide (pos_state pos = PENDING_ENTRY) then
          match (avg ← field_item (upd_avgPx u);
                 sz ← field_item (upd_accFillSz u);
                 Ret (with_entry_fill (safe_decimal avg) (safe_decimal sz)
                        (Qcabs (safe_decimal (upd_fee u))) (clk_fill clk) pos)) with
          | Ret pos' => (set_active_position (Some pos') s, Ret ())
          | Raise e => (s, Raise e)
          end
        else if (is_tpsl_fill || is_manual_exit_fill)
                && bool_decide (pos_state pos = OPEN) then
          let exit_price :=
            if is_tpsl_fill then
              Ret (safe_decimal (match upd_lastPx u with
                                 | Missing => upd_avgPx u
                                 | present => present
                                 end))
            else safe_decimal <$> field_item (upd_avgPx u) in
          match exit_price with
          | Ret px =>
              finalize_trade
                (set_active_position
                   (Some (with_exit_fill px (Qcabs (safe_decimal (upd_fee u))) pos)) s)
                clk
          | Raise e => (s, Raise e)
          end
        else (s, Ret ())
  end.

(** [handle_account_update(data)], entered with the position lock free.
    Nothing in it suspends then, so the updates are handled back to back; an
    exception ends the call with the updates before it applied. *)
Fixpoint handle_account_update (s : Sniper) (data : list (AccountUpdate * Clocks))
    : Sniper * Py unit :=
  match data with
  | [] => (s, Ret ())
  | (u, clk) :: rest =>
      match upd_details u with
      | Some ds => handle_account_update (apply_details ds s) rest
      | None =>
          match order_update s u clk with
          | (s', Ret _) => handle_account_update s' rest
          | (s', Raise e) => (s', Raise e)
          end
      end
  end.

(** A fill of the entry order [1001] of the pending example position, and a
    hit of its attached order [2001]. *)
Definition entry_fill_update : AccountUpdate :=
  {| upd_details := None; upd_instId := Some "BTC-USDT"; upd_ordId := Some "1001";
     upd_algoId := None; upd_state := Some "filled";
     upd_avgPx := Text (Some (qc 100 1)); upd_accFillSz := Text (Some (qc 2 1));
     upd_fee := Text (Some (- qc 1 10)); upd_lastPx := Missing |}.

Definition tpsl_hit_update : AccountUpdate :=
  {| upd_details := None; upd_instId := Some "BTC-USDT"; upd_ordId := Some "3001";
     upd_algoId := Some "2001"; upd_state := Some "effective";
     upd_avgPx := Missing; upd_accFillSz := Missing;
     upd_fee := Text (Some (- qc 1 10)); upd_lastPx := Text (Some (qc 101 1)) |}.

(** A signal for an entry at 100, and the engine right after
    [enter_position] has placed its order [1001] with the attached order
    [2001]; then the same engine once the entry fill has arrived. *)
Definition example_signal : Candidate :=
  {| cand_obj := 0; cand_entry_price := qc 100 1; cand_tp := qc 1008 10;
     cand_sl := qc 994 10; cand_tp_bps := qc 80 1; cand_sl_bps := qc 60 1;
     cand_atr := qc 1 1; cand_breakout_strength := qc 101 1; cand_rr := qc 77 43;
     cand_time := qc 15 1; cand_imbalance := Some (qc 2 1) |}.

Definition example_clocks : Clocks :=
  {| clk_fill := qc 17 1; clk_trade := qc 60 1; clk_window := qc 60 1;
     clk_loss := qc 60 1 |}.

Definition example_pending_sniper : Sniper :=
  set_active_position
    (Some (pending_position "BTC-USDT" example_signal (Some "1001") (Some "2001")
             "MS86BTC1" (qc 16 1)))
    new_sniper.

Definition example_filled_sniper : Sniper :=
  (order_update example_pending_sniper entry_fill_update example_clocks).1.

(** The fill of a market exit order, as the [orders] channel reports it. *)
Definition exit_fill_update : AccountUpdate :=
  {| upd_details := None; upd_instId := Some "BTC-USDT"; upd_ordId := Some "4001";
     upd_algoId := None; upd_state := Some "filled";
     upd_avgPx := Text (Some (qc 101 1)); upd_accFillSz := Text (Some (qc 2 10));
     upd_fee := Text (Some (- qc 1 10)); upd_lastPx := Missing |}.



(** * Properties *)

(** ** Numbers *)

Lemma py_int_nonneg (x : Qc) : (0 ≤ x)%Qc → py_int x = Qfloor x.
Proof.
  intros Hx. unfold py_int. destruct x as [[n d] Hc]. simpl in *.
  apply Z.quot_div_nonneg; [| lia].
  unfold Qcle, Qle in Hx. simpl in Hx. lia.
Qed.

Lemma py_int_neg (x : Qc) : (x < 0)%Qc → py_int x = Qceiling x.
Proof.
  intros Hx. unfold py_int, Qceiling, Qfloor. destruct x as [[n d] Hc]. simpl in *.
  unfold Qclt, Qlt in Hx. simpl in Hx.
  rewrite <- (Z.opp_involutive n) at 1. rewrite Z.quot_opp_l by lia.
  f_equal. apply Z.quot_div_nonneg; lia.
Qed.

Lemma py_int_mono (x y : Qc) : (x ≤ y)%Qc → (py_int x ≤ py_int y)%Z.
Proof.
  intros Hxy.
  destruct (Qclt_le_dec x 0) as [Hx | Hx]; destruct (Qclt_le_dec y 0) as [Hy | Hy].
  - rewrite !py_int_neg by done. by apply Qceiling_resp_le.
  - rewrite py_int_neg, py_int_nonneg by done.
    trans 0%Z.
    + change 0%Z with (Qceiling 0). apply Qceiling_resp_le.
      apply Qlt_le_weak, Hx.
    + change 0%Z with (Qfloor 0). by apply Qfloor_resp_le.
  - exfalso. apply (Qclt_not_le _ _ Hy). by trans x.
  - rewrite !py_int_nonneg by done. by apply Qfloor_resp_le.
Qed.

Lemma Qcdiv_le_mono_pos (x y p : Qc) : (0 < p)%Qc → (x ≤ y)%Qc → (x / p ≤ y / p)%Qc.
Proof.
  intros Hp Hxy. apply (Qcmult_lt_0_le_reg_r _ _ p Hp).
  assert (p ≠ 0%Qc) as Hne by (intros ->; by apply (Qclt_not_eq _ _ Hp)).
  unfold Qcdiv. rewrite <- !Qcmult_assoc, !Qcmult_inv_l, !Qcmult_1_r by done. done.
Qed.

Lemma qlt_true (a b : Qc) : qlt a b = true ↔ (a < b)%Qc.
Proof. unfold qlt. apply bool_decide_eq_true. Qed.

Lemma qlt_false (a b : Qc) : qlt a b = false ↔ (b ≤ a)%Qc.
Proof. unfold qlt. rewrite bool_decide_eq_false. symmetry. apply Qcle_ngt. Qed.

Lemma last_n_length {A} (n : nat) (xs : list A) : length (last_n n xs) ≤ n.
Proof. unfold last_n. rewrite length_drop. lia. Qed.

Lemma last_n_fmap {A B} (f : A → B) (n : nat) (xs : list A) :
  f <$> last_n n xs = last_n n (f <$> xs).
Proof. unfold last_n. by rewrite fmap_drop, length_fmap. Qed.

Lemma last_n_Forall {A} (P : A → Prop) (n : nat) (xs : list A) :
  Forall P xs → Forall P (last_n n xs).
Proof. apply Forall_drop. Qed.

Lemma last_n_suffix {A} (n : nat) (xs : list A) : last_n n xs `suffix_of` xs.
Proof. apply suffix_drop. Qed.

(** ** BarAggregator *)

Section bar_series.
Import BarAggregator.
Variable period : Qc.
Variable capacity : nat.
Hypothesis period_pos : (0 < period)%Qc.

Lemma period_nonzero : period ≠ 0%Qc.
Proof using period_pos.
  intros E. rewrite E in period_pos. by apply (Qclt_not_eq _ _ period_pos).
Qed.

Lemma bucket_of_tick (k : Tick) :
  tick_in_range period k →
  bucket_of period (server_time k) = Ret (tick_bucket period k).
Proof using period_pos.
  intros [Hnow Hq].
  unfold bucket_of, py_truediv. destruct (decide (period = 0%Qc)) as [E | _].
  - by destruct period_nonzero.
  - cbn [mbind Py_bind py_bind]. by rewrite Hnow, Hq.
Qed.

Lemma tick_bucket_mono (k1 k2 : Tick) :
  (server_time k1 ≤ server_time k2)%Qc →
  (tick_bucket period k1 ≤ tick_bucket period k2)%Qc.
Proof using period_pos.
  intros H. unfold tick_bucket.
  apply Qcmult_le_mono_nonneg_r; [by apply Qclt_le_weak |].
  apply (proj1 (Z2Qc_inj_le _ _)). apply py_int_mono, Qcdiv_le_mono_pos; done.
Qed.


Lemma series_inv_init : series_inv period capacity [] (init period capacity).
Proof.
  split; simpl; try done; try lia; try constructor; done.
Qed.

Lemma closed_from_snoc ks k b : closed_from period ks b → closed_from period (ks ++ [k]) b.
Proof.
  intros (pre & k0 & nxt & post & -> & ?). exists pre, k0, nxt, (post ++ [k]).
  split; [| done]. by rewrite <- !app_assoc.
Qed.

Lemma StronglySorted_snoc_lt (l : list Qc) (x : Qc) :
  StronglySorted Qclt l → Forall (λ y, (y < x)%Qc) l → StronglySorted Qclt (l ++ [x]).
Proof.
  induction 1 as [| y l Hl IH Hy]; intros Hx; simpl.
  - repeat constructor.
  - inversion Hx; subst. constructor; [by apply IH |].
    apply Forall_app; split; [done | by constructor].
Qed.

Lemma StronglySorted_snoc_le_inv (l : list Qc) (x : Qc) :
  StronglySorted Qcle (l ++ [x]) →
  StronglySorted Qcle l ∧ Forall (λ y, (y ≤ x)%Qc) l.
Proof.
  induction l as [| y l IH]; simpl; intros H.
  - split; constructor.
  - inversion H as [| ? ? Hs Hall]; subst.
    destruct (IH Hs) as [H1 H2].
    pose proof (proj1 (Forall_app _ _ _) Hall) as [Hl Hx].
    pose proof (Forall_inv Hx) as Hyx.
    split; constructor; done.
Qed.

Lemma StronglySorted_suffix (l1 l2 : list Qc) :
  l1 `suffix_of` l2 → StronglySorted Qclt l2 → StronglySorted Qclt l1.
Proof.
  intros [pre ->]. induction pre as [| x pre IH]; simpl; [done |].
  intros H. inversion H; subst. by apply IH.
Qed.

Lemma series_inv_step ks a k :
  series_inv period capacity ks a →
  Forall (λ k', (server_time k' ≤ server_time k)%Qc) ks →
  tick_in_range period k →
  ∃ a', add_tick a (tick_now k) (tick_offset k) (tick_price k) (tick_volume k) = Ret a'
        ∧ series_inv period capacity (ks ++ [k]) a'.
Proof using period_pos.
  intros [Hp Hc Hlen Hsort Hbelow Hopen Hclosed] Hclock Hrange.
  unfold add_tick. rewrite Hp.
  change (tick_now k + tick_offset k)%Qc with (server_time k).
  rewrite bucket_of_tick by done. simpl.
  unfold open_from in Hopen.
  destruct (current_bar a) as [[[[[s o] h] l] c] |] eqn:Hcur.
  - destruct Hopen as [Hs (pre & klast & -> & Hb & Hpx)].
    rewrite bool_decide_eq_false_2 by done. simpl.
    destruct (qlt (current_bar_start a) (tick_bucket period k)) eqn:Hadv.
    + (* the bucket advanced: the bar in progress is closed *)
      apply qlt_true in Hadv. simpl.
      eexists; split; [reflexivity |].
      match goal with |- context [deque_append _ _ ?x] => remember x as b eqn:Hbdef end.
      assert (bar_start b = s ∧ bar_close b = c) as [Hbs Hbc] by (by rewrite Hbdef).
      clear Hbdef.
      assert (closed_from period ((pre ++ [klast]) ++ [k]) b) as Hb_closed.
      { exists pre, klast, k, []. split; [by rewrite <- app_assoc |].
        rewrite Hbs, Hbc. repeat split; try done. by rewrite Hs. }
      split; simpl; try done.
      * rewrite Hc. apply last_n_length.
      * unfold deque_append. rewrite last_n_fmap.
        eapply StronglySorted_suffix; [apply last_n_suffix |].
        rewrite fmap_app. simpl. apply StronglySorted_snoc_lt; [done |].
        rewrite Hbs, Hs. by apply Forall_fmap.
      * apply last_n_Forall.
        apply Forall_app; split.
        -- eapply Forall_impl; [exact Hbelow |]. simpl. intros b' Hb'.
           by trans (current_bar_start a).
        -- constructor; [| done]. by rewrite Hbs, Hs.
      * split; [done |]. by exists (pre ++ [klast]), k.
      * apply last_n_Forall.
        apply Forall_app; split.
        -- eapply Forall_impl; [exact Hclosed |]. intros b'. apply closed_from_snoc.
        -- by constructor.
    + (* same bucket: the bar in progress absorbs the tick *)
      apply qlt_false in Hadv. rewrite Hcur.
      assert (tick_bucket period k = current_bar_start a) as Heq.
      { apply Qcle_antisym; [done |]. rewrite <- Hs, <- Hb.
        apply tick_bucket_mono.
        rewrite Forall_app, Forall_singleton in Hclock. apply Hclock. }
      eexists; split; [reflexivity |].
      split; simpl; try done.
      * split; [done |]. by exists (pre ++ [klast]), k.
      * eapply Forall_impl; [exact Hclosed |]. intros b'. apply closed_from_snoc.
  - (* first tick *)
    destruct Hopen as [-> Hnil]. rewrite Hnil in *. simpl.
    eexists; split; [reflexivity |].
    split; simpl; try done; try lia; try constructor.
    + done.
    + by exists [], k.
Qed.

Lemma add_ticks_snoc a ks k :
  add_ticks a (ks ++ [k]) =
  (a' ← add_ticks a ks;
   add_tick a' (tick_now k) (tick_offset k) (tick_price k) (tick_volume k)).
Proof.
  revert a. induction ks as [| k0 ks IH]; intros a; simpl.
  - by destruct (add_tick a _ _ _ _).
  - destruct (add_tick a _ _ _ _) as [a1 | e]; simpl; [apply IH | done].
Qed.

Lemma series_inv_run ks :
  StronglySorted Qcle (server_time <$> ks) →
  Forall (tick_in_range period) ks →
  ∃ a, add_ticks (init period capacity) ks = Ret a ∧ series_inv period capacity ks a.
Proof using period_pos.
  induction ks as [| k ks IH] using rev_ind; intros Hclock Hrange.
  - exists (init period capacity). split; [done | apply series_inv_init].
  - apply Forall_app in Hrange as [Hrange Hk]. apply Forall_inv in Hk.
    rewrite fmap_app in Hclock. simpl in Hclock.
    assert (StronglySorted Qcle (server_time <$> ks) ∧
            Forall (λ k', (server_time k' ≤ server_time k)%Qc) ks) as [Hks Hle].
    { destruct (StronglySorted_snoc_le_inv _ _ Hclock) as [H1 H2].
      split; [done |]. by apply (proj1 (Forall_fmap _ _ _)) in H2. }
    destruct (IH Hks Hrange) as (a & Hrun & Hinv).
    destruct (series_inv_step ks a k Hinv Hle Hk) as (a' & Hstep & Hinv').
    exists a'. split; [| done].
    rewrite add_ticks_snoc, Hrun. exact Hstep.
Qed.

Lemma last_n_snoc_last_n {A} (n : nat) (xs : list A) (x : A) :
  last_n n (last_n n xs ++ [x]) = last_n n (xs ++ [x]).
Proof.
  unfold last_n. rewrite !length_app, length_drop. simpl.
  destruct (decide (length xs ≤ n)) as [Hle | Hgt].
  - replace (length xs - n) with 0 by lia. by rewrite drop_0, Nat.sub_0_r.
  - destruct n as [| n].
    + rewrite !Nat.sub_0_r. rewrite Nat.sub_diag. simpl.
      rewrite drop_all. simpl.
      replace (length xs + 1) with (length (xs ++ [x]))
        by (rewrite length_app; simpl; lia).
      by rewrite drop_all.
    + replace (length xs - (length xs - S n) + 1 - S n) with 1 by lia.
      replace (length xs + 1 - S n) with (S (length xs - S n)) by lia.
      remember (length xs - S n) as m.
      assert (m < length xs) by lia.
      destruct (drop m xs) as [| y ys] eqn:E.
      * apply (f_equal length) in E. rewrite length_drop in E. simpl in E. lia.
      * rewrite (drop_app_le xs [x] (S m)) by lia.
        replace (S m) with (m + 1) by lia. rewrite <- drop_drop, E. done.
Qed.

Lemma runs_inv_step ks a k :
  runs_inv period capacity ks a →
  Forall (λ k', (server_time k' ≤ server_time k)%Qc) ks →
  tick_in_range period k →
  ∃ a', add_tick a (tick_now k) (tick_offset k) (tick_price k) (tick_volume k) = Ret a'
        ∧ runs_inv period capacity (ks ++ [k]) a'.
Proof using period_pos.
  unfold runs_inv at 1. intros Hinv Hclock Hrange.
  assert (runs_of_ticks period (ks ++ [k])
          = push_tick period (runs_of_ticks period ks) k) as Hruns.
  { unfold runs_of_ticks. by rewrite foldl_app. }
  assert (∀ p, py_max p p = p) as Hmax.
  { intros p. unfold py_max. by destruct (qlt p p). }
  assert (∀ p, py_min p p = p) as Hmin.
  { intros p. unfold py_min. by destruct (qlt p p). }
  assert (∀ vs v, (if qlt 0 v then vs ++ [v] else vs)
                  = vs ++ filter (λ v, (0 < v)%Qc) [v]) as Hvol.
  { intros vs v. rewrite filter_cons, filter_nil. unfold qlt.
    destruct (decide (0 < v)%Qc).
    - by rewrite bool_decide_eq_true_2.
    - rewrite bool_decide_eq_false_2 by done. by rewrite app_nil_r. }
  unfold add_tick.
  destruct (runs_of_ticks period ks) as [| [k0 run] older] eqn:Hr.
  - destruct Hinv as [-> ->]. cbn [init bar_period current_bar].
    change (tick_now k + tick_offset k)%Qc with (server_time k).
    rewrite bucket_of_tick by done. cbn [mbind Py_bind py_bind].
    rewrite bool_decide_eq_true_2 by done.
    cbn [orb current_bar bars max_bars bar_period current_bar_start trade_volumes].
    eexists; split; [reflexivity |].
    unfold runs_inv. rewrite Hruns. cbn [push_tick fst snd].
    split; [by apply list_elem_of_singleton |].
    unfold bar_of_run. cbn [fst snd fmap list_fmap foldl List.last bar_start
      bar_open bar_high bar_low bar_close reverse].
    rewrite Hmax, Hmin, Hvol. reflexivity.
  - destruct Hinv as [Hin ->]. cbn [fst snd] in Hin.
    cbn [bar_period current_bar current_bar_start].
    change (tick_now k + tick_offset k)%Qc with (server_time k).
    rewrite bucket_of_tick by done. cbn [mbind Py_bind py_bind].
    rewrite bool_decide_eq_false_2 by done. cbn [orb fst snd].
    assert (tick_bucket period k0 ≤ tick_bucket period k)%Qc as Hle.
    { apply tick_bucket_mono. by apply (proj1 (Forall_forall _ _) Hclock). }
    unfold runs_inv. rewrite Hruns. cbn [push_tick].
    destruct (decide (tick_bucket period k = tick_bucket period k0)) as [Heq | Hne].
    + (* the tick falls in the bucket of the newest run *)
      assert (qlt (tick_bucket period k0) (tick_bucket period k) = false) as ->.
      { apply qlt_false. rewrite Heq. apply Qcle_refl. }
      cbn [current_bar bar_period max_bars bars current_bar_start trade_volumes].
      eexists; split; [reflexivity |].
      split; [apply elem_of_app; by left |].
      unfold bar_of_run.
      cbn [fst snd bar_start bar_open bar_high bar_low bar_close].
      rewrite Hvol, Heq.
      rewrite !fmap_app, !foldl_app. cbn [fmap list_fmap foldl].
      rewrite last_last, !fmap_app. cbn [fmap list_fmap].
      by rewrite app_comm_cons, filter_app.
    + (* a later bucket: the newest run is closed *)
      assert (qlt (tick_bucket period k0) (tick_bucket period k) = true) as ->.
      { apply qlt_true. apply Qcnot_le_lt. intros Hge. apply Hne.
        by apply Qcle_antisym. }
      cbn [current_bar bar_period max_bars bars current_bar_start trade_volumes].
      eexists; split; [reflexivity |].
      split; [apply elem_of_app; right; by apply list_elem_of_singleton |].
      unfold bar_of_run at 2 3 4 5 6.
      cbn [fst snd fmap list_fmap foldl List.last bar_start bar_open bar_high
           bar_low bar_close].
      rewrite Hmax, Hmin, Hvol. cbn [app].
      f_equal. unfold deque_append.
      rewrite reverse_cons.
      rewrite <- (last_n_snoc_last_n capacity (reverse _)). f_equal. f_equal. f_equal.
      unfold close_bar, bar_of_run.
      cbn [fst snd bar_start bar_open bar_high bar_low bar_close fmap list_fmap].
      f_equal.
      by destruct (filter _ _).
Qed.

Lemma runs_inv_run ks :
  StronglySorted Qcle (server_time <$> ks) →
  Forall (tick_in_range period) ks →
  ∃ a, add_ticks (init period capacity) ks = Ret a ∧ runs_inv period capacity ks a.
Proof using period_pos.
  induction ks as [| k ks IH] using rev_ind; intros Hclock Hrange.
  - exists (init period capacity). by split.
  - apply Forall_app in Hrange as [Hrange Hk]. apply Forall_inv in Hk.
    rewrite fmap_app in Hclock. simpl in Hclock.
    assert (StronglySorted Qcle (server_time <$> ks) ∧
            Forall (λ k', (server_time k' ≤ server_time k)%Qc) ks) as [Hks Hle].
    { destruct (StronglySorted_snoc_le_inv _ _ Hclock) as [H1 H2].
      split; [done |]. by apply (proj1 (Forall_fmap _ _ _)) in H2. }
    destruct (IH Hks Hrange) as (a & Hrun & Hinv).
    destruct (runs_inv_step ks a k Hinv Hle Hk) as (a' & Hstep & Hinv').
    exists a'. split; [| done].
    rewrite add_ticks_snoc, Hrun. exact Hstep.
Qed.

Lemma runs_inv_bars ks a :
  runs_inv period capacity ks a → bars a = bars_as_specified period capacity ks.
Proof.
  unfold runs_inv, bars_as_specified.
  destruct (runs_of_ticks period ks) as [| r older].
  - by intros [_ ->].
  - by intros [_ ->].
Qed.

End bar_series.

(** C5.  For every sequence of ticks fed to [add_tick] under a
    non-decreasing exchange clock (a positive bar period, the clock within
    the range of the floats), every call returns and the closed-bar series
    is the series of the specification: one bar for every run of
    consecutive ticks of one time bucket that a tick of a later bucket has
    ended, in order, of which the newest [capacity] are kept, the oldest
    being dropped on overflow.  So the series never exceeds its capacity,
    the start times of its bars are strictly increasing, and the close of
    each bar is the price of the last tick of its bucket: a tick of that
    bucket which is directly followed by a tick of a later bucket. *)
Theorem add_tick_bar_series (period : Qc) (capacity : nat)
    (ks : list BarAggregator.Tick) :
  (0 < period)%Qc →
  StronglySorted Qcle (BarAggregator.server_time <$> ks) →
  Forall (BarAggregator.tick_in_range period) ks →
  ∃ a, BarAggregator.add_ticks (BarAggregator.init period capacity) ks = Ret a ∧
       BarAggregator.bars a
       = last_n capacity
           (reverse (bar_of_run period <$> tail (runs_of_ticks period ks))) ∧
       length (BarAggregator.bars a) ≤ capacity ∧
       StronglySorted Qclt (BarAggregator.bar_start <$> BarAggregator.bars a) ∧
       Forall (λ b, ∃ pre k nxt post,
                 ks = pre ++ k :: nxt :: post ∧
                 BarAggregator.tick_bucket period k = BarAggregator.bar_start b ∧
                 BarAggregator.tick_price k = BarAggregator.bar_close b ∧
                 (BarAggregator.bar_start b < BarAggregator.tick_bucket period nxt)%Qc)
              (BarAggregator.bars a).
Proof.
  intros Hp Hclock Hrange.
  destruct (series_inv_run period capacity Hp ks Hclock Hrange) as (a & Hrun & Hinv).
  destruct (runs_inv_run period capacity Hp ks Hclock Hrange) as (a' & Hrun' & Hruns).
  assert (a' = a) as -> by congruence.
  exists a. destruct Hinv.
  split; [done |].
  split; [by apply runs_inv_bars |].
  repeat split; done.
Qed.

Lemma add_tick_bar_series_witness :
  ∃ a, BarAggregator.add_ticks (BarAggregator.init 1 2) example_ticks = Ret a ∧
       BarAggregator.bars a
       = last_n 2 (reverse (bar_of_run 1 <$> tail (runs_of_ticks 1 example_ticks))) ∧
       length (BarAggregator.bars a) ≤ 2 ∧
       StronglySorted Qclt (BarAggregator.bar_start <$> BarAggregator.bars a) ∧
       Forall (λ b, ∃ pre k nxt post,
                 example_ticks = pre ++ k :: nxt :: post ∧
                 BarAggregator.tick_bucket 1 k = BarAggregator.bar_start b ∧
                 BarAggregator.tick_price k = BarAggregator.bar_close b ∧
                 (BarAggregator.bar_start b < BarAggregator.tick_bucket 1 nxt)%Qc)
              (BarAggregator.bars a).
Proof.
  apply (add_tick_bar_series 1 2 example_ticks).
  - reflexivity.
  - repeat (constructor; try (intros H; discriminate H)).
  - repeat (constructor; try (split; reflexivity)).
Defined.

(** The series of the example: three runs are closed, at 11, 12 and 9; with
    a capacity of two the oldest bar is gone. *)
Example example_ticks_series :
  BarAggregator.bar_close <$> bars_as_specified 1 2 example_ticks
  = [qc 12 1; qc 9 1]
  ∧ BarAggregator.bar_close <$> bars_as_specified 1 3 example_ticks
    = [qc 11 1; qc 12 1; qc 9 1].
Proof. split; vm_compute; reflexivity. Qed.

(** ** RiskManager *)

Section risk_manager.
Import RiskManager.

Lemma can_open_position_early cfg rm inst_id n now reason :
  early_rejection cfg rm n now = Some reason →
  can_open_position cfg rm inst_id n now = (rm, (false, reason)).
Proof. unfold can_open_position. by intros ->. Qed.

Lemma can_open_position_scalars cfg rm inst_id n now :
  let rm' := (can_open_position cfg rm inst_id n now).1 in
  daily_pnl rm' = daily_pnl rm ∧
  consecutive_losses rm' = consecutive_losses rm ∧
  last_trade_time rm' = last_trade_time rm ∧
  last_loss_time rm' = last_loss_time rm.
Proof.
  unfold can_open_position.
  destruct (early_rejection cfg rm n now); [done |].
  destruct inst_id as [i |]; [| done].
  repeat case_bool_decide; done.
Qed.

Lemma can_open_position_other_windows cfg rm inst_id n now other :
  inst_id ≠ Some other →
  pair_trade_times (can_open_position cfg rm inst_id n now).1 !! other
  = pair_trade_times rm !! other.
Proof.
  intros Hne. unfold can_open_position.
  destruct (early_rejection cfg rm n now); [done |].
  destruct inst_id as [i |]; [| done].
  repeat case_bool_decide; simpl; try done;
    (rewrite lookup_insert_ne; [done | congruence]).
Qed.

End risk_manager.

(** C7.  After a trade recorded at time [t0], and with no other risk limit
    tripped at time [t] (loss cooldown, daily-loss cap, consecutive-loss cap,
    concurrent-trades cap, hourly rate cap of the instrument),
    [can_open_position] called at [t] answers [(False, "Cooldown (..s)")]
    while [t - t0] is below [COOL_DOWN_AFTER_EXIT_SEC], and [(True, "")]
    from the moment [t - t0] reaches it. *)
Theorem can_open_position_post_exit_cooldown
    (cfg : Config) (rm : RiskManager.t) (traded : string) (pnl : Qc)
    (t0 t0_window t0_loss : Qc) (inst_id : option string)
    (open_positions : nat) (t : Qc) :
  let rm0 := RiskManager.record_trade rm traded pnl t0 t0_window t0_loss in
  ¬ (0 < RiskManager.consecutive_losses rm0 ∧
     (t - RiskManager.last_loss_time rm0 < COOL_DOWN_AFTER_LOSS_SEC cfg)%Qc) →
  (- MAX_DAILY_LOSS cfg < RiskManager.daily_pnl rm0)%Qc →
  RiskManager.consecutive_losses rm0 < MAX_CONSECUTIVE_LOSSES cfg →
  open_positions < MAX_CONCURRENT_TRADES cfg →
  (∀ i, inst_id = Some i →
        length (RiskManager.recent_trades t (RiskManager.trade_times rm0 i))
        < MAX_TRADES_PER_PAIR_PER_HOUR cfg) →
  (RiskManager.can_open_position cfg rm0 inst_id open_positions t).2
  = if qlt (t - t0) (COOL_DOWN_AFTER_EXIT_SEC cfg)
    then (false,
          "Cooldown ("
          +:+ pretty (py_int (COOL_DOWN_AFTER_EXIT_SEC cfg - (t - t0)))
          +:+ "s)")
    else (true, "").
Proof.
  intros rm0 Hloss Hdaily Hstreak Hopen Hrate.
  unfold RiskManager.can_open_position, RiskManager.early_rejection.
  change (RiskManager.last_trade_time rm0) with t0.
  destruct (qlt (t - t0) (COOL_DOWN_AFTER_EXIT_SEC cfg)); [done |].
  assert (bool_decide (0 < RiskManager.consecutive_losses rm0)
          && qlt (t - RiskManager.last_loss_time rm0) (COOL_DOWN_AFTER_LOSS_SEC cfg)
          = false) as ->.
  { apply not_true_is_false. intros [H1 H2]%andb_prop.
    apply Hloss. split; [by apply bool_decide_eq_true in H1 | by apply qlt_true]. }
  assert (qle (RiskManager.daily_pnl rm0) (- MAX_DAILY_LOSS cfg) = false) as ->.
  { apply bool_decide_eq_false. by apply Qclt_not_le. }
  rewrite !bool_decide_eq_false_2 by lia.
  destruct inst_id as [i |]; [| done].
  case_bool_decide; [done |].
  rewrite bool_decide_eq_false_2; [done |].
  specialize (Hrate i eq_refl). lia.
Qed.

Lemma can_open_position_post_exit_cooldown_witness :
  (RiskManager.can_open_position config
     (RiskManager.record_trade RiskManager.init "BTC-USDT" (qc 1 1)
        (qc 100 1) (qc 100 1) (qc 100 1))
     (Some "BTC-USDT") 0 (qc 102 1)).2 = (true, "")
  ∧
  (RiskManager.can_open_position config
     (RiskManager.record_trade RiskManager.init "BTC-USDT" (qc 1 1)
        (qc 100 1) (qc 100 1) (qc 100 1))
     (Some "BTC-USDT") 0 (qc 1015 10)).2 = (false, "Cooldown (0s)").
Proof.
  split.
  - apply (can_open_position_post_exit_cooldown config RiskManager.init
             "BTC-USDT" (qc 1 1) (qc 100 1) (qc 100 1) (qc 100 1)
             (Some "BTC-USDT") 0 (qc 102 1)); simpl.
    + intros [H _]. lia.
    + reflexivity.
    + lia.
    + lia.
    + intros i [= <-]. vm_compute. lia.
  - apply (can_open_position_post_exit_cooldown config RiskManager.init
             "BTC-USDT" (qc 1 1) (qc 100 1) (qc 100 1) (qc 100 1)
             (Some "BTC-USDT") 0 (qc 1015 10)); simpl.
    + intros [H _]. lia.
    + reflexivity.
    + lia.
    + lia.
    + intros i [= <-]. vm_compute. lia.
Defined.

(** C9.  [record_trade] with a profit of exactly zero takes the winning
    branch: the streak of losses is reset and [last_loss_time] is left as it
    was; and for every profit, winning, losing or break-even,
    [last_trade_time] is set and the trade is appended to the window of the
    instrument, so the post-exit cooldown is running right after the
    trade. *)
Theorem record_trade_break_even
    (cfg : Config) (rm : RiskManager.t) (inst_id : string)
    (now_trade now_window now_loss : Qc) :
  RiskManager.record_trade rm inst_id 0 now_trade now_window now_loss
  = {| RiskManager.daily_pnl := RiskManager.daily_pnl rm;
       RiskManager.consecutive_losses := 0;
       RiskManager.last_trade_time := now_trade;
       RiskManager.last_loss_time := RiskManager.last_loss_time rm;
       RiskManager.pair_trade_times :=
         <[inst_id := RiskManager.trade_times rm inst_id ++ [now_window]]>
           (RiskManager.pair_trade_times rm) |}
  ∧ ∀ pnl : Qc,
      let rm' := RiskManager.record_trade rm inst_id pnl now_trade now_window now_loss in
      RiskManager.last_trade_time rm' = now_trade
      ∧ RiskManager.trade_times rm' inst_id
        = RiskManager.trade_times rm inst_id ++ [now_window]
      ∧ ∀ (asked : option string) (open_positions : nat) (t : Qc),
          (t - now_trade < COOL_DOWN_AFTER_EXIT_SEC cfg)%Qc →
          (RiskManager.can_open_position cfg rm' asked open_positions t).2.1 = false.
Proof.
  split.
  - unfold RiskManager.record_trade. simpl.
    change (qlt 0 0) with false. simpl. by rewrite Qcplus_0_r.
  - intros pnl rm'. split; [done |]. split.
    + unfold RiskManager.trade_times at 1. simpl. by rewrite lookup_insert_eq.
    + intros asked n t Ht.
      unfold RiskManager.can_open_position, RiskManager.early_rejection.
      change (RiskManager.last_trade_time rm') with now_trade.
      apply qlt_true in Ht. by rewrite Ht.
Qed.

(** The claim C10 as stated fails: a call that the post-exit cooldown turns
    down returns before the window of the instrument is pruned, and leaves
    the stale entry in it. *)
Lemma can_open_position_prunes_every_call_counterexample :
  ¬ (RiskManager.trade_times
       (RiskManager.can_open_position config traded_twice
          (Some "BTC-USDT") 0 (qc 10000 1)).1 "BTC-USDT"
     = RiskManager.recent_trades (qc 10000 1)
         (RiskManager.trade_times traded_twice "BTC-USDT")).
Proof. vm_compute. intros H. discriminate H. Qed.

(** C10, amended.  [can_open_position] called with an instrument never
    changes [daily_pnl], [consecutive_losses], [last_trade_time],
    [last_loss_time] or the window of any other instrument.  When none of the
    five earlier checks turns the call down, it replaces the window of the
    instrument by its entries younger than 3600 seconds; when one of them
    does, it leaves the whole state as it was. *)
Theorem can_open_position_frame
    (cfg : Config) (rm : RiskManager.t) (inst_id : string)
    (open_positions : nat) (now : Qc) :
  inst_id ≠ "" →
  let rm' := (RiskManager.can_open_position cfg rm (Some inst_id) open_positions now).1 in
  RiskManager.daily_pnl rm' = RiskManager.daily_pnl rm ∧
  RiskManager.consecutive_losses rm' = RiskManager.consecutive_losses rm ∧
  RiskManager.last_trade_time rm' = RiskManager.last_trade_time rm ∧
  RiskManager.last_loss_time rm' = RiskManager.last_loss_time rm ∧
  (∀ other, other ≠ inst_id →
     RiskManager.pair_trade_times rm' !! other = RiskManager.pair_trade_times rm !! other) ∧
  match RiskManager.early_rejection cfg rm open_positions now with
  | None =>
      RiskManager.pair_trade_times rm' !! inst_id
      = Some (filter (λ t, (now - t < qc 3600 1)%Qc) (RiskManager.trade_times rm inst_id))
  | Some _ => rm' = rm
  end.
Proof.
  intros Hne rm'.
  destruct (can_open_position_scalars cfg rm (Some inst_id) open_positions now)
    as (H1 & H2 & H3 & H4).
  repeat split; try done.
  - intros other Ho. apply can_open_position_other_windows. congruence.
  - subst rm'. unfold RiskManager.can_open_position.
    destruct (RiskManager.early_rejection cfg rm open_positions now); [done |].
    rewrite bool_decide_eq_false_2 by done.
    case_bool_decide; simpl; by rewrite lookup_insert_eq.
Qed.

Lemma can_open_position_frame_witness :
  let rm' := (RiskManager.can_open_position config traded_twice
                (Some "BTC-USDT") 0 (qc 10001 1)).1 in
  RiskManager.daily_pnl rm' = RiskManager.daily_pnl traded_twice ∧
  RiskManager.consecutive_losses rm' = RiskManager.consecutive_losses traded_twice ∧
  RiskManager.last_trade_time rm' = RiskManager.last_trade_time traded_twice ∧
  RiskManager.last_loss_time rm' = RiskManager.last_loss_time traded_twice ∧
  (∀ other, other ≠ "BTC-USDT" →
     RiskManager.pair_trade_times rm' !! other
     = RiskManager.pair_trade_times traded_twice !! other) ∧
  RiskManager.pair_trade_times rm' !! "BTC-USDT" = Some [qc 9999 1].
Proof.
  apply (can_open_position_frame config traded_twice "BTC-USDT" 0 (qc 10001 1)).
  intros H. discriminate H.
Defined.

(** ** The setup scan *)

Lemma py_bind_ret {A B} (m : Py A) (k : A → Py B) (b : B) :
  (m ≫= k) = Ret b → ∃ a, m = Ret a ∧ k a = Ret b.
Proof. destruct m as [a | e]; [by exists a | done]. Qed.

Lemma py_truediv_ret (a b q : Qc) :
  py_truediv a b = Ret q → b ≠ 0%Qc ∧ q = (a / b)%Qc.
Proof. unfold py_truediv. case_decide; [done |]. by intros [= <-]. Qed.

Lemma to_bps_ret (dist price b : Qc) :
  to_bps dist price = Ret b → price ≠ 0%Qc ∧ b = (dist / price * qc 10000 1)%Qc.
Proof.
  unfold to_bps. intros (q & Hq & [= <-])%py_bind_ret.
  apply py_truediv_ret in Hq as [? ->]. done.
Qed.

Lemma setup_breakout_not_armed cfg s inst_id out :
  setup_breakout cfg s inst_id = Ret (inl out) → ∀ c, out ≠ Armed c.
Proof.
  unfold setup_breakout. intros H c ->.
  repeat (first
    [ discriminate H
    | apply py_bind_ret in H as (? & _ & H)
    | match type of H with
      | context [match ?x with _ => _ end] => destruct x
      end ]).
Qed.

Lemma setup_targets_armed cfg aggregator current_price breakout_bps now obj c :
  setup_targets cfg aggregator current_price breakout_bps now obj = Ret (inr c) →
  let cost := (FEE_TAKER_BPS cfg + MAX_SLIPPAGE_BPS cfg)%Qc in
  let raw_tp_bps :=
    (cand_atr c * TP_ATR_MULTIPLIER cfg / current_price * qc 10000 1)%Qc in
  let raw_sl_bps :=
    (cand_atr c * SL_ATR_MULTIPLIER cfg / current_price * qc 10000 1)%Qc in
  cand_entry_price c = current_price ∧
  cand_obj c = obj ∧
  cand_rr c = ((raw_tp_bps - cost) / (raw_sl_bps + cost))%Qc ∧
  cand_tp_bps c = clamp_bps (MIN_TP_BPS cfg) (MAX_TP_BPS cfg) raw_tp_bps ∧
  cand_sl_bps c = clamp_bps (MIN_SL_BPS cfg) (MAX_SL_BPS cfg) raw_sl_bps.
Proof.
  unfold setup_targets. intros H.
  case_bool_decide; [done |].
  destruct (true_ranges _) as [| tr trs] eqn:Htrs; [done |].
  apply py_bind_ret in H as (atr & Hatr & H).
  apply py_bind_ret in H as (atr_bps & Hatr_bps & H).
  destruct (qlt atr_bps _); [done |].
  apply py_bind_ret in H as (raw_tp & Htp & H).
  apply py_bind_ret in H as (raw_sl & Hsl & H).
  destruct (_ || _); [done |].
  apply py_bind_ret in H as (rr & Hrr & H).
  destruct (qlt rr _); [done |].
  injection H as <-. simpl.
  apply to_bps_ret in Htp as [_ ->]. apply to_bps_ret in Hsl as [_ ->].
  apply py_truediv_ret in Hrr as [_ ->]. done.
Qed.

Lemma setup_targets_not_armed cfg aggregator current_price breakout_bps now obj out :
  setup_targets cfg aggregator current_price breakout_bps now obj = Ret (inl out) →
  ∀ c, out ≠ Armed c.
Proof.
  unfold setup_targets. intros H c ->.
  repeat (first
    [ discriminate H
    | apply py_bind_ret in H as (? & _ & H)
    | match type of H with
      | context [match ?x with _ => _ end] => destruct x
      end ]).
Qed.

Lemma check_setup_conditions_armed cfg s inst_id now s' c :
  check_setup_conditions cfg s inst_id now = (s', Armed c) →
  ∃ aggregator breakout_bps obj,
    setup_targets cfg aggregator (cand_entry_price c) breakout_bps now obj
    = Ret (inr c).
Proof.
  unfold check_setup_conditions. intros H.
  destruct (setup_breakout cfg s inst_id) as [[out | [[[agg cur] hi] bb]] | e] eqn:Hb.
  - injection H as _ ->. by destruct (setup_breakout_not_armed _ _ _ _ Hb c).
  - destruct (setup_targets _ _ _ _ _ _) as [[out | c'] | e] eqn:Ht.
    + injection H as _ ->. by destruct (setup_targets_not_armed _ _ _ _ _ _ _ Ht c).
    + injection H as _ ->.
      destruct (setup_targets_armed _ _ _ _ _ _ _ Ht) as (<- & _).
      eauto.
    + done.
  - done.
Qed.

(** The claim C4 as stated fails where it takes the risk side net of costs:
    with entry 100, ATR 1 and the multipliers 4 and 2 of [config.py] the
    scan arms a candidate whose risk-reward is not (400 − 15) / (200 − 15). *)
Lemma setup_scan_risk_reward_counterexample :
  ∃ c, (check_setup_conditions config example_sniper "BTC-USDT" (qc 15 1)).2 = Armed c
       ∧ cand_entry_price c = qc 100 1
       ∧ cand_atr c = qc 1 1
       ∧ cand_rr c ≠ ((qc 400 1 - (FEE_TAKER_BPS config + MAX_SLIPPAGE_BPS config))
                      / (qc 200 1 - (FEE_TAKER_BPS config + MAX_SLIPPAGE_BPS config)))%Qc.
Proof.
  eexists. split; [vm_compute; reflexivity |].
  split; [qc_eq |]. split; [qc_eq | qc_neq].
Qed.

(** C4, amended.  Whenever the setup scan arms a candidate, the risk-reward
    stored on it is the raw TP distance in bps minus the taker-fee-plus-
    slippage cost, divided by the raw SL distance in bps PLUS that cost; the
    raw distances are ATR times the multipliers over the entry price, in bps,
    before clamping.  With entry 100, ATR 1 and multipliers 4 and 2 they are
    400 and 200. *)
Theorem setup_scan_risk_reward
    (cfg : Config) (s : Sniper) (inst_id : string) (now : Qc)
    (s' : Sniper) (c : Candidate) :
  check_setup_conditions cfg s inst_id now = (s', Armed c) →
  let cost := (FEE_TAKER_BPS cfg + MAX_SLIPPAGE_BPS cfg)%Qc in
  let raw_tp_bps :=
    (cand_atr c * TP_ATR_MULTIPLIER cfg / cand_entry_price c * qc 10000 1)%Qc in
  let raw_sl_bps :=
    (cand_atr c * SL_ATR_MULTIPLIER cfg / cand_entry_price c * qc 10000 1)%Qc in
  cand_rr c = ((raw_tp_bps - cost) / (raw_sl_bps + cost))%Qc
  ∧ cand_tp_bps c = clamp_bps (MIN_TP_BPS cfg) (MAX_TP_BPS cfg) raw_tp_bps
  ∧ cand_sl_bps c = clamp_bps (MIN_SL_BPS cfg) (MAX_SL_BPS cfg) raw_sl_bps
  ∧ (cand_entry_price c = qc 100 1 ∧ cand_atr c = qc 1 1
     ∧ TP_ATR_MULTIPLIER cfg = qc 4 1 ∧ SL_ATR_MULTIPLIER cfg = qc 2 1 →
     raw_tp_bps = qc 400 1 ∧ raw_sl_bps = qc 200 1).
Proof.
  intros H cost raw_tp_bps raw_sl_bps.
  destruct (check_setup_conditions_armed _ _ _ _ _ _ H) as (agg & bb & obj & Ht).
  destruct (setup_targets_armed _ _ _ _ _ _ _ Ht) as (_ & _ & Hrr & Htp & Hsl).
  repeat split; try done.
  - subst raw_tp_bps. destruct H0 as (-> & -> & -> & _). qc_eq.
  - subst raw_sl_bps. destruct H0 as (-> & -> & _ & ->). qc_eq.
Qed.

Lemma setup_scan_risk_reward_witness :
  ∃ c, (check_setup_conditions config example_sniper "BTC-USDT" (qc 15 1)).2 = Armed c
       ∧ cand_rr c = ((qc 400 1 - qc 15 1) / (qc 200 1 + qc 15 1))%Qc
       ∧ cand_tp_bps c = qc 80 1
       ∧ cand_sl_bps c = qc 60 1.
Proof.
  destruct (check_setup_conditions config example_sniper "BTC-USDT" (qc 15 1))
    as [s' out] eqn:Hrun.
  assert (∃ c, out = Armed c) as [c ->].
  { vm_compute in Hrun. injection Hrun as _ <-. eauto. }
  exists c. split; [done |].
  destruct (setup_scan_risk_reward config example_sniper "BTC-USDT" (qc 15 1) s' c Hrun)
    as (Hrr & Htp & Hsl & _).
  vm_compute in Hrun. injection Hrun as _ <-.
  split; [rewrite Hrr; qc_eq |]. split; [rewrite Htp; qc_eq | rewrite Hsl; qc_eq].
Defined.

(** ** The z-score *)

Lemma compute_zscore_zero (float_pow : Qc → Qc → Qc) (returns : list Qc) :
  compute_zscore float_pow returns = 0%Qc.
Proof.
  unfold compute_zscore. case_bool_decide as Hlen; [done |].
  destruct returns as [| r rs]; [simpl in Hlen; lia |].
  by destruct (py_truediv (py_sum (r :: rs)) _) as [rhs1 | e].
Qed.

(** C3, on the code.  [compute_zscore] returns 0.0 for EVERY list of
    returns, also for five or more of them: line 98 reads [mean] inside the
    generator before the tuple assignment has bound it, the [NameError] is
    swallowed by the bare [except], and 0.0 is returned.  On the five
    returns 0.01, 0.02, 0.03, 0.04, 0.10 the specified value is
    0.06 divided by the square root of the variance 0.001.  Under a positive
    threshold the momentum block of the confirmation scan therefore never
    confirms. *)
Theorem compute_zscore_always_zero
    (float_pow : Qc → Qc → Qc) (math_log : Qc → Py Qc) :
  (∀ returns : list Qc, compute_zscore float_pow returns = 0%Qc)
  ∧ zscore_as_specified float_pow example_returns
    = (qc 6 100 / float_pow (qc 1 1000) (qc 1 2))%Qc
  ∧ ∀ (cfg : Config) (aggregator : option BarAggregator.t),
      (0 < ZSCORE_THRESHOLD cfg)%Qc →
      momentum_confirmation float_pow math_log cfg aggregator ≠ Ret true.
Proof.
  split; [apply compute_zscore_zero |]. split.
  - unfold zscore_as_specified.
    assert ((py_sum example_returns / Qc_of_Z (Z.of_nat (length example_returns)))%Qc
            = qc 4 100) as -> by qc_eq.
    assert ((py_sum ((λ x, (x - qc 4 100) ^ 2)%Qc <$> example_returns)
             / Qc_of_Z (Z.of_nat (length example_returns)))%Qc = qc 1 1000) as -> by qc_eq.
    assert (qlt 0 (qc 1 1000) = true) as -> by done.
    f_equal; qc_eq.
  - intros cfg aggregator Hthr H.
    unfold momentum_confirmation in H.
    destruct aggregator as [a |]; [| done].
    destruct (_ && _); [| done].
    case_bool_decide; [| done].
    apply py_bind_ret in H as (rets & _ & H).
    destruct rets as [| r rets]; [done |].
    rewrite compute_zscore_zero in H. injection H as H.
    unfold zscore_confirms, qle in H. apply bool_decide_eq_true in H.
    rewrite Qcabs_pos in H by apply Qcle_refl. by apply (Qclt_not_le _ _ Hthr).
Qed.

(** ** Forced exit *)

Lemma force_close_position_open
    (meta : gmap string nat) (s : Sniper) (pos : Position) (reason : string)
    (cancel_res order_res : OrderManager.ApiResponse) :
  active_position s = Some pos →
  pos_state pos = OPEN →
  truthy_num (pos_entry_size pos) = true →
  force_close_position meta s reason cancel_res order_res
  = (set_active_position (Some (with_state CLOSING pos)) s,
     Raise (if truthy_str (pos_attach_algo_id pos)
            then match OrderManager.cancel_algo_order cancel_res (pos_inst_id pos)
                         (pos_attach_algo_id pos) with
                 | Raise e => e
                 | Ret _ => TypeError
                 end
            else TypeError)).
Proof.
  intros Hpos Hopen Hsize. unfold force_close_position.
  rewrite Hpos. rewrite bool_decide_eq_false_2 by (intros H; by apply H).
  change (pos_attach_algo_id (with_state CLOSING pos)) with (pos_attach_algo_id pos).
  change (pos_entry_size (with_state CLOSING pos)) with (pos_entry_size pos).
  rewrite Hsize. simpl.
  destruct (truthy_str (pos_attach_algo_id pos)); [| done].
  by destruct (OrderManager.cancel_algo_order _ _ _).
Qed.

(** The monitor hands the exception on: a pass over an OPEN position that
    has been held too long ends in a raised exception, with the position in
    state CLOSING. *)
Lemma monitor_open_max_hold_raises
    (cfg : Config) (meta : gmap string nat) (s : Sniper) (pos : Position)
    (now mid : Qc) (cancel_res order_res : OrderManager.ApiResponse) :
  active_position s = Some pos →
  pos_state pos = OPEN →
  truthy_num (pos_entry_size pos) = true →
  pairs_data s !! pos_inst_id pos ≫= pd_mid = Some mid →
  mid ≠ 0%Qc →
  (MAX_POSITION_HOLD_SECONDS cfg < now - pos_time pos)%Qc →
  let r := monitor_open cfg meta s now cancel_res order_res in
  (∃ e, r.2 = Raise e) ∧ (pos_state <$> active_position r.1) = Some CLOSING.
Proof.
  intros Hpos Hopen Hsize Hmid Hne Hheld r. subst r. unfold monitor_open.
  rewrite Hpos, Hmid. rewrite bool_decide_eq_false_2 by (intros H; by apply H).
  rewrite bool_decide_eq_false_2 by done.
  match goal with |- context [qlt ?a ?b] => replace (qlt a b) with true end.
  2: { symmetry. by apply qlt_true. }
  erewrite force_close_position_open; [| reflexivity | exact Hopen | exact Hsize].
  simpl. split; [by eexists | done].
Qed.

Example monitor_open_example :
  (monitor_open config example_meta example_held_sniper (qc 137 1)
     order_rejected order_rejected).2 = Raise TypeError.
Proof. vm_compute. reflexivity. Qed.

(** C2, on the code.  [force_close_position] on an OPEN position with a
    recorded entry size never reaches the CLOSING_FAILED branch: it calls
    [place_market_order] with three arguments where four are required, so
    the call raises [TypeError] before any order is submitted (or the cancel
    of the attached order has raised before).  Whatever the exchange would
    answer, the call ends in a raised exception and the position is left in
    state CLOSING. *)
Theorem force_close_position_raises
    (meta : gmap string nat) (s : Sniper) (pos : Position) (reason : string)
    (cancel_res order_res : OrderManager.ApiResponse) :
  active_position s = Some pos →
  pos_state pos = OPEN →
  truthy_num (pos_entry_size pos) = true →
  force_close_position meta s reason cancel_res order_res
  = (set_active_position (Some (with_state CLOSING pos)) s,
     Raise (if truthy_str (pos_attach_algo_id pos)
            then match OrderManager.cancel_algo_order cancel_res (pos_inst_id pos)
                         (pos_attach_algo_id pos) with
                 | Raise e => e
                 | Ret _ => TypeError
                 end
            else TypeError)).
Proof.
  intros Hpos Hopen Hsize. unfold force_close_position.
  rewrite Hpos, bool_decide_eq_false_2 by (intros H; by apply H).
  assert (truthy_num (pos_entry_size (with_state CLOSING pos)) = true) as ->
    by exact Hsize.
  simpl.
  destruct (truthy_str (pos_attach_algo_id pos)); [| reflexivity].
  destruct (OrderManager.cancel_algo_order _ _ _) as [cancelled | e]; reflexivity.
Qed.

Lemma force_close_position_raises_witness :
  force_close_position example_meta
    (set_active_position (Some example_open_position) new_sniper)
    "MAX_HOLD_TIME" order_rejected order_rejected
  = (set_active_position (Some (with_state CLOSING example_open_position))
       (set_active_position (Some example_open_position) new_sniper),
     Raise TypeError).
Proof.
  apply (force_close_position_raises example_meta
           (set_active_position (Some example_open_position) new_sniper)
           example_open_position "MAX_HOLD_TIME" order_rejected order_rejected).
  - reflexivity.
  - reflexivity.
  - reflexivity.
Defined.

(** ** Ingestion *)

(** The claim C8 as stated fails for a top-of-book update whose mid price is
    not positive: the snapshot of the instrument is written before the mid
    price is looked at. *)
Lemma handle_bbo_data_nonpositive_mid_counterexample :
  ((0 + 0) / qc 2 1 ≤ 0)%Qc
  ∧ pairs_data (handle_bbo_data config new_sniper "BTC-USDT" [zero_quote] 0%Qc).1
    ≠ pairs_data new_sniper.
Proof.
  split; [by vm_compute |].
  intros H. apply (f_equal (λ m, m !! "BTC-USDT")) in H.
  vm_compute in H. discriminate H.
Qed.

Lemma fold_trade_nonpositive offset a trades :
  Forall (λ tr, ∀ p, tr_px tr = Some p → (p ≤ 0)%Qc) trades →
  foldl (fold_trade offset) a trades = a.
Proof.
  induction 1 as [| tr trades Htr _ IH]; simpl; [done |].
  rewrite <- IH at 2. f_equal.
  unfold fold_trade. destruct (tr_px tr) as [p |]; [| done].
  specialize (Htr p eq_refl). apply qlt_false in Htr. by rewrite Htr.
Qed.

(** C8, amended.  A top-of-book update with a missing or empty side is
    skipped and leaves the whole engine state as it was.  One whose mid
    price is not positive schedules no scan and leaves the bar aggregators,
    the candidates, the position, the risk state and the snapshots of the
    other instruments as they were; the snapshot of its own instrument is
    overwritten with the quote.  Trade prints without a positive price add
    no tick: snapshots, candidates and position are as they were, and so is
    every aggregator, except that an instrument that had none gets a fresh
    empty one. *)
Theorem ingestion_anomalies_skipped
    (cfg : Config) (s : Sniper) (inst_id : string) (now : Qc) :
  (∀ bbo rest,
     usable_side (bbo_bids bbo) = false ∨ usable_side (bbo_asks bbo) = false →
     handle_bbo_data cfg s inst_id (bbo :: rest) now = (s, Ret []))
  ∧ (∀ bids asks rest bid ask,
       let bbo := {| bbo_bids := Some bids; bbo_asks := Some asks |} in
       best_px (Some bids) = Some bid → best_px (Some asks) = Some ask →
       ((bid + ask) / qc 2 1 ≤ 0)%Qc →
       let r := handle_bbo_data cfg s inst_id (bbo :: rest) now in
       r.2 = Ret []
       ∧ bar_aggregators r.1 = bar_aggregators s
       ∧ armed_candidates r.1 = armed_candidates s
       ∧ active_position r.1 = active_position s
       ∧ risk_manager r.1 = risk_manager s
       ∧ (∀ other, other ≠ inst_id → pairs_data r.1 !! other = pairs_data s !! other)
       ∧ (pairs_data r.1 !! inst_id ≫= pd_best_bid) = Some bid
       ∧ (pairs_data r.1 !! inst_id ≫= pd_best_ask) = Some ask
       ∧ (pairs_data r.1 !! inst_id ≫= pd_order_book)
         = Some {| ob_bids := bids; ob_asks := asks |})
  ∧ (∀ trades,
       Forall (λ tr, ∀ p, tr_px tr = Some p → (p ≤ 0)%Qc) trades →
       let s' := handle_trade_data cfg s inst_id trades in
       pairs_data s' = pairs_data s
       ∧ armed_candidates s' = armed_candidates s
       ∧ active_position s' = active_position s
       ∧ risk_manager s' = risk_manager s
       ∧ (∀ other, other ≠ inst_id →
            bar_aggregators s' !! other = bar_aggregators s !! other)
       ∧ bar_aggregators s' !! inst_id
         = Some (default (BarAggregator.init (BAR_SAMPLING_SEC cfg) (BAR_HISTORY_MAX cfg))
                         (bar_aggregators s !! inst_id))).
Proof.
  split; [| split].
  - intros [bids asks] rest Hside. unfold handle_bbo_data. simpl in *.
    destruct bids as [[| [| b0 lb] bids] |]; destruct asks as [[| [| a0 la] asks] |];
      simpl in Hside; try done; by destruct Hside.
  - intros bids asks rest bid ask bbo Hbid Hask Hmid r. subst r bbo.
    unfold handle_bbo_data. simpl in *.
    destruct bids as [| [| b0 lb] bids]; try done.
    destruct asks as [| [| a0 la] asks]; try done.
    simpl in Hbid, Hask. injection Hbid as ->. injection Hask as ->.
    apply qlt_false in Hmid. rewrite Hmid. simpl.
    repeat split; try done.
    + intros other Hne. by rewrite lookup_insert_ne.
    + by rewrite lookup_insert_eq.
    + by rewrite lookup_insert_eq.
    + by rewrite lookup_insert_eq.
  - intros trades Htrades s'. subst s'. unfold handle_trade_data.
    rewrite fold_trade_nonpositive by done. simpl.
    repeat split; try done.
    + intros other Hne. by rewrite lookup_insert_ne.
    + by rewrite lookup_insert_eq.
Qed.

Lemma ingestion_anomalies_skipped_witness :
  handle_bbo_data config example_sniper "BTC-USDT"
    [ {| bbo_bids := Some [[qc 100 1; qc 1 1]]; bbo_asks := Some [] |} ] (qc 15 1)
  = (example_sniper, Ret [])
  ∧ armed_candidates
      (handle_bbo_data config example_sniper "BTC-USDT" [zero_quote] (qc 15 1)).1
    = armed_candidates example_sniper
  ∧ bar_aggregators
      (handle_trade_data config example_sniper "BTC-USDT"
         [ {| tr_px := Some 0%Qc; tr_sz := Some (qc 1 1); tr_now := qc 15 1 |} ])
    !! "BTC-USDT"
    = bar_aggregators example_sniper !! "BTC-USDT".
Proof.
  destruct (ingestion_anomalies_skipped config example_sniper "BTC-USDT" (qc 15 1))
    as (Hside & Hmid & Htrade).
  split; [| split].
  - apply Hside. by right.
  - apply (Hmid [[0%Qc; qc 1 1]] [[0%Qc; qc 1 1]] [] 0%Qc 0%Qc); try reflexivity.
    by vm_compute.
  - destruct (Htrade [ {| tr_px := Some 0%Qc; tr_sz := Some (qc 1 1); tr_now := qc 15 1 |} ])
      as (_ & _ & _ & _ & _ & ->).
    + constructor; [| constructor]. intros p [= <-]. by vm_compute.
    + reflexivity.
Defined.

(** ** The event loop: what each function does to candidates and position *)

Lemma check_setup_conditions_footprint cfg s inst_id now :
  let s' := (check_setup_conditions cfg s inst_id now).1 in
  active_position s' = active_position s ∧
  ((armed_candidates s' = armed_candidates s ∧ next_obj s' = next_obj s) ∨
   (∃ c, armed_candidates s' = <[inst_id := c]> (armed_candidates s) ∧
         cand_obj c = next_obj s ∧ next_obj s' = S (next_obj s))).
Proof.
  unfold check_setup_conditions.
  destruct (setup_breakout cfg s inst_id) as [[out | [[[agg cur] hi] bb]] | e];
    simpl; [by auto | | by auto].
  set (s1 := if qlt 0 (BREAKOUT_DEAD_ZONE_BPS cfg) then _ else s).
  assert (active_position s1 = active_position s ∧
          armed_candidates s1 = armed_candidates s ∧ next_obj s1 = next_obj s)
    as (Ha & Hc & Hn) by (subst s1; by destruct (qlt 0 _)).
  destruct (setup_targets _ _ _ _ _ _) as [[out | c] | e] eqn:Ht; simpl.
  - rewrite Ha, Hc, Hn. auto.
  - split; [done |]. right. exists c. rewrite Hc, <- Hn.
    destruct (setup_targets_armed _ _ _ _ _ _ _ Ht) as (_ & Hobj & _). done.
  - rewrite Ha, Hc, Hn. auto.
Qed.

Lemma execution_locked_footprint float_pow math_log cfg s inst_id now :
  let r := execution_locked float_pow math_log cfg s inst_id now in
  active_position r.1 = active_position s ∧
  next_obj r.1 = next_obj s ∧
  match r.2 with
  | Promoted signal =>
      active_position s = None ∧
      armed_candidates r.1 = delete inst_id (armed_candidates s) ∧
      ∃ c, armed_candidates s !! inst_id = Some c ∧ cand_obj signal = cand_obj c
  | _ =>
      armed_candidates r.1 = armed_candidates s ∨
      armed_candidates r.1 = delete inst_id (armed_candidates s)
  end.
Proof.
  unfold execution_locked.
  destruct (active_position s) eqn:Hpos; [simpl; by auto |].
  destruct (armed_candidates s !! inst_id) as [c |] eqn:Hc; [| simpl; by auto].
  destruct (qlt _ _); [simpl; by auto |].
  destruct (RiskManager.can_open_position _ _ _ _ _) as [rm [can reason]].
  destruct can; simpl; [| by auto].
  destruct (confirmations _ _ _ _ _) as [[reason' | imb] | e]; simpl; try by auto.
  repeat split; try done. by exists c.
Qed.

Lemma handle_bbo_data_footprint cfg s inst_id bbo_data_list now :
  let s' := (handle_bbo_data cfg s inst_id bbo_data_list now).1 in
  active_position s' = active_position s ∧
  armed_candidates s' = armed_candidates s ∧
  next_obj s' = next_obj s.
Proof.
  unfold handle_bbo_data.
  destruct bbo_data_list as [| [bids asks] rest]; [done |]. simpl.
  destruct bids as [[| [| b0 lb] bids] |]; try done.
  destruct asks as [[| [| a0 la] asks] |]; try done.
  destruct (qlt 0 _); [| done].
  by destruct (BarAggregator.add_tick _ _ _ _ _).
Qed.

(** ** The event loop: bookkeeping of the task list *)


Lemma task_split (ts : list Task) k t :
  ts !! k = Some t →
  ∃ l1 l2, ts = l1 ++ t :: l2 ∧ delete k ts = l1 ++ l2 ∧
           ∀ t', <[k := t']> ts = l1 ++ t' :: l2.
Proof.
  intros Hk. exists (take k ts), (drop (S k) ts). split; [| split].
  - by rewrite take_drop_middle.
  - apply delete_take_drop.
  - intros t'. apply insert_take_drop. by eapply lookup_lt_Some.
Qed.

Lemma holders_app ts1 ts2 : holders (ts1 ++ ts2) = holders ts1 + holders ts2.
Proof. apply sum_list_with_app. Qed.

Lemma holders_cons t ts : holders (t :: ts) = (if holding t then 1 else 0) + holders ts.
Proof. done. Qed.

Lemma holders_spawned (l : list Spawned) : holders (spawned_task <$> l) = 0.
Proof. induction l as [| [] l IH]; simpl; done. Qed.

Lemma holders_zero (ts : list Task) t : holders ts = 0 → t ∈ ts → holding t = false.
Proof.
  induction ts as [| t0 ts IH]; intros H Ht; [by apply elem_of_nil in Ht |].
  rewrite holders_cons in H. apply elem_of_cons in Ht as [-> | Ht].
  - destruct (holding t0); [lia | done].
  - apply IH; [lia | done].
Qed.


(** The effect of finishing or resuming the task at [k], on the holders of
    the lock and on the candidates that entry tasks carry. *)
Lemma holders_delete (ts : list Task) (k : nat) t :
  ts !! k = Some t → holders ts = (if holding t then 1 else 0) + holders (delete k ts).
Proof.
  intros (l1 & l2 & -> & -> & _)%task_split.
  rewrite !holders_app, holders_cons. lia.
Qed.

Lemma holders_insert (ts : list Task) (k : nat) t t' :
  ts !! k = Some t →
  holders (<[k := t']> ts) + (if holding t then 1 else 0)
  = holders ts + (if holding t' then 1 else 0).
Proof.
  intros (l1 & l2 & -> & _ & ->)%task_split.
  rewrite !holders_app, !holders_cons. lia.
Qed.




(** ** The event loop: the position lock *)

Section event_loop.

Variable cfg : Config.
Variable float_pow : Qc → Qc → Qc.
Variable math_log : Qc → Py Qc.


Lemma lock_inv_new : lock_inv new_world.
Proof. split; simpl; done. Qed.

Lemma entering_ok_idle pos t : holding t = false → entering_ok pos t.
Proof. intros H H'. congruence. Qed.

Lemma entering_ok_other pos t : enter_obj t = None → entering_ok pos t.
Proof. intros H _ [? H']. congruence. Qed.

Lemma entering_ok_none t : entering_ok None t.
Proof. by intros _ _. Qed.

Lemma holder_locks w k t :
  lock_inv w → tasks w !! k = Some t → holding t = true →
  position_lock w = true ∧ holders (delete k (tasks w)) = 0.
Proof.
  intros [_ Hh _] Hk Ht. rewrite (holders_delete _ _ _ Hk), Ht in Hh.
  destruct (position_lock w); [split; [done | lia] | lia].
Qed.

Lemma idle_tasks pos (ts : list Task) :
  holders ts = 0 → Forall (entering_ok pos) ts.
Proof.
  intros H. apply Forall_forall. intros t Ht.
  apply entering_ok_idle. by eapply holders_zero.
Qed.

Lemma release_and_finish_inv w k t :
  lock_inv w → tasks w !! k = Some t → holding t = true →
  lock_inv (release_and_finish k w).
Proof.
  intros Hinv Hk Ht. destruct (holder_locks _ _ _ Hinv Hk Ht) as [_ H0].
  destruct Hinv as [Ha _ He]. split; simpl; [done | done |].
  by apply Forall_delete.
Qed.

Lemma finish_idle_inv w k t :
  lock_inv w → tasks w !! k = Some t → holding t = false →
  lock_inv (finish k w).
Proof.
  intros [Ha Hh He] Hk Ht. split; simpl; [done | |].
  - rewrite (holders_delete _ _ _ Hk), Ht in Hh. done.
  - by apply Forall_delete.
Qed.

Lemma with_sniper_inv w s :
  lock_inv w → active_position s = active_position (sniper w) →
  lock_inv (with_sniper s w).
Proof. intros [Ha Hh He] Hs. split; simpl; rewrite ?Hs; done. Qed.

Lemma with_promoted_inv w l : lock_inv w → lock_inv (with_promoted l w).
Proof. by intros [Ha Hh He]. Qed.

Lemma spawn_idle_inv w ts :
  lock_inv w → holders ts = 0 → lock_inv (with_tasks (tasks w ++ ts) w).
Proof.
  intros [Ha Hh He] Hts. split; simpl; [done | |].
  - rewrite holders_app. lia.
  - apply Forall_app. split; [done | by apply idle_tasks].
Qed.

Lemma replace_idle_inv w k t t' :
  lock_inv w → tasks w !! k = Some t → holding t = false → holding t' = false →
  lock_inv (with_tasks (<[k := t']> (tasks w)) w).
Proof.
  intros [Ha Hh He] Hk Ht Ht'. split; simpl; [done | |].
  - pose proof (holders_insert _ _ _ t' Hk) as H. rewrite Ht, Ht' in H. lia.
  - apply Forall_insert; [done | by apply entering_ok_idle].
Qed.

Lemma acquire_inv w k t t' :
  lock_inv w → tasks w !! k = Some t → holding t = false → holding t' = true →
  position_lock w = false →
  entering_ok (active_position (sniper w)) t' →
  lock_inv (with_lock true (with_tasks (<[k := t']> (tasks w)) w)).
Proof.
  intros [Ha Hh He] Hk Ht Ht' Hl Hok. split; simpl; [done | |].
  - pose proof (holders_insert _ _ _ t' Hk) as H. rewrite Ht, Ht', Hl in *. lia.
  - by apply Forall_insert.
Qed.

Lemma step_lock_inv w a w' :
  lock_inv w → step cfg float_pow math_log w a = Some w' → lock_inv w'.
Proof.
  intros Hinv Hstep. destruct a; simpl in Hstep.
  - (* OnBbo *)
    destruct (handle_bbo_data cfg (sniper w) inst_id bbo_data_list now) as [s r] eqn:Hh.
    injection Hstep as <-.
    apply (spawn_idle_inv (with_sniper s w)); [| apply holders_spawned].
    apply with_sniper_inv; [done |].
    pose proof (handle_bbo_data_footprint cfg (sniper w) inst_id bbo_data_list now) as Hf.
    rewrite Hh in Hf. apply Hf.
  - (* OnTrades *)
    injection Hstep as <-. by apply with_sniper_inv.
  - (* OnBalance *)
    injection Hstep as <-. by apply with_sniper_inv.
  - (* OnMaintenance *)
    injection Hstep as <-. by apply spawn_idle_inv.
  - (* RunSetup *)
    destruct (tasks w !! k) as [[i | | |] |] eqn:Hk; try done.
    injection Hstep as <-.
    apply (finish_idle_inv (with_sniper _ w) k (TSetup i)); [| done | done].
    apply with_sniper_inv; [done |].
    apply (check_setup_conditions_footprint cfg (sniper w) i now).
  - (* RunExec *)
    destruct (tasks w !! k) as [[| i at_lock | |] |] eqn:Hk; try done.
    unfold exec_scan in Hstep. destruct at_lock.
    + destruct (position_lock w) eqn:Hl; [done |].
      pose proof (execution_locked_footprint float_pow math_log cfg (sniper w) i now) as Hf.
      destruct (execution_locked _ _ _ _ _ _) as [s out]. simpl in Hf.
      destruct Hf as (Hpos & _ & _).
      assert (lock_inv (finish k (with_sniper s w))) as Hinv1.
      { apply (finish_idle_inv _ k (TExec i true)); [| done | done].
        by apply with_sniper_inv. }
      destruct out; injection Hstep as <-; try done.
      apply with_promoted_inv.
      by apply (spawn_idle_inv (finish k (with_sniper s w)) [TEnter i c EnterQueued]).
    + destruct (execution_precheck _ _); injection Hstep as <-.
      * by apply (replace_idle_inv w k (TExec i false)).
      * by apply (finish_idle_inv w k (TExec i false)).
  - (* RunEnterAcquire *)
    destruct (tasks w !! k) as [[| | i c [| |] |] |] eqn:Hk; try done.
    unfold enter_acquire in Hstep.
    destruct (position_lock w) eqn:Hl; [done |].
    destruct (active_position (sniper w)) eqn:Hpos; injection Hstep as <-.
    + by apply (finish_idle_inv w k (TEnter i c EnterQueued)).
    + apply (acquire_inv w k (TEnter i c EnterQueued)); try done.
      rewrite Hpos. apply entering_ok_none.
  - (* RunEnterBalance *)
    destruct (tasks w !! k) as [[| | i c [| |] |] |] eqn:Hk; try done.
    injection Hstep as <-. unfold enter_balance.
    destruct r as [avail | e];
      [| by apply (release_and_finish_inv w k (TEnter i c EnterAwaitBalance))].
    set (s := set_usdt_balance _ _).
    assert (lock_inv (with_sniper s w)) as Hinv1 by (by apply with_sniper_inv).
    destruct (qlt _ _);
      [by apply (release_and_finish_inv _ k (TEnter i c EnterAwaitBalance)) |].
    destruct (py_truediv _ _) as [size_base | e];
      [| by apply (release_and_finish_inv _ k (TEnter i c EnterAwaitBalance))].
    destruct Hinv1 as [Ha Hh He]. split; simpl; [done | |].
    + pose proof (holders_insert (tasks w) k _
                    (TEnter i c (EnterAwaitOrder size_base entry_cl_ord_id)) Hk) as H.
      simpl in *. lia.
    + apply Forall_insert; [done |].
      by apply (proj1 (Forall_lookup _ _) He k _ Hk).
  - (* RunEnterOrder *)
    destruct (tasks w !! k) as [[| | i c [| | size cl] |] |] eqn:Hk; try done.
    injection Hstep as <-. unfold enter_order.
    destruct r as [oid aid err | e];
      [| by apply (release_and_finish_inv w k (TEnter i c (EnterAwaitOrder size cl)))].
    destruct (truthy_str err);
      [by apply (release_and_finish_inv w k (TEnter i c (EnterAwaitOrder size cl))) |].
    destruct (holder_locks w k _ Hinv Hk eq_refl) as [Hl H0].
    destruct Hinv as [Ha Hh He].
    assert (active_position (sniper w) = None) as Hnone.
    { apply (proj1 (Forall_lookup _ _) He k _ Hk); [done | by eexists]. }
    split; simpl.
    + rewrite Ha, Hnone. done.
    + done.
    + by apply idle_tasks.
  - (* RunMaintainAcquire *)
    destruct (tasks w !! k) as [[| | | []] |] eqn:Hk; try done.
    destruct (position_lock w) eqn:Hl; [done |]. injection Hstep as <-.
    apply (acquire_inv w k (TMaintain false)); try done.
    by apply entering_ok_other.
  - (* RunMaintainMutate *)
    destruct (tasks w !! k) as [[| | | []] |] eqn:Hk; try done.
    injection Hstep as <-. destruct Hinv as [Ha Hh He].
    unfold maintain_mutate. split; simpl; [| done |].
    + rewrite Ha. destruct (active_position (sniper w)) as [p |]; simpl; [| done].
      by destruct (upd p).
    + eapply Forall_impl; [exact He |]. intros t Hok H1 H2.
      by rewrite (Hok H1 H2).
  - (* RunMaintainRelease *)
    destruct (tasks w !! k) as [[| | | []] |] eqn:Hk; try done.
    injection Hstep as <-.
    by apply (release_and_finish_inv w k (TMaintain true)).
Qed.

Lemma run_lock_inv schedule w w' :
  lock_inv w → run cfg float_pow math_log w schedule = Some w' → lock_inv w'.
Proof.
  revert w. induction schedule as [| a rest IH]; intros w Hinv Hrun; simpl in Hrun.
  - by injection Hrun as <-.
  - destruct (step cfg float_pow math_log w a) as [w1 |] eqn:Hstep; [| done].
    eapply IH; [| exact Hrun]. by eapply step_lock_inv.
Qed.

End event_loop.

Lemma holders_unique (ts : list Task) k1 k2 t1 t2 :
  holders ts ≤ 1 → ts !! k1 = Some t1 → ts !! k2 = Some t2 →
  holding t1 = true → holding t2 = true → k1 = k2.
Proof.
  intros Hh H1 H2 Ht1 Ht2.
  destruct (decide (k1 = k2)) as [| Hne]; [done | exfalso].
  rewrite (holders_delete _ _ _ H1), Ht1 in Hh.
  assert (t2 ∈ delete k1 ts) as Hin.
  { apply list_elem_of_lookup.
    destruct (decide (k2 < k1)).
    - exists k2. by rewrite list_lookup_delete_lt.
    - exists (pred k2). rewrite list_lookup_delete_ge by lia.
      by replace (S (pred k2)) with k2 by lia. }
  assert (holding t2 = false) by (eapply holders_zero; [| exact Hin]; lia).
  congruence.
Qed.

(** C1.  In every state that any schedule of the event loop reaches from
    the start: at most one position is alive (created and not discarded);
    a task that is inside the position lock is the only one, and the lock
    is then taken; and an [enter_position] task that has passed its check
    and is suspended in [update_balance] or in the entry-submission call
    holds the lock and sees no active position, so the position it commits
    overwrites none. *)
Theorem single_position_under_lock
    (cfg : Config) (float_pow : Qc → Qc → Qc) (math_log : Qc → Py Qc)
    (schedule : list Action) (w : World) :
  run cfg float_pow math_log new_world schedule = Some w →
  positions_alive w ≤ 1
  ∧ (is_Some (active_position (sniper w)) ↔ positions_alive w = 1)
  ∧ (∀ k t, tasks w !! k = Some t → holding t = true →
       position_lock w = true
       ∧ ∀ k' t', tasks w !! k' = Some t' → holding t' = true → k' = k)
  ∧ (∀ k inst_id signal pc,
       tasks w !! k = Some (TEnter inst_id signal pc) → pc ≠ EnterQueued →
       position_lock w = true ∧ active_position (sniper w) = None)
  ∧ (∀ k inst_id signal size_base cl r now w',
       tasks w !! k = Some (TEnter inst_id signal (EnterAwaitOrder size_base cl)) →
       step cfg float_pow math_log w (RunEnterOrder k r now) = Some w' →
       positions_alive w = 0 ∧ position_lock w' = false).
Proof.
  intros Hrun.
  pose proof (run_lock_inv cfg float_pow math_log schedule _ _ lock_inv_new Hrun)
    as Hinv.
  assert (∀ k t, tasks w !! k = Some t → holding t = true → position_lock w = true)
    as Hlocked.
  { intros k t Hk Ht. by destruct (holder_locks w k t Hinv Hk Ht). }
  assert (∀ k inst_id signal pc,
            tasks w !! k = Some (TEnter inst_id signal pc) → pc ≠ EnterQueued →
            active_position (sniper w) = None) as Hnone.
  { intros k i c pc Hk Hpc. destruct Hinv as [_ _ He].
    apply (proj1 (Forall_lookup _ _) He k _ Hk); [by destruct pc | by eexists]. }
  destruct Hinv as [Ha Hh He].
  split; [| split; [| split; [| split]]].
  - rewrite Ha. destruct (active_position (sniper w)); lia.
  - rewrite Ha. destruct (active_position (sniper w)); split; try done;
      try (by intros [? ?]); by eexists.
  - intros k t Hk Ht. split; [by eapply Hlocked |].
    intros k' t' Hk' Ht'. eapply (holders_unique (tasks w)); try done.
    rewrite Hh. destruct (position_lock w); lia.
  - intros k i c pc Hk Hpc. split; [| by eapply Hnone].
    eapply Hlocked; [exact Hk |]. by destruct pc.
  - intros k i c size cl r now w' Hk Hstep.
    rewrite Ha, (Hnone _ _ _ _ Hk) by done. split; [done |].
    simpl in Hstep. rewrite Hk in Hstep. injection Hstep as <-.
    unfold enter_order. destruct r as [? ? err |]; [destruct (truthy_str err) |]; done.
Qed.

Lemma single_position_under_lock_witness :
  ∃ w, run short_config no_pow no_log new_world example_schedule = Some w
       ∧ positions_alive w ≤ 1
       ∧ (pos_inst_id <$> active_position (sniper w)) = Some "BTC-USDT"
       ∧ promoted w = [0; 1].
Proof.
  destruct (run short_config no_pow no_log new_world example_schedule) as [w |] eqn:Hrun;
    [| vm_compute in Hrun; discriminate Hrun].
  exists w. split; [done |].
  destruct (single_position_under_lock short_config no_pow no_log example_schedule w Hrun)
    as (Halive & _).
  split; [done |].
  vm_compute in Hrun. injection Hrun as <-. split; reflexivity.
Defined.

(** ** The event loop: candidates *)

Section candidates.

Variable cfg : Config.
Variable float_pow : Qc → Qc → Qc.
Variable math_log : Qc → Py Qc.










End candidates.




(** ** Worked evaluations of the embedding *)

Example example_ticks_closes :
  (BarAggregator.bar_close <$>
     except_all (BarAggregator.bars <$> BarAggregator.add_ticks (BarAggregator.init 1 2)
                                          example_ticks) [])
  = [qc 12 1; qc 9 1].
Proof. vm_compute. reflexivity. Qed.

Example example_ticks_volumes :
  (BarAggregator.bar_volume <$>
     except_all (BarAggregator.bars <$> BarAggregator.add_ticks (BarAggregator.init 1 2)
                                          example_ticks) [])
  = [0%Qc; qc 3 1].
Proof. vm_compute. reflexivity. Qed.

(** A breakout of half a basis point under a minimum of 1.5 is turned down
    as weak. *)
Example weak_breakout_rejected :
  (check_setup_conditions config
     (set_bar_aggregators
        <["BTC-USDT" :=
            {| BarAggregator.bar_period := qc 1 1; BarAggregator.max_bars := 400;
               BarAggregator.bars :=
                 ((λ i : nat, BarAggregator.mkBar (Qc_of_Z (Z.of_nat i))
                     (qc 100 1) (qc 1005 10) (qc 995 10) (qc 100 1) 0%Qc) <$> seq 0 14)
                 ++ [BarAggregator.mkBar (qc 14 1) (qc 100 1) (qc 100005 1000)
                       (qc 100 1) (qc 100005 1000) 0%Qc];
               BarAggregator.current_bar := None;
               BarAggregator.current_bar_start := qc 14 1;
               BarAggregator.trade_volumes := [] |}]>
        new_sniper)
     "BTC-USDT" (qc 15 1)).2
  = Rejected "Setup" "Weak Breakout".
Proof. vm_compute. reflexivity. Qed.

(** A sound quote is stored whole and schedules both scans. *)
Example sound_quote_handled :
  let r := handle_bbo_data config new_sniper "BTC-USDT" [quote (qc 100 1)] (qc 5 10) in
  r.2 = Ret [SetupScan "BTC-USDT"; ExecScan "BTC-USDT"]
  ∧ (pairs_data r.1 !! "BTC-USDT" ≫= pd_order_book)
    = Some {| ob_bids := [[(qc 100 1 - qc 5 100)%Qc; qc 10 1]];
              ob_asks := [[(qc 100 1 + qc 5 100)%Qc; qc 5 1]] |}
  ∧ (BarAggregator.len <$> bar_aggregators r.1 !! "BTC-USDT") = Some 0.
Proof. vm_compute. repeat split; reflexivity. Qed.

(** With its four required arguments [place_market_order] reports the
    refusal of the exchange; with the three that [force_close_position]
    passes it does not get that far. *)
Example place_market_order_refused :
  OrderManager.place_market_order example_meta order_rejected
    [VStr "BTC-USDT"; VStr "sell"; VNum (qc 2 10); VStr "MS86BTC2"]
  = Ret (None, Some "Operation failed").
Proof. reflexivity. Qed.

Example place_market_order_three_arguments :
  OrderManager.place_market_order example_meta order_rejected
    [VStr "BTC-USDT"; VStr "sell"; VNum (qc 2 10)]
  = Raise TypeError.
Proof. reflexivity. Qed.

Example compute_zscore_example (float_pow : Qc → Qc → Qc) :
  compute_zscore float_pow example_returns = 0%Qc.
Proof. apply compute_zscore_zero. Qed.

(** ** Supporting facts *)

(** Overflow evicts from the old end: a call of [add_tick] leaves the closed
    bars as they are, or appends one and keeps the newest [max_bars]. *)
Lemma add_tick_evicts_oldest a now time_offset price volume a' :
  BarAggregator.add_tick a now time_offset price volume = Ret a' →
  BarAggregator.bars a' = BarAggregator.bars a
  ∨ ∃ b, BarAggregator.bars a'
         = last_n (BarAggregator.max_bars a) (BarAggregator.bars a ++ [b]).
Proof.
  unfold BarAggregator.add_tick.
  intros (bucket & _ & H)%py_bind_ret.
  destruct (_ || _).
  - simpl in H. injection H as <-. simpl.
    destruct (BarAggregator.current_bar a); [right; by eexists | by left].
  - destruct (BarAggregator.current_bar a) as [[[[[s o] h] l] c] |]; [| done].
    injection H as <-. by left.
Qed.

(** [force_close_position] is one of the lock users that the event loop
    knows as maintenance: it updates or clears the position that is there,
    creates none, and leaves the candidates alone. *)
Lemma force_close_position_maintains meta s reason cancel_res order_res :
  let s' := (force_close_position meta s reason cancel_res order_res).1 in
  armed_candidates s' = armed_candidates s
  ∧ ∃ upd : Position → option Position,
      active_position s' = active_position s ≫= upd.
Proof.
  unfold force_close_position.
  destruct (active_position s) as [pos |] eqn:Hpos;
    [| simpl; split; [done | by exists Some]].
  case_bool_decide; [simpl; split; [done | exists Some; by rewrite Hpos] |].
  destruct (if truthy_str _ then _ else _) as [? | e]; simpl;
    [| split; [done | by eexists (λ _, Some _)]].
  destruct (negb _); simpl; [split; [done | by exists (λ _, None)] |].
  split; [done | by eexists (λ _, Some _)].
Qed.

(** * Further properties of the code *)

(** ** BarAggregator: the shape of a bar *)

Lemma py_max_ge_l a b : (a ≤ py_max a b)%Qc.
Proof.
  unfold py_max. destruct (qlt a b) eqn:H; [| apply Qcle_refl].
  apply qlt_true in H. by apply Qclt_le_weak.
Qed.

Lemma py_max_ge_r a b : (b ≤ py_max a b)%Qc.
Proof.
  unfold py_max. destruct (qlt a b) eqn:H; [apply Qcle_refl |].
  by apply qlt_false in H.
Qed.

Lemma py_min_le_l a b : (py_min a b ≤ a)%Qc.
Proof.
  unfold py_min. destruct (qlt b a) eqn:H; [| apply Qcle_refl].
  apply qlt_true in H. by apply Qclt_le_weak.
Qed.

Lemma py_min_le_r a b : (py_min a b ≤ b)%Qc.
Proof.
  unfold py_min. destruct (qlt b a) eqn:H; [apply Qcle_refl |].
  by apply qlt_false in H.
Qed.

Lemma add_tick_ordered a now offset price volume :
  BarAggregator.bar_period a ≠ 0%Qc →
  float_overflows (now + offset) = false →
  float_overflows ((now + offset) / BarAggregator.bar_period a) = false →
  aggregator_ordered a →
  ∃ a', BarAggregator.add_tick a now offset price volume = Ret a'
        ∧ BarAggregator.bar_period a' = BarAggregator.bar_period a
        ∧ aggregator_ordered a'.
Proof.
  intros Hp Hnow Hq [Hbars Hcur].
  unfold BarAggregator.add_tick, BarAggregator.bucket_of, py_truediv.
  destruct (decide (BarAggregator.bar_period a = 0%Qc)); [done |].
  cbn [mbind Py_bind py_bind]. rewrite Hnow, Hq. simpl.
  assert (∀ o h l, ohlc_ordered o h l o → ohlc_ordered o (py_max h price) (py_min l price) price)
    as Hstep.
  { intros o h l (H1 & H2 & _ & _). repeat split.
    - trans l; [apply py_min_le_l | done].
    - trans h; [done | apply py_max_ge_l].
    - apply py_min_le_r.
    - apply py_max_ge_r. }
  destruct (BarAggregator.current_bar a) as [[[[[s o] h] l] c] |] eqn:Hc.
  - rewrite bool_decide_eq_false_2 by done. simpl.
    destruct (qlt _ _); simpl.
    + eexists. split; [reflexivity |]. split; [done |]. split; simpl.
      * apply last_n_Forall, Forall_app. split; [done |].
        constructor; [| constructor]. exact Hcur.
      * apply Hstep. repeat split; apply Qcle_refl.
    + rewrite Hc. eexists. split; [reflexivity |]. split; [done |]. split; simpl; [done |].
      destruct Hcur as (H1 & H2 & H3 & H4). repeat split.
      * trans l; [apply py_min_le_l | done].
      * trans h; [done | apply py_max_ge_l].
      * apply py_min_le_r.
      * apply py_max_ge_r.
  - simpl. eexists. split; [reflexivity |]. split; [done |]. split; simpl; [done |].
    apply Hstep. repeat split; apply Qcle_refl.
Qed.

Lemma add_ticks_ordered ks : ∀ a,
  BarAggregator.bar_period a ≠ 0%Qc →
  Forall (BarAggregator.tick_in_range (BarAggregator.bar_period a)) ks →
  aggregator_ordered a →
  ∃ a', BarAggregator.add_ticks a ks = Ret a' ∧ aggregator_ordered a'.
Proof.
  induction ks as [| k ks IH]; intros a Hp Hrange Ha; simpl.
  - by exists a.
  - apply Forall_cons in Hrange as [[Hnow Hq] Hrange].
    destruct (add_tick_ordered a (BarAggregator.tick_now k) (BarAggregator.tick_offset k)
                (BarAggregator.tick_price k) (BarAggregator.tick_volume k) Hp Hnow Hq Ha)
      as (a1 & -> & Hp1 & Ha1).
    simpl. apply IH; [by rewrite Hp1 | by rewrite Hp1 | done].
Qed.

Lemma add_ticks_leaves_bar ks : ∀ a a',
  BarAggregator.add_ticks a ks = Ret a' → ks ≠ [] →
  BarAggregator.current_bar a' ≠ None.
Proof.
  induction ks as [| k ks _] using rev_ind; intros a a' Hrun Hne; [done |].
  rewrite add_ticks_snoc in Hrun.
  apply py_bind_ret in Hrun as (a1 & _ & Hlast).
  unfold BarAggregator.add_tick in Hlast.
  apply py_bind_ret in Hlast as (bucket & _ & Hlast).
  match type of Hlast with
  | match BarAggregator.current_bar ?x with _ => _ end = _ =>
      destruct (BarAggregator.current_bar x) as [[[[[s o] h] l] c] |]; [| done]
  end.
  injection Hlast as <-. done.
Qed.

(** X1.  With a non-zero bar period and the clock within the range of the
    floats, [add_tick] returns on every tick, in whatever order the clock
    readings come, and every bar it closes, like the bar in progress, has
    low ≤ open ≤ high and low ≤ close ≤ high. *)
Theorem add_tick_ohlc_ordered
    (period : Qc) (capacity : nat) (ks : list BarAggregator.Tick) :
  period ≠ 0%Qc →
  Forall (BarAggregator.tick_in_range period) ks →
  ∃ a, BarAggregator.add_ticks (BarAggregator.init period capacity) ks = Ret a
       ∧ Forall (λ b, (BarAggregator.bar_low b ≤ BarAggregator.bar_open b)%Qc
                      ∧ (BarAggregator.bar_open b ≤ BarAggregator.bar_high b)%Qc
                      ∧ (BarAggregator.bar_low b ≤ BarAggregator.bar_close b)%Qc
                      ∧ (BarAggregator.bar_close b ≤ BarAggregator.bar_high b)%Qc)
                (BarAggregator.bars a)
       ∧ match BarAggregator.current_bar a with
         | Some (_, o, h, l, c) => (l ≤ o)%Qc ∧ (o ≤ h)%Qc ∧ (l ≤ c)%Qc ∧ (c ≤ h)%Qc
         | None => ks = []
         end.
Proof.
  intros Hp Hrange.
  destruct (add_ticks_ordered ks (BarAggregator.init period capacity) Hp Hrange)
    as (a & Hrun & Hbars & Hcur); [by split |].
  exists a. split; [done |]. split; [exact Hbars |].
  destruct (BarAggregator.current_bar a) as [[[[[s o] h] l] c] |] eqn:Hc; [exact Hcur |].
  destruct ks as [| k ks]; [done | exfalso].
  by apply (add_ticks_leaves_bar (k :: ks) _ _ Hrun).
Qed.

Lemma add_tick_ohlc_ordered_witness :
  ∃ a, BarAggregator.add_ticks (BarAggregator.init 1 2) example_ticks = Ret a
       ∧ Forall (λ b, (BarAggregator.bar_low b ≤ BarAggregator.bar_open b)%Qc
                      ∧ (BarAggregator.bar_open b ≤ BarAggregator.bar_high b)%Qc
                      ∧ (BarAggregator.bar_low b ≤ BarAggregator.bar_close b)%Qc
                      ∧ (BarAggregator.bar_close b ≤ BarAggregator.bar_high b)%Qc)
                (BarAggregator.bars a)
       ∧ match BarAggregator.current_bar a with
         | Some (_, o, h, l, c) => (l ≤ o)%Qc ∧ (o ≤ h)%Qc ∧ (l ≤ c)%Qc ∧ (c ≤ h)%Qc
         | None => example_ticks = []
         end.
Proof.
  apply (add_tick_ohlc_ordered 1 2 example_ticks).
  - intros H. discriminate H.
  - repeat (constructor; try (split; reflexivity)).
Defined.

(** The totality in X1 rests on the range: with a period of [10^-310] the
    quotient of an ordinary clock reading leaves the floats and [add_tick]
    raises [OverflowError]. *)
Example add_tick_overflows :
  BarAggregator.add_tick (BarAggregator.init (qc 1 (10 ^ 310)) 400)
    (qc 1700000000 1) 0 (qc 100 1) 0
  = Raise OverflowError.
Proof. vm_compute. reflexivity. Qed.

Lemma last_cons_default {A} (l : list A) : ∀ x d,
  List.last (x :: l) d = List.last l x.
Proof.
  induction l as [| y l IH]; intros x d; [done |].
  change (List.last (x :: y :: l) d) with (List.last (y :: l) d).
  by rewrite !IH.
Qed.

Lemma add_ticks_same_bucket ks : ∀ a s o h l c,
  BarAggregator.current_bar a = Some (s, o, h, l, c) →
  BarAggregator.current_bar_start a = s →
  Forall (λ k, BarAggregator.bucket_of (BarAggregator.bar_period a)
                 (BarAggregator.server_time k) = Ret s) ks →
  BarAggregator.add_ticks a ks =
  Ret {| BarAggregator.bar_period := BarAggregator.bar_period a;
         BarAggregator.max_bars := BarAggregator.max_bars a;
         BarAggregator.bars := BarAggregator.bars a;
         BarAggregator.current_bar :=
           Some (s, o,
                 foldl py_max h (BarAggregator.tick_price <$> ks),
                 foldl py_min l (BarAggregator.tick_price <$> ks),
                 List.last (BarAggregator.tick_price <$> ks) c);
         BarAggregator.current_bar_start := s;
         BarAggregator.trade_volumes :=
           BarAggregator.trade_volumes a
           ++ filter (λ v, (0 < v)%Qc) (BarAggregator.tick_volume <$> ks) |}.
Proof.
  induction ks as [| k ks IH]; intros a s o h l c Hc Hs Hks.
  - simpl. rewrite app_nil_r. destruct a; simpl in *. by rewrite Hc, Hs.
  - apply Forall_cons in Hks as [Hk Hks].
    cbn [BarAggregator.add_ticks].
    unfold BarAggregator.add_tick.
    change (BarAggregator.tick_now k + BarAggregator.tick_offset k)%Qc
      with (BarAggregator.server_time k).
    rewrite Hk. cbn [mbind Py_bind py_bind].
    rewrite Hc, Hs.
    rewrite bool_decide_eq_false_2 by done.
    assert (qlt s s = false) as ->.
    { apply bool_decide_eq_false_2, Qcle_not_lt, Qcle_refl. }
    cbn [orb]. rewrite Hc. cbn [mbind Py_bind py_bind].
    erewrite IH; [| reflexivity | done | done].
    cbn [BarAggregator.bar_period BarAggregator.max_bars BarAggregator.bars
         BarAggregator.trade_volumes].
    f_equal. f_equal.
    + by rewrite fmap_cons, last_cons_default.
    + unfold qlt. rewrite fmap_cons, filter_cons.
      destruct (decide (0 < BarAggregator.tick_volume k)%Qc).
      * rewrite bool_decide_eq_true_2 by done. by rewrite <- app_assoc.
      * by rewrite bool_decide_eq_false_2 by done.
Qed.

(** X2.  Ticks that fall in one time bucket build one bar and close none:
    after a first tick [k] and further ticks [ks] for which the code
    computes the same bucket, the bar in progress opens at the price of
    [k], its high and low are the running maximum and minimum of the
    prices, its close is the last price, and exactly the positive volumes
    are kept for the bar's volume. *)
Theorem add_tick_within_bucket
    (period : Qc) (capacity : nat) (k : BarAggregator.Tick)
    (ks : list BarAggregator.Tick) (bucket : Qc) :
  Forall (λ k', BarAggregator.bucket_of period (BarAggregator.server_time k')
                = Ret bucket) (k :: ks) →
  BarAggregator.add_ticks (BarAggregator.init period capacity) (k :: ks) =
  Ret {| BarAggregator.bar_period := period;
         BarAggregator.max_bars := capacity;
         BarAggregator.bars := [];
         BarAggregator.current_bar :=
           Some (bucket,
                 BarAggregator.tick_price k,
                 foldl py_max (BarAggregator.tick_price k)
                       (BarAggregator.tick_price <$> ks),
                 foldl py_min (BarAggregator.tick_price k)
                       (BarAggregator.tick_price <$> ks),
                 List.last (BarAggregator.tick_price <$> ks)
                           (BarAggregator.tick_price k));
         BarAggregator.current_bar_start := bucket;
         BarAggregator.trade_volumes :=
           filter (λ v, (0 < v)%Qc) (BarAggregator.tick_volume <$> k :: ks) |}.
Proof.
  intros Hall. apply Forall_cons in Hall as [Hk Hks].
  cbn [BarAggregator.add_ticks].
  unfold BarAggregator.add_tick at 1.
  cbn [BarAggregator.init BarAggregator.bar_period].
  change (BarAggregator.tick_now k + BarAggregator.tick_offset k)%Qc
    with (BarAggregator.server_time k).
  rewrite Hk.
  cbn [mbind Py_bind py_bind BarAggregator.current_bar].
  rewrite bool_decide_eq_true_2 by done.
  cbn [orb BarAggregator.current_bar BarAggregator.trade_volumes
       BarAggregator.bar_period BarAggregator.max_bars BarAggregator.bars
       BarAggregator.current_bar_start].
  assert (py_max (BarAggregator.tick_price k) (BarAggregator.tick_price k)
          = BarAggregator.tick_price k) as ->.
  { unfold py_max. by destruct (qlt _ _). }
  assert (py_min (BarAggregator.tick_price k) (BarAggregator.tick_price k)
          = BarAggregator.tick_price k) as ->.
  { unfold py_min. by destruct (qlt _ _). }
  cbn [mbind Py_bind py_bind].
  erewrite add_ticks_same_bucket; [| reflexivity | reflexivity | done].
  cbn [BarAggregator.bar_period BarAggregator.max_bars BarAggregator.bars
       BarAggregator.trade_volumes].
  f_equal. f_equal.
  rewrite fmap_cons, filter_cons. unfold qlt.
  destruct (decide (0 < BarAggregator.tick_volume k)%Qc).
  - by rewrite bool_decide_eq_true_2 by done.
  - by rewrite bool_decide_eq_false_2 by done.
Qed.

Lemma add_tick_within_bucket_witness :
  BarAggregator.add_ticks (BarAggregator.init 1 2)
    (BarAggregator.mkTick (qc 2 10) 0 (qc 10 1) 0
     :: [BarAggregator.mkTick (qc 7 10) 0 (qc 11 1) (qc 1 1)]) =
  Ret {| BarAggregator.bar_period := 1;
         BarAggregator.max_bars := 2;
         BarAggregator.bars := [];
         BarAggregator.current_bar :=
           Some (0%Qc,
                 qc 10 1,
                 foldl py_max (qc 10 1) [qc 11 1],
                 foldl py_min (qc 10 1) [qc 11 1],
                 List.last [qc 11 1] (qc 10 1));
         BarAggregator.current_bar_start := 0%Qc;
         BarAggregator.trade_volumes :=
           filter (λ v, (0 < v)%Qc) [0%Qc; qc 1 1] |}.
Proof.
  apply (add_tick_within_bucket 1 2
           (BarAggregator.mkTick (qc 2 10) 0 (qc 10 1) 0)
           [BarAggregator.mkTick (qc 7 10) 0 (qc 11 1) (qc 1 1)] 0%Qc).
  repeat constructor; f_equal; qc_eq.
Defined.

(** X3.  [get_closes(n)] is the close column of [get_bars(n)]: the last
    [min(n, len)] closed bars in order when [n] is positive, and every
    closed bar when [n] is zero or absent. *)
Theorem get_closes_get_bars (a : BarAggregator.t) (n : option nat) :
  BarAggregator.get_closes a n
  = BarAggregator.bar_close <$> BarAggregator.get_bars a n
  ∧ BarAggregator.get_bars a n `suffix_of` BarAggregator.bars a
  ∧ length (BarAggregator.get_bars a n)
    = match n with
      | Some (S k) => S k `min` BarAggregator.len a
      | _ => BarAggregator.len a
      end.
Proof.
  unfold BarAggregator.get_closes, BarAggregator.get_bars, BarAggregator.len.
  destruct n as [[| k] |]; cbn [tail_slice]; try by repeat split.
  split; [by rewrite last_n_fmap |]. split; [apply last_n_suffix |].
  unfold last_n. rewrite length_drop.
  generalize (length (BarAggregator.bars a)). intros m. lia.
Qed.

(** ** RiskManager: lock-outs and the trade ledger *)

(** X4.  The daily-loss cap and the consecutive-loss cap do not expire with
    time: once [daily_pnl] is at or below [-MAX_DAILY_LOSS], or the streak
    of losses has reached [MAX_CONSECUTIVE_LOSSES], [can_open_position]
    refuses at every later instant, for every instrument and every count of
    open positions, and leaves the manager exactly as it was. *)
Theorem can_open_position_lockout
    (cfg : Config) (rm : RiskManager.t) (inst_id : option string)
    (open_positions : nat) (now : Qc) :
  (RiskManager.daily_pnl rm ≤ - MAX_DAILY_LOSS cfg)%Qc
  ∨ MAX_CONSECUTIVE_LOSSES cfg ≤ RiskManager.consecutive_losses rm →
  ∃ reason,
    RiskManager.can_open_position cfg rm inst_id open_positions now
    = (rm, (false, reason)).
Proof.
  intros Hlock.
  assert (is_Some (RiskManager.early_rejection cfg rm open_positions now))
    as [reason Hr].
  { unfold RiskManager.early_rejection.
    destruct (qlt (now - _) (COOL_DOWN_AFTER_EXIT_SEC cfg)); [by eexists |].
    destruct (_ && _); [by eexists |].
    destruct Hlock as [Hd | Hs].
    - unfold qle. rewrite bool_decide_eq_true_2 by done. by eexists.
    - destruct (qle _ _); [by eexists |].
      rewrite bool_decide_eq_true_2 by done. by eexists. }
  exists reason. unfold RiskManager.can_open_position. by rewrite Hr.
Qed.

Lemma can_open_position_lockout_witness :
  ∃ reason,
    RiskManager.can_open_position config daily_loss_hit (Some "ETH-USDT") 0
      (qc 100000 1)
    = (daily_loss_hit, (false, reason)).
Proof.
  apply (can_open_position_lockout config daily_loss_hit (Some "ETH-USDT") 0
           (qc 100000 1)).
  left. vm_compute. intros H. discriminate H.
Defined.

Lemma foldl_Qcplus (xs : list Qc) : ∀ a, foldl Qcplus a xs = (a + py_sum xs)%Qc.
Proof.
  unfold py_sum.
  induction xs as [| x xs IH]; intros a; simpl; [by rewrite Qcplus_0_r |].
  rewrite (IH (a + x)%Qc), (IH (0 + x)%Qc), Qcplus_0_l. by rewrite Qcplus_assoc.
Qed.

Lemma record_trades_snoc rm trs r :
  record_trades rm (trs ++ [r])
  = RiskManager.record_trade (record_trades rm trs) (rec_inst r) (rec_pnl r)
      (rec_now_trade r) (rec_now_window r) (rec_now_loss r).
Proof. unfold record_trades. by rewrite foldl_app. Qed.

Lemma record_trades_daily_pnl trs : ∀ rm,
  RiskManager.daily_pnl (record_trades rm trs)
  = (RiskManager.daily_pnl rm + py_sum (rec_pnl <$> trs))%Qc.
Proof.
  induction trs as [| r trs IH] using rev_ind; intros rm.
  - unfold py_sum. simpl. by rewrite Qcplus_0_r.
  - rewrite record_trades_snoc. simpl. rewrite IH, fmap_app. unfold py_sum.
    rewrite foldl_app. simpl. by rewrite !foldl_Qcplus, Qcplus_0_l, Qcplus_assoc.
Qed.

Lemma record_trades_window trs i : ∀ rm,
  RiskManager.trade_times (record_trades rm trs) i
  = RiskManager.trade_times rm i ++ window_times i trs.
Proof.
  unfold window_times.
  induction trs as [| r trs IH] using rev_ind; intros rm.
  - simpl. by rewrite app_nil_r.
  - rewrite record_trades_snoc, filter_app, fmap_app, app_assoc, <- IH.
    unfold RiskManager.trade_times at 1. simpl.
    rewrite filter_cons, filter_nil.
    destruct (decide (rec_inst r = i)) as [-> | Hne].
    + by rewrite lookup_insert_eq.
    + rewrite lookup_insert_ne by done. simpl. by rewrite app_nil_r.
Qed.

Lemma record_trades_losses post : ∀ rm,
  Forall (λ r, (rec_pnl r < 0)%Qc) post →
  RiskManager.consecutive_losses (record_trades rm post)
  = RiskManager.consecutive_losses rm + length post.
Proof.
  induction post as [| r post IH] using rev_ind; intros rm Hpost.
  - simpl. lia.
  - apply Forall_app in Hpost as [Hpost Hr]. apply Forall_inv in Hr.
    rewrite record_trades_snoc. simpl.
    unfold qlt. rewrite bool_decide_eq_true_2 by done.
    rewrite IH by done. rewrite length_app. simpl. lia.
Qed.

(** X5.  The ledger kept by [record_trade]: after any sequence of recorded
    trades the daily profit is the old one plus the sum of the recorded
    profits, the window of each instrument is the old one followed by the
    times of its own trades in order, and the streak of losses counts the
    losing trades since the last trade that was not a loss (or extends the
    old streak when every recorded trade was a loss). *)
Theorem record_trade_ledger
    (rm : RiskManager.t) (pre post : list Recorded) :
  Forall (λ r, (rec_pnl r < 0)%Qc) post →
  (∀ pre' r, pre = pre' ++ [r] → ¬ (rec_pnl r < 0)%Qc) →
  let rm' := record_trades rm (pre ++ post) in
  RiskManager.daily_pnl rm'
  = (RiskManager.daily_pnl rm + py_sum (rec_pnl <$> pre ++ post))%Qc
  ∧ (∀ i, RiskManager.trade_times rm' i
          = RiskManager.trade_times rm i ++ window_times i (pre ++ post))
  ∧ RiskManager.consecutive_losses rm'
    = match pre with
      | [] => RiskManager.consecutive_losses rm + length post
      | _ => length post
      end.
Proof.
  intros Hpost Hpre rm'. subst rm'.
  split; [apply record_trades_daily_pnl |].
  split; [intros i; apply record_trades_window |].
  unfold record_trades. rewrite foldl_app. fold (record_trades rm pre).
  fold (record_trades (record_trades rm pre) post).
  rewrite record_trades_losses by done.
  destruct pre as [| r0 pre0] using rev_ind; [done |].
  rewrite record_trades_snoc. simpl.
  unfold qlt. rewrite bool_decide_eq_false_2 by (by eapply Hpre).
  by destruct (pre0 ++ [r0]) eqn:E; [destruct pre0 |].
Qed.

Lemma record_trade_ledger_witness :
  let rm' := record_trades RiskManager.init
               ([mkRecorded "BTC-USDT" (qc 1 1) (qc 10 1) (qc 10 1) (qc 10 1)]
                ++ [mkRecorded "ETH-USDT" (- qc 2 1) (qc 20 1) (qc 20 1) (qc 20 1)]) in
  RiskManager.daily_pnl rm'
  = (RiskManager.daily_pnl RiskManager.init
     + py_sum (rec_pnl <$>
         [mkRecorded "BTC-USDT" (qc 1 1) (qc 10 1) (qc 10 1) (qc 10 1)]
         ++ [mkRecorded "ETH-USDT" (- qc 2 1) (qc 20 1) (qc 20 1) (qc 20 1)]))%Qc
  ∧ (∀ i, RiskManager.trade_times rm' i
          = RiskManager.trade_times RiskManager.init i
            ++ window_times i
                 ([mkRecorded "BTC-USDT" (qc 1 1) (qc 10 1) (qc 10 1) (qc 10 1)]
                  ++ [mkRecorded "ETH-USDT" (- qc 2 1) (qc 20 1) (qc 20 1) (qc 20 1)]))
  ∧ RiskManager.consecutive_losses rm' = 1.
Proof.
  apply (record_trade_ledger RiskManager.init
           [mkRecorded "BTC-USDT" (qc 1 1) (qc 10 1) (qc 10 1) (qc 10 1)]
           [mkRecorded "ETH-USDT" (- qc 2 1) (qc 20 1) (qc 20 1) (qc 20 1)]).
  - constructor; [reflexivity | constructor].
  - intros pre' r Hpre. destruct pre' as [| r' [| r'' pre']]; [| done | done].
    injection Hpre as <-. vm_compute. intros H. discriminate H.
Defined.

(** X6.  The hourly rate limit counts an instrument's own recorded trades
    and nothing else: after any sequence of recorded trades, a named
    instrument is admitted exactly when none of the five earlier checks
    refuses and fewer than [MAX_TRADES_PER_PAIR_PER_HOUR] of its own window
    entries, old and newly recorded, are younger than 3600 seconds. *)
Theorem can_open_position_rate_limit
    (cfg : Config) (rm : RiskManager.t) (trs : list Recorded) (i : string)
    (open_positions : nat) (now : Qc) :
  i ≠ "" →
  (RiskManager.can_open_position cfg (record_trades rm trs) (Some i)
     open_positions now).2.1 = true
  ↔ RiskManager.early_rejection cfg (record_trades rm trs) open_positions now = None
    ∧ length (filter (λ t, (now - t < qc 3600 1)%Qc)
                (RiskManager.trade_times rm i ++ window_times i trs))
      < MAX_TRADES_PER_PAIR_PER_HOUR cfg.
Proof.
  intros Hi. unfold RiskManager.can_open_position.
  destruct (RiskManager.early_rejection _ _ _ _) as [reason |].
  - simpl. split; [done | by intros [? _]].
  - rewrite bool_decide_eq_false_2 by done.
    rewrite record_trades_window. unfold RiskManager.recent_trades.
    case_bool_decide; simpl; split; try done.
    + intros [_ H']. lia.
    + intros _. split; [done | lia].
Qed.

Lemma can_open_position_rate_limit_witness :
  (RiskManager.can_open_position config
     (record_trades RiskManager.init
        [mkRecorded "BTC-USDT" (qc 1 1) (qc 10 1) (qc 10 1) (qc 10 1)])
     (Some "BTC-USDT") 0 (qc 20 1)).2.1 = true
  ↔ RiskManager.early_rejection config
      (record_trades RiskManager.init
         [mkRecorded "BTC-USDT" (qc 1 1) (qc 10 1) (qc 10 1) (qc 10 1)])
      0 (qc 20 1) = None
    ∧ length (filter (λ t, (qc 20 1 - t < qc 3600 1)%Qc)
                (RiskManager.trade_times RiskManager.init "BTC-USDT"
                 ++ window_times "BTC-USDT"
                      [mkRecorded "BTC-USDT" (qc 1 1) (qc 10 1) (qc 10 1) (qc 10 1)]))
      < MAX_TRADES_PER_PAIR_PER_HOUR config.
Proof.
  apply (can_open_position_rate_limit config RiskManager.init
           [mkRecorded "BTC-USDT" (qc 1 1) (qc 10 1) (qc 10 1) (qc 10 1)]
           "BTC-USDT" 0 (qc 20 1)).
  intros H. discriminate H.
Defined.

(** ** The setup scan: what an armed candidate guarantees *)

Lemma py_max_list_ge_init xs : ∀ x, (x ≤ py_max_list x xs)%Qc.
Proof.
  unfold py_max_list.
  induction xs as [| y ys IH]; intros x; simpl; [apply Qcle_refl |].
  trans (py_max x y); [apply py_max_ge_l | apply IH].
Qed.

Lemma py_max_list_ge_last x xs y : (y ≤ py_max_list x (xs ++ [y]))%Qc.
Proof. unfold py_max_list. rewrite foldl_app. simpl. apply py_max_ge_r. Qed.

Lemma true_ranges_nonneg bars : Forall (λ r, (0 ≤ r)%Qc) (true_ranges bars).
Proof.
  unfold true_ranges. apply Forall_fmap, Forall_forall. intros [prev curr] _. simpl.
  trans (Qcabs (BarAggregator.bar_low curr - BarAggregator.bar_close prev));
    [apply Qcabs_nonneg |].
  apply (py_max_list_ge_last _ [_]).
Qed.

Lemma py_sum_nonneg xs : Forall (λ r, (0 ≤ r)%Qc) xs → (0 ≤ py_sum xs)%Qc.
Proof.
  induction xs as [| x xs IH] using rev_ind; intros H; [apply Qcle_refl |].
  apply Forall_app in H as [Hxs Hx]. apply Forall_inv in Hx.
  unfold py_sum. rewrite foldl_app. simpl.
  apply Qcplus_nonneg_nonneg; [by apply IH | done].
Qed.

Lemma Qcdiv_nonneg_pos a b : (0 ≤ a)%Qc → (0 < b)%Qc → (0 ≤ a / b)%Qc.
Proof.
  intros Ha Hb. unfold Qcdiv.
  apply Qcmult_nonneg_nonneg; [done |]. by apply Qclt_le_weak, Qcinv_pos.
Qed.

Lemma Qcinv_neg b : (b < 0)%Qc → (/ b < 0)%Qc.
Proof.
  intros Hb.
  assert (0 < - b)%Qc as Hnb.
  { apply Qclt_minus_iff in Hb. by rewrite Qcplus_0_l in Hb. }
  apply Qcinv_pos in Hnb.
  assert (/ - b = - / b)%Qc as E.
  { assert (b ≠ 0)%Qc as Hb0 by (by apply Qclt_not_eq).
    field. split; [done |]. intros Hz. apply Hb0.
    rewrite <- (Qcopp_involutive b), Hz. by apply Qc_is_canon. }
  rewrite E in Hnb. apply Qclt_minus_iff. by rewrite Qcplus_0_l.
Qed.

(** A quotient that is positive over a non-negative numerator has a
    positive denominator. *)
Lemma Qcdiv_pos_denominator a b : (0 ≤ a)%Qc → (0 < a / b)%Qc → (0 < b)%Qc.
Proof.
  intros Ha Hq.
  destruct (Qc_dec 0 b) as [[Hlt | Hgt] | Heq]; [done | exfalso | exfalso].
  - apply Qcinv_neg in Hgt.
    apply (Qclt_not_le _ _ Hq). unfold Qcdiv.
    rewrite Qcmult_comm.
    replace 0%Qc with (0 * a)%Qc by ring.
    apply Qcmult_le_compat_r; [by apply Qclt_le_weak | done].
  - subst b. revert Hq. unfold Qcdiv.
    replace (/ 0)%Qc with 0%Qc by (by apply Qc_is_canon).
    rewrite Qcmult_0_r. intros H. by apply Qclt_not_eq in H.
Qed.

Lemma clamp_bps_bounds lo hi x :
  (lo ≤ clamp_bps lo hi x)%Qc
  ∧ ((lo ≤ hi)%Qc → (clamp_bps lo hi x ≤ hi)%Qc)
  ∧ ((0 < hi)%Qc → (0 < x)%Qc → (0 < clamp_bps lo hi x)%Qc).
Proof.
  unfold clamp_bps. split; [apply py_max_ge_l |]. split.
  - intros Hle. unfold py_max. destruct (qlt lo _); [apply py_min_le_l | done].
  - intros Hhi Hx.
    apply Qclt_le_trans with (py_min hi x); [| apply py_max_ge_r].
    unfold py_min. by destruct (qlt x hi).
Qed.

Lemma setup_breakout_passed cfg s inst_id aggregator current_price recent_high bb :
  setup_breakout cfg s inst_id = Ret (inr (aggregator, current_price, recent_high, bb)) →
  bar_aggregators s !! inst_id = Some aggregator
  ∧ armed_candidates s !! inst_id = None
  ∧ MIN_CANDLES_FOR_ENTRY cfg ≤ BarAggregator.len aggregator
  ∧ last (BarAggregator.bar_close <$> BarAggregator.bars aggregator) = Some current_price
  ∧ (recent_high < current_price)%Qc
  ∧ recent_high ≠ 0%Qc
  ∧ bb = ((current_price - recent_high) / recent_high * qc 10000 1)%Qc
  ∧ (MIN_BREAKOUT_STRENGTH_BPS cfg ≤ bb)%Qc
  ∧ ¬ ((0 < BREAKOUT_DEAD_ZONE_BPS cfg)%Qc
       ∧ recent_high = default 0%Qc (pairs_data s !! inst_id ≫= pd_last_armed_high)
       ∧ (recent_high * (1 - BREAKOUT_DEAD_ZONE_BPS cfg / qc 10000 1) < current_price)%Qc).
Proof.
  unfold setup_breakout. intros H.
  destruct (bar_aggregators s !! inst_id) as [agg |]; [| done].
  destruct (_ || _) eqn:Hlen; [done |].
  apply orb_false_iff in Hlen as [_ Hlen]. apply bool_decide_eq_false in Hlen.
  case_bool_decide as Harmed; [done |].
  case_bool_decide; [done |].
  apply py_bind_ret in H as (stop & _ & H).
  destruct stop; [done |].
  apply py_bind_ret in H as (cur & Hcur & H).
  case_bool_decide; [done |].
  apply py_bind_ret in H as (rh & _ & H).
  destruct (_ && _) eqn:Hdz; [done |].
  destruct (qle cur rh) eqn:Hle; [done |].
  apply py_bind_ret in H as (bb' & Hbb & H).
  destruct (qlt bb' _) eqn:Hweak; [done |].
  injection H as -> -> -> ->.
  apply to_bps_ret in Hbb as [Hrh ->].
  split; [done |].
  split; [by apply eq_None_not_Some |].
  split; [lia |].
  split.
  { unfold BarAggregator.get_closes, tail_slice in Hcur.
    by destruct (last _); [injection Hcur as -> |]. }
  split; [apply Qcnot_le_lt; by apply bool_decide_eq_false in Hle |].
  split; [done |]. split; [done |].
  split; [by apply qlt_false in Hweak |].
  intros (Hz1 & Hz2 & Hz3).
  apply not_true_iff_false in Hdz. apply Hdz.
  apply andb_true_iff. split; [apply andb_true_iff; split |].
  - by apply bool_decide_eq_true.
  - by apply bool_decide_eq_true.
  - by apply bool_decide_eq_true.
Qed.

Lemma setup_targets_passed cfg aggregator current_price breakout_bps now obj c :
  setup_targets cfg aggregator current_price breakout_bps now obj = Ret (inr c) →
  let cost := (FEE_TAKER_BPS cfg + MAX_SLIPPAGE_BPS cfg)%Qc in
  let raw_tp_bps :=
    (cand_atr c * TP_ATR_MULTIPLIER cfg / current_price * qc 10000 1)%Qc in
  let raw_sl_bps :=
    (cand_atr c * SL_ATR_MULTIPLIER cfg / current_price * qc 10000 1)%Qc in
  ATR_PERIOD cfg + 1 ≤ BarAggregator.len aggregator
  ∧ (0 ≤ cand_atr c)%Qc
  ∧ (MIN_ATR_BPS cfg ≤ cand_atr c / current_price * qc 10000 1)%Qc
  ∧ (0 < raw_tp_bps - cost)%Qc
  ∧ (0 < raw_sl_bps)%Qc
  ∧ (MIN_RISK_REWARD_RATIO cfg ≤ cand_rr c)%Qc
  ∧ cand_tp c = (current_price * (1 + cand_tp_bps c / qc 10000 1))%Qc
  ∧ cand_sl c = (current_price * (1 - cand_sl_bps c / qc 10000 1))%Qc
  ∧ cand_breakout_strength c = breakout_bps
  ∧ cand_time c = now
  ∧ cand_imbalance c = None.
Proof.
  unfold setup_targets. intros H.
  case_bool_decide as Hlen; [done |].
  destruct (true_ranges _) as [| tr trs] eqn:Htrs; [done |].
  apply py_bind_ret in H as (atr & Hatr & H).
  apply py_bind_ret in H as (atr_bps & Hatr_bps & H).
  destruct (qlt atr_bps _) eqn:Hlow; [done |].
  apply py_bind_ret in H as (raw_tp & Htp & H).
  apply py_bind_ret in H as (raw_sl & Hsl & H).
  destruct (_ || _) eqn:Hcost; [done |].
  apply orb_false_iff in Hcost as [Hc1 Hc2].
  apply py_bind_ret in H as (rr & Hrr & H).
  destruct (qlt rr _) eqn:Hrrlow; [done |].
  injection H as <-. simpl.
  apply to_bps_ret in Htp as [_ ->]. apply to_bps_ret in Hsl as [_ ->].
  apply to_bps_ret in Hatr_bps as [_ ->].
  apply py_truediv_ret in Hatr as [Hn ->].
  split.
  { assert (length (BarAggregator.get_bars aggregator (Some (ATR_PERIOD cfg + 1)))
            ≤ BarAggregator.len aggregator) as Hsuf.
    { unfold BarAggregator.get_bars, BarAggregator.len.
      apply suffix_length. replace (ATR_PERIOD cfg + 1) with (S (ATR_PERIOD cfg)) by lia.
      apply last_n_suffix. }
    lia. }
  split.
  { apply Qcdiv_nonneg_pos.
    - apply py_sum_nonneg. rewrite <- Htrs. apply true_ranges_nonneg.
    - simpl length.
      rewrite <- Z2Qc_inj_0. apply (proj1 (Z2Qc_inj_lt _ _)). lia. }
  split; [by apply qlt_false in Hlow |].
  split; [apply Qcnot_le_lt; by apply bool_decide_eq_false in Hc1 |].
  split; [apply Qcnot_le_lt; by apply bool_decide_eq_false in Hc2 |].
  split; [by apply qlt_false in Hrrlow |].
  done.
Qed.

Lemma check_setup_conditions_armed_stages cfg s inst_id now s' c :
  check_setup_conditions cfg s inst_id now = (s', Armed c) →
  ∃ aggregator current_price recent_high bb,
    setup_breakout cfg s inst_id = Ret (inr (aggregator, current_price, recent_high, bb))
    ∧ setup_targets cfg aggregator current_price bb now (next_obj s) = Ret (inr c)
    ∧ s' = bump_next_obj
             (set_armed_candidates <[inst_id := c]>
                (if qlt 0 (BREAKOUT_DEAD_ZONE_BPS cfg)
                 then store_last_armed_high inst_id recent_high s else s)).
Proof.
  unfold check_setup_conditions. intros H.
  destruct (setup_breakout cfg s inst_id) as [[out | [[[agg cur] hi] bb]] | e] eqn:Hb.
  - injection H as _ ->. by destruct (setup_breakout_not_armed _ _ _ _ Hb c).
  - assert (next_obj (if qlt 0 (BREAKOUT_DEAD_ZONE_BPS cfg)
                      then store_last_armed_high inst_id hi s else s) = next_obj s)
      as Hn by (by destruct (qlt 0 _)).
    rewrite Hn in H.
    destruct (setup_targets _ _ _ _ _ _) as [[out | c'] | e] eqn:Ht.
    + injection H as _ ->. by destruct (setup_targets_not_armed _ _ _ _ _ _ _ Ht c).
    + injection H as <- ->. by exists agg, cur, hi, bb.
    + done.
  - done.
Qed.

(** X7.  What an armed candidate guarantees.  Under a positive TP
    multiplier, a non-negative cost and positive TP and SL caps, whenever the
    setup scan arms a candidate the instrument had none before and has this
    one after, the entry price is positive, the stop-loss lies strictly
    below it and the take-profit strictly above it, the stored risk-reward
    and breakout strength reach their configured minima, the TP and SL
    distances are at least their minima (and at most their maxima when the
    bounds are in order), and the candidate is stamped with the time of the
    scan. *)
Theorem check_setup_conditions_armed_bracket
    (cfg : Config) (s : Sniper) (inst_id : string) (now : Qc)
    (s' : Sniper) (c : Candidate) :
  check_setup_conditions cfg s inst_id now = (s', Armed c) →
  (0 < TP_ATR_MULTIPLIER cfg)%Qc →
  (0 ≤ FEE_TAKER_BPS cfg + MAX_SLIPPAGE_BPS cfg)%Qc →
  (0 < MAX_TP_BPS cfg)%Qc →
  (0 < MAX_SL_BPS cfg)%Qc →
  armed_candidates s !! inst_id = None
  ∧ armed_candidates s' !! inst_id = Some c
  ∧ (0 < cand_entry_price c)%Qc
  ∧ (cand_sl c < cand_entry_price c)%Qc
  ∧ (cand_entry_price c < cand_tp c)%Qc
  ∧ (MIN_RISK_REWARD_RATIO cfg ≤ cand_rr c)%Qc
  ∧ (MIN_BREAKOUT_STRENGTH_BPS cfg ≤ cand_breakout_strength c)%Qc
  ∧ (MIN_TP_BPS cfg ≤ cand_tp_bps c)%Qc
  ∧ (MIN_SL_BPS cfg ≤ cand_sl_bps c)%Qc
  ∧ ((MIN_TP_BPS cfg ≤ MAX_TP_BPS cfg)%Qc → (cand_tp_bps c ≤ MAX_TP_BPS cfg)%Qc)
  ∧ ((MIN_SL_BPS cfg ≤ MAX_SL_BPS cfg)%Qc → (cand_sl_bps c ≤ MAX_SL_BPS cfg)%Qc)
  ∧ cand_time c = now
  ∧ cand_imbalance c = None.
Proof.
  intros H Hmult Hcost Hmaxtp Hmaxsl.
  destruct (check_setup_conditions_armed_stages _ _ _ _ _ _ H)
    as (agg & cur & rh & bb & Hb & Ht & ->).
  destruct (setup_breakout_passed _ _ _ _ _ _ _ Hb)
    as (_ & Hnone & _ & _ & _ & _ & _ & Hbb & _).
  destruct (setup_targets_armed _ _ _ _ _ _ _ Ht) as (Hentry & _ & _ & Htpb & Hslb).
  destruct (setup_targets_passed _ _ _ _ _ _ _ Ht)
    as (_ & Hatr & _ & Htp & Hsl & Hrr & Etp & Esl & Ebb & Etime & Eimb).
  rewrite <- Hentry in *.
  set (raw_tp := (cand_atr c * TP_ATR_MULTIPLIER cfg / cand_entry_price c * qc 10000 1)%Qc)
    in *.
  set (raw_sl := (cand_atr c * SL_ATR_MULTIPLIER cfg / cand_entry_price c * qc 10000 1)%Qc)
    in *.
  assert (0 < raw_tp)%Qc as Hraw.
  { apply Qcle_lt_trans with (FEE_TAKER_BPS cfg + MAX_SLIPPAGE_BPS cfg)%Qc; [done |].
    by apply Qclt_minus_iff. }
  assert (0 < cand_entry_price c)%Qc as Hpos.
  { apply (Qcdiv_pos_denominator (cand_atr c * TP_ATR_MULTIPLIER cfg)).
    - apply Qcmult_nonneg_nonneg; [done | by apply Qclt_le_weak].
    - apply (Qcmult_lt_mono_pos_r _ _ (qc 10000 1)); [reflexivity |].
      by rewrite Qcmult_0_l. }
  destruct (clamp_bps_bounds (MIN_TP_BPS cfg) (MAX_TP_BPS cfg) raw_tp)
    as (Htp1 & Htp2 & Htp3).
  destruct (clamp_bps_bounds (MIN_SL_BPS cfg) (MAX_SL_BPS cfg) raw_sl)
    as (Hsl1 & Hsl2 & Hsl3).
  rewrite <- Htpb in Htp1, Htp2, Htp3. rewrite <- Hslb in Hsl1, Hsl2, Hsl3.
  specialize (Htp3 Hmaxtp Hraw). specialize (Hsl3 Hmaxsl Hsl).
  assert (∀ b, (0 < b)%Qc → (0 < cand_entry_price c * (b / qc 10000 1))%Qc) as Hstep.
  { intros b Hb'. apply Qcmult_pos_pos; [done |].
    unfold Qcdiv. apply Qcmult_pos_pos; [done | by apply Qcinv_pos]. }
  split; [done |].
  split.
  { simpl. destruct (qlt 0 _); simpl; by rewrite lookup_insert_eq. }
  split; [done |].
  split.
  { rewrite Esl. apply Qclt_minus_iff.
    replace (cand_entry_price c
             + - (cand_entry_price c * (1 - cand_sl_bps c / qc 10000 1)))%Qc
      with (cand_entry_price c * (cand_sl_bps c / qc 10000 1))%Qc by ring.
    by apply Hstep. }
  split.
  { rewrite Etp. apply Qclt_minus_iff.
    replace (cand_entry_price c * (1 + cand_tp_bps c / qc 10000 1)
             + - cand_entry_price c)%Qc
      with (cand_entry_price c * (cand_tp_bps c / qc 10000 1))%Qc by ring.
    by apply Hstep. }
  rewrite Ebb. repeat split; done.
Qed.

Lemma check_setup_conditions_armed_bracket_witness :
  ∃ s' c,
    check_setup_conditions config example_sniper "BTC-USDT" (qc 15 1) = (s', Armed c)
    ∧ armed_candidates s' !! "BTC-USDT" = Some c
    ∧ (0 < cand_entry_price c)%Qc
    ∧ (cand_sl c < cand_entry_price c)%Qc
    ∧ (cand_entry_price c < cand_tp c)%Qc
    ∧ (MIN_RISK_REWARD_RATIO config ≤ cand_rr c)%Qc
    ∧ cand_time c = qc 15 1.
Proof.
  destruct (check_setup_conditions config example_sniper "BTC-USDT" (qc 15 1))
    as [s' out] eqn:Hrun.
  assert (∃ c, out = Armed c) as [c ->].
  { vm_compute in Hrun. injection Hrun as _ <-. eauto. }
  exists s', c. split; [done |].
  destruct (check_setup_conditions_armed_bracket config example_sniper "BTC-USDT"
              (qc 15 1) s' c Hrun)
    as (_ & Ha & Hp & Hsl & Htp & Hrr & _ & _ & _ & _ & _ & Ht & _);
    [reflexivity | intros Hc; discriminate Hc | reflexivity | reflexivity |].
  repeat split; done.
Defined.

(** X8.  The dead zone arms a level once.  With a positive
    [BREAKOUT_DEAD_ZONE_BPS] and a non-negative minimum breakout strength,
    a scan that arms a candidate records the broken high for the
    instrument; that high is positive, lies below the entry price, and
    differs from the level recorded before the scan: a breakout over the
    level that was last recorded is never armed. *)
Theorem check_setup_conditions_new_level
    (cfg : Config) (s : Sniper) (inst_id : string) (now : Qc)
    (s' : Sniper) (c : Candidate) :
  check_setup_conditions cfg s inst_id now = (s', Armed c) →
  (0 < BREAKOUT_DEAD_ZONE_BPS cfg)%Qc →
  (0 ≤ MIN_BREAKOUT_STRENGTH_BPS cfg)%Qc →
  ∃ high,
    pairs_data s' !! inst_id ≫= pd_last_armed_high = Some high
    ∧ (0 < high)%Qc
    ∧ (high < cand_entry_price c)%Qc
    ∧ pairs_data s !! inst_id ≫= pd_last_armed_high ≠ Some high.
Proof.
  intros H Hdz Hmin.
  destruct (check_setup_conditions_armed_stages _ _ _ _ _ _ H)
    as (agg & cur & rh & bb & Hb & Ht & ->).
  destruct (setup_breakout_passed _ _ _ _ _ _ _ Hb)
    as (_ & _ & _ & _ & Hlt & Hrh & -> & Hbb & Hzone).
  destruct (setup_targets_armed _ _ _ _ _ _ _ Ht) as (-> & _).
  assert (0 < rh)%Qc as Hpos.
  { apply (Qcdiv_pos_denominator (cur - rh)).
    - apply Qclt_le_weak. by apply Qclt_minus_iff in Hlt.
    - destruct (Qc_dec 0 ((cur - rh) / rh)) as [[Hq | Hq] | Hq]; [done | exfalso | exfalso].
      + apply (Qcle_not_lt _ _ Hmin). eapply Qcle_lt_trans; [exact Hbb |].
        replace 0%Qc with (0 * qc 10000 1)%Qc by ring.
        by apply Qcmult_lt_mono_pos_r.
      + apply (f_equal (λ q, q * rh)%Qc) in Hq.
        rewrite Qcmult_0_l in Hq. unfold Qcdiv in Hq.
        rewrite <- Qcmult_assoc, Qcmult_inv_l, Qcmult_1_r in Hq by done.
        apply Qclt_minus_iff in Hlt.
        change (cur + - rh)%Qc with (cur - rh)%Qc in Hlt. rewrite <- Hq in Hlt.
        by apply Qclt_not_eq in Hlt. }
  exists rh.
  split.
  { unfold qlt. rewrite bool_decide_eq_true_2 by done. simpl.
    by rewrite lookup_insert_eq. }
  split; [done |]. split; [done |].
  intros Hold. apply Hzone. split; [done |]. split; [by rewrite Hold |].
  apply Qcle_lt_trans with rh; [| done].
  apply Qcle_minus_iff.
  replace (rh + - (rh * (1 - BREAKOUT_DEAD_ZONE_BPS cfg / qc 10000 1)))%Qc
    with (rh * (BREAKOUT_DEAD_ZONE_BPS cfg / qc 10000 1))%Qc by ring.
  apply Qclt_le_weak, Qcmult_pos_pos; [done |].
  unfold Qcdiv. apply Qcmult_pos_pos; [done | by apply Qcinv_pos].
Qed.

Lemma check_setup_conditions_new_level_witness :
  ∃ s' c high,
    check_setup_conditions (with_dead_zone (qc 5 1) config) example_sniper
      "BTC-USDT" (qc 15 1) = (s', Armed c)
    ∧ pairs_data s' !! "BTC-USDT" ≫= pd_last_armed_high = Some high
    ∧ (0 < high)%Qc
    ∧ (high < cand_entry_price c)%Qc
    ∧ pairs_data example_sniper !! "BTC-USDT" ≫= pd_last_armed_high ≠ Some high.
Proof.
  destruct (check_setup_conditions (with_dead_zone (qc 5 1) config) example_sniper
              "BTC-USDT" (qc 15 1))
    as [s' out] eqn:Hrun.
  assert (∃ c, out = Armed c) as [c ->].
  { vm_compute in Hrun. injection Hrun as _ <-. eauto. }
  destruct (check_setup_conditions_new_level (with_dead_zone (qc 5 1) config)
              example_sniper "BTC-USDT" (qc 15 1) s' c Hrun)
    as (high & Hhigh); [reflexivity | intros Hc; discriminate Hc |].
  exists s', c, high. split; [reflexivity | exact Hhigh].
Defined.

(** X9.  The setup scan does nothing for an instrument that has no
    aggregator, fewer closed bars than [MIN_CANDLES_FOR_ENTRY], or a
    candidate already armed: it returns without an outcome and leaves the
    whole state, the armed candidate included, as it was. *)
Theorem check_setup_conditions_skips
    (cfg : Config) (s : Sniper) (inst_id : string) (now : Qc) :
  bar_aggregators s !! inst_id = None
  ∨ (∃ a, bar_aggregators s !! inst_id = Some a
          ∧ BarAggregator.len a < MIN_CANDLES_FOR_ENTRY cfg)
  ∨ is_Some (armed_candidates s !! inst_id) →
  check_setup_conditions cfg s inst_id now = (s, Skipped).
Proof.
  intros Hcase. unfold check_setup_conditions.
  assert (setup_breakout cfg s inst_id = Ret (inl Skipped)) as ->; [| done].
  unfold setup_breakout.
  destruct (bar_aggregators s !! inst_id) as [a |] eqn:Ha; [| done].
  destruct (_ || _) eqn:Hlen; [done |].
  apply orb_false_iff in Hlen as [_ Hlen]. apply bool_decide_eq_false in Hlen.
  destruct Hcase as [? | [(a' & [= <-] & Hlt) | Harmed]]; [done | lia |].
  by rewrite bool_decide_eq_true_2.
Qed.

Lemma check_setup_conditions_skips_witness :
  check_setup_conditions config new_sniper "BTC-USDT" (qc 15 1)
  = (new_sniper, Skipped).
Proof.
  apply (check_setup_conditions_skips config new_sniper "BTC-USDT" (qc 15 1)).
  left. reflexivity.
Defined.

Lemma store_last_armed_high_quote i h s j :
  let s' := store_last_armed_high i h s in
  (j ≠ i → pairs_data s' !! j = pairs_data s !! j)
  ∧ pairs_data s' !! j ≫= pd_best_bid = pairs_data s !! j ≫= pd_best_bid
  ∧ pairs_data s' !! j ≫= pd_best_ask = pairs_data s !! j ≫= pd_best_ask
  ∧ pairs_data s' !! j ≫= pd_mid = pairs_data s !! j ≫= pd_mid
  ∧ pairs_data s' !! j ≫= pd_order_book = pairs_data s !! j ≫= pd_order_book.
Proof.
  simpl. destruct (decide (j = i)) as [-> | Hne].
  - rewrite lookup_insert_eq. by destruct (pairs_data s !! i).
  - by rewrite lookup_insert_ne.
Qed.

Lemma pop_last_armed_high_quote i s j :
  let s' := pop_last_armed_high i s in
  (j ≠ i → pairs_data s' !! j = pairs_data s !! j)
  ∧ pairs_data s' !! j ≫= pd_best_bid = pairs_data s !! j ≫= pd_best_bid
  ∧ pairs_data s' !! j ≫= pd_best_ask = pairs_data s !! j ≫= pd_best_ask
  ∧ pairs_data s' !! j ≫= pd_mid = pairs_data s !! j ≫= pd_mid
  ∧ pairs_data s' !! j ≫= pd_order_book = pairs_data s !! j ≫= pd_order_book.
Proof.
  simpl. destruct (decide (j = i)) as [-> | Hne].
  - rewrite lookup_alter_eq. by destruct (pairs_data s !! i).
  - by rewrite lookup_alter_ne.
Qed.

(** X10.  The footprint of the setup scan.  Whatever it finds, and also when
    it fails, [check_setup_conditions] leaves the position, the bar
    aggregators, the risk manager, the balance and the clock offset as they
    were, touches no other instrument's candidate or market data, keeps the
    quote and the order book of its own instrument (only the dead-zone
    level may change), never replaces a candidate that was armed, and
    never promotes one. *)
Theorem check_setup_conditions_frame
    (cfg : Config) (s : Sniper) (inst_id : string) (now : Qc) :
  let s' := (check_setup_conditions cfg s inst_id now).1 in
  active_position s' = active_position s
  ∧ bar_aggregators s' = bar_aggregators s
  ∧ risk_manager s' = risk_manager s
  ∧ usdt_balance s' = usdt_balance s
  ∧ time_offset s' = time_offset s
  ∧ (∀ j, j ≠ inst_id →
       armed_candidates s' !! j = armed_candidates s !! j
       ∧ pairs_data s' !! j = pairs_data s !! j)
  ∧ (∀ c, armed_candidates s !! inst_id = Some c →
       armed_candidates s' !! inst_id = Some c)
  ∧ pairs_data s' !! inst_id ≫= pd_best_bid = pairs_data s !! inst_id ≫= pd_best_bid
  ∧ pairs_data s' !! inst_id ≫= pd_best_ask = pairs_data s !! inst_id ≫= pd_best_ask
  ∧ pairs_data s' !! inst_id ≫= pd_mid = pairs_data s !! inst_id ≫= pd_mid
  ∧ pairs_data s' !! inst_id ≫= pd_order_book
    = pairs_data s !! inst_id ≫= pd_order_book
  ∧ ∀ c, (check_setup_conditions cfg s inst_id now).2 ≠ Promoted c.
Proof.
  intros s'.
  assert (∀ c, (check_setup_conditions cfg s inst_id now).2 ≠ Promoted c) as Hnp.
  { intros c. unfold check_setup_conditions.
    destruct (setup_breakout cfg s inst_id) as [[out | [[[agg cur] hi] bb]] | e] eqn:Hb;
      simpl; [| | done].
    - intros ->. revert Hb. unfold setup_breakout. intros H.
      repeat (first
        [ discriminate H
        | apply py_bind_ret in H as (? & _ & H)
        | match type of H with
          | context [match ?x with _ => _ end] => destruct x
          end ]).
    - destruct (setup_targets _ _ _ _ _ _) as [[out | c'] | e] eqn:Ht; simpl;
        [| done | done].
      intros ->. revert Ht. unfold setup_targets. intros H.
      repeat (first
        [ discriminate H
        | apply py_bind_ret in H as (? & _ & H)
        | match type of H with
          | context [match ?x with _ => _ end] => destruct x
          end ]). }
  assert (∀ (t : Sniper),
            (t = s ∨ (∃ h, t = store_last_armed_high inst_id h s)) →
            ∀ t', (t' = t ∨ t' = pop_last_armed_high inst_id t
                   ∨ ∃ c, t' = bump_next_obj (set_armed_candidates <[inst_id := c]> t)
                          ∧ armed_candidates s !! inst_id = None) →
            active_position t' = active_position s
            ∧ bar_aggregators t' = bar_aggregators s
            ∧ risk_manager t' = risk_manager s
            ∧ usdt_balance t' = usdt_balance s
            ∧ time_offset t' = time_offset s
            ∧ (∀ j, j ≠ inst_id →
                 armed_candidates t' !! j = armed_candidates s !! j
                 ∧ pairs_data t' !! j = pairs_data s !! j)
            ∧ (∀ c, armed_candidates s !! inst_id = Some c →
                 armed_candidates t' !! inst_id = Some c)
            ∧ pairs_data t' !! inst_id ≫= pd_best_bid
              = pairs_data s !! inst_id ≫= pd_best_bid
            ∧ pairs_data t' !! inst_id ≫= pd_best_ask
              = pairs_data s !! inst_id ≫= pd_best_ask
            ∧ pairs_data t' !! inst_id ≫= pd_mid = pairs_data s !! inst_id ≫= pd_mid
            ∧ pairs_data t' !! inst_id ≫= pd_order_book
              = pairs_data s !! inst_id ≫= pd_order_book) as Hshape.
  { intros t Ht t' Ht'.
    assert (active_position t = active_position s
            ∧ bar_aggregators t = bar_aggregators s
            ∧ risk_manager t = risk_manager s
            ∧ usdt_balance t = usdt_balance s
            ∧ time_offset t = time_offset s
            ∧ armed_candidates t = armed_candidates s) as (T1 & T2 & T3 & T4 & T5 & T6).
    { by destruct Ht as [-> | [h ->]]. }
    assert (∀ j, (j ≠ inst_id → pairs_data t !! j = pairs_data s !! j)
                 ∧ pairs_data t !! j ≫= pd_best_bid = pairs_data s !! j ≫= pd_best_bid
                 ∧ pairs_data t !! j ≫= pd_best_ask = pairs_data s !! j ≫= pd_best_ask
                 ∧ pairs_data t !! j ≫= pd_mid = pairs_data s !! j ≫= pd_mid
                 ∧ pairs_data t !! j ≫= pd_order_book
                   = pairs_data s !! j ≫= pd_order_book) as Tq.
    { intros j. destruct Ht as [-> | [h ->]]; [done |].
      apply store_last_armed_high_quote. }
    destruct Ht' as [-> | [-> | (c & -> & Hnone)]].
    - rewrite T1, T2, T3, T4, T5, T6.
      destruct (Tq inst_id) as (_ & Q1 & Q2 & Q3 & Q4).
      repeat split; try done. by apply Tq.
    - destruct (pop_last_armed_high_quote inst_id t inst_id) as (_ & P1 & P2 & P3 & P4).
      destruct (Tq inst_id) as (_ & Q1 & Q2 & Q3 & Q4).
      simpl in *. rewrite T1, T2, T3, T4, T5, T6, P1, P2, P3, P4.
      repeat split; try done.
      rewrite lookup_alter_ne by done. by apply Tq.
    - destruct (Tq inst_id) as (_ & Q1 & Q2 & Q3 & Q4).
      simpl. rewrite T1, T2, T3, T4, T5, T6.
      repeat split; try done.
      + by rewrite lookup_insert_ne.
      + by apply Tq.
      + intros c' Hc'. congruence. }
  specialize (Hshape s (or_introl eq_refl)) as Hplain.
  assert (∃ t, (t = s ∨ (∃ h, t = store_last_armed_high inst_id h s))
               ∧ (s' = t ∨ s' = pop_last_armed_high inst_id t
                  ∨ ∃ c, s' = bump_next_obj (set_armed_candidates <[inst_id := c]> t)
                         ∧ armed_candidates s !! inst_id = None))
    as (t & Ht & Ht').
  { subst s'. unfold check_setup_conditions.
    destruct (setup_breakout cfg s inst_id) as [[out | [[[agg cur] hi] bb]] | e] eqn:Hb.
    - exists s. split; [by left | by left].
    - destruct (setup_breakout_passed _ _ _ _ _ _ _ Hb) as (_ & Hnone & _).
      remember (if qlt 0 (BREAKOUT_DEAD_ZONE_BPS cfg)
                then store_last_armed_high inst_id hi s else s) as t eqn:Et.
      exists t. split.
      { rewrite Et. destruct (qlt 0 _); [right; by exists hi | by left]. }
      destruct (setup_targets _ _ _ _ _ _) as [[out | c'] | e]; cbn [fst].
      + by left.
      + right; right. by exists c'.
      + right; by left.
    - exists s. split; [by left | right; by left]. }
  destruct (Hshape t Ht s' Ht')
    as (F1 & F2 & F3 & F4 & F5 & F6 & F7 & F8 & F9 & F10 & F11).
  do 11 (split; [assumption |]). exact Hnp.
Qed.

(** ** The confirmation scan: what a promotion guarantees *)

Lemma momentum_confirmation_never float_pow math_log cfg aggregator :
  (0 < ZSCORE_THRESHOLD cfg)%Qc →
  momentum_confirmation float_pow math_log cfg aggregator ≠ Ret true.
Proof.
  intros Hthr H.
  unfold momentum_confirmation in H.
  destruct aggregator as [a |]; [| done].
  destruct (_ && _); [| done].
  case_bool_decide; [| done].
  apply py_bind_ret in H as (rets & _ & H).
  destruct rets as [| r rets]; [done |].
  rewrite compute_zscore_zero in H. injection H as H.
  unfold zscore_confirms, qle in H. apply bool_decide_eq_true in H.
  rewrite Qcabs_pos in H by apply Qcle_refl. by apply (Qclt_not_le _ _ Hthr).
Qed.

Lemma confirmations_passed float_pow math_log cfg s inst_id imb :
  confirmations float_pow math_log cfg s inst_id = Ret (inr imb) →
  ∃ bid ask book z_ok vol_ok book_ok oimb,
    pairs_data s !! inst_id ≫= pd_best_bid = Some bid
    ∧ pairs_data s !! inst_id ≫= pd_best_ask = Some ask
    ∧ pairs_data s !! inst_id ≫= pd_order_book = Some book
    ∧ ask ≠ 0%Qc
    ∧ ((ask - bid) / ask * qc 100 1 ≤ MAX_SPREAD_PCT cfg)%Qc
    ∧ momentum_confirmation float_pow math_log cfg (bar_aggregators s !! inst_id)
      = Ret z_ok
    ∧ volume_confirmation cfg (bar_aggregators s !! inst_id) = Ret vol_ok
    ∧ imbalance_confirmation cfg book = Ret (book_ok, oimb)
    ∧ imb = default 0%Qc oimb
    ∧ MIN_CONFIRMATIONS_NEEDED cfg
      ≤ (if z_ok then 1 else 0) + (if vol_ok then 1 else 0)
        + (if book_ok then 1 else 0).
Proof.
  unfold confirmations. intros H.
  destruct (pairs_data s !! inst_id) as [pd |]; [| done].
  destruct (pd_best_ask pd) as [ask |] eqn:Hask; [| done].
  destruct (pd_best_bid pd) as [bid |] eqn:Hbid; [| done].
  cbn [mbind Py_bind py_bind] in H.
  apply py_bind_ret in H as (q & Hq & H).
  apply py_truediv_ret in Hq as [Hnz ->].
  destruct (qlt _ _) eqn:Hspread; [done |].
  apply py_bind_ret in H as (z_ok & Hz & H).
  apply py_bind_ret in H as (vol_ok & Hv & H).
  destruct (pd_order_book pd) as [book |] eqn:Hbook; [| done].
  cbn [mbind Py_bind py_bind] in H.
  apply py_bind_ret in H as ([book_ok oimb] & Hb & H).
  case_bool_decide as Hn; [done |].
  injection H as <-.
  exists bid, ask, book, z_ok, vol_ok, book_ok, oimb.
  simpl. rewrite Hz, Hv.
  repeat split; try done.
  - by apply qlt_false in Hspread.
  - lia.
Qed.

Lemma imbalance_confirmation_bound cfg book book_ok oimb :
  imbalance_confirmation cfg book = Ret (book_ok, oimb) →
  book_ok = true → ∃ imb, oimb = Some imb.
Proof.
  unfold imbalance_confirmation. intros H ->.
  destruct (ob_bids book); [done |]. destruct (ob_asks book); [done |].
  apply py_bind_ret in H as (bid_vol & _ & H).
  apply py_bind_ret in H as (ask_vol & _ & H).
  destruct (_ && _); [| done].
  apply py_bind_ret in H as (imb & _ & H).
  injection H as _ <-. by exists imb.
Qed.

(** X11.  What a promotion guarantees.  When the confirmation scan promotes
    a signal, no position was held, the signal is the instrument's armed
    candidate with its imbalance filled in, that candidate was not older
    than [ARMED_CANDIDATE_TIMEOUT_SEC], the risk manager admitted the
    instrument, the stored quote has a non-zero ask and a spread of at most
    [MAX_SPREAD_PCT] percent, and the candidate has left the table.  Under a
    positive z-score threshold and at least one confirmation required, the
    promotion rests on the volume spike or on the order-book imbalance,
    never on momentum alone. *)
Theorem execution_locked_promoted
    (float_pow : Qc → Qc → Qc) (math_log : Qc → Py Qc)
    (cfg : Config) (s : Sniper) (inst_id : string) (now : Qc)
    (s' : Sniper) (signal : Candidate) :
  execution_locked float_pow math_log cfg s inst_id now = (s', Promoted signal) →
  active_position s = None
  ∧ armed_candidates s' = delete inst_id (armed_candidates s)
  ∧ (∃ c imb, armed_candidates s !! inst_id = Some c
              ∧ signal = with_imbalance imb c
              ∧ (now - cand_time c ≤ ARMED_CANDIDATE_TIMEOUT_SEC cfg)%Qc)
  ∧ (RiskManager.can_open_position cfg (risk_manager s) (Some inst_id) 0 now).2.1
    = true
  ∧ (∃ bid ask, pairs_data s !! inst_id ≫= pd_best_bid = Some bid
                ∧ pairs_data s !! inst_id ≫= pd_best_ask = Some ask
                ∧ ask ≠ 0%Qc
                ∧ ((ask - bid) / ask * qc 100 1 ≤ MAX_SPREAD_PCT cfg)%Qc)
  ∧ ((0 < ZSCORE_THRESHOLD cfg)%Qc → 1 ≤ MIN_CONFIRMATIONS_NEEDED cfg →
     volume_confirmation cfg (bar_aggregators s !! inst_id) = Ret true
     ∨ ∃ book imb, pairs_data s !! inst_id ≫= pd_order_book = Some book
                   ∧ imbalance_confirmation cfg book = Ret (true, Some imb)
                   ∧ cand_imbalance signal = Some imb).
Proof.
  unfold execution_locked. intros H.
  destruct (active_position s) eqn:Hpos; [done |].
  destruct (armed_candidates s !! inst_id) as [c |] eqn:Hc; [| done].
  destruct (qlt _ _) eqn:Hstale; [done |].
  destruct (RiskManager.can_open_position _ _ _ _ _) as [rm [can reason]] eqn:Hrisk.
  destruct can; [| done]. cbn [negb] in H.
  destruct (confirmations _ _ _ _ _) as [[reason' | imb] | e] eqn:Hconf; [done | | done].
  injection H as <- <-.
  destruct (confirmations_passed _ _ _ _ _ _ Hconf)
    as (bid & ask & book & z_ok & vol_ok & book_ok & oimb
        & Hbid & Hask & Hbook & Hnz & Hspread & Hz & Hv & Hb & -> & Hn).
  simpl in Hbid, Hask, Hbook, Hz, Hv.
  split; [done |]. split; [done |].
  split.
  { exists c, (default 0%Qc oimb). split; [done |]. split; [done |].
    by apply qlt_false in Hstale. }
  split; [done |].
  split; [by exists bid, ask |].
  intros Hthr Hmin.
  destruct z_ok.
  { by destruct (momentum_confirmation_never _ _ _ _ Hthr Hz). }
  destruct vol_ok; [by left |].
  destruct book_ok; [| simpl in Hn; lia].
  right. destruct (imbalance_confirmation_bound _ _ _ _ Hb eq_refl) as [imb ->].
  by exists book, imb.
Qed.

Lemma execution_locked_promoted_witness :
  ∃ s' signal,
    execution_locked no_pow flat_log config armed_quoted_sniper "BTC-USDT" (qc 16 1)
    = (s', Promoted signal)
    ∧ active_position armed_quoted_sniper = None
    ∧ armed_candidates s' = delete "BTC-USDT" (armed_candidates armed_quoted_sniper)
    ∧ ∃ book imb,
        pairs_data armed_quoted_sniper !! "BTC-USDT" ≫= pd_order_book = Some book
        ∧ imbalance_confirmation config book = Ret (true, Some imb)
        ∧ cand_imbalance signal = Some imb.
Proof.
  destruct (execution_locked no_pow flat_log config armed_quoted_sniper "BTC-USDT"
              (qc 16 1)) as [s' out] eqn:Hrun.
  assert (∃ signal, out = Promoted signal) as [signal ->].
  { vm_compute in Hrun. injection Hrun as _ <-. eauto. }
  exists s', signal. split; [reflexivity |].
  destruct (execution_locked_promoted no_pow flat_log config armed_quoted_sniper
              "BTC-USDT" (qc 16 1) s' signal Hrun)
    as (Hpos & Hdel & _ & _ & _ & Hconf).
  split; [exact Hpos |]. split; [exact Hdel |].
  destruct Hconf as [Hvol | Hbook]; [reflexivity | simpl; lia | | exact Hbook].
  vm_compute in Hvol. discriminate Hvol.
Defined.

(** X12.  The fate of a candidate in the confirmation scan.  The scan never
    touches the position, the market data, the bar aggregators or another
    instrument's candidate, and never arms.  Its own candidate is either
    kept as it was (the scan returned early, or logged a rejection other
    than staleness) or gone from the table (it was stale, the scan faulted,
    or it was promoted).  While a position is held the scan does nothing at
    all, so a stale candidate outlives its timeout until the position is
    gone; without a position a candidate older than
    [ARMED_CANDIDATE_TIMEOUT_SEC] is always dropped. *)
Theorem execution_locked_candidate_fate
    (float_pow : Qc → Qc → Qc) (math_log : Qc → Py Qc)
    (cfg : Config) (s : Sniper) (inst_id : string) (now : Qc) :
  let r := execution_locked float_pow math_log cfg s inst_id now in
  active_position r.1 = active_position s
  ∧ pairs_data r.1 = pairs_data s
  ∧ bar_aggregators r.1 = bar_aggregators s
  ∧ (∀ j, j ≠ inst_id → armed_candidates r.1 !! j = armed_candidates s !! j)
  ∧ (∀ c, r.2 ≠ Armed c)
  ∧ ((armed_candidates r.1 = armed_candidates s
      ∧ (r.2 = Skipped
         ∨ ∃ reason, r.2 = Rejected "Execution" reason ∧ reason ≠ "Stale Candidate"))
     ∨ (armed_candidates r.1 = delete inst_id (armed_candidates s)
        ∧ (r.2 = Rejected "Execution" "Stale Candidate"
           ∨ (∃ e, r.2 = Faulted e) ∨ (∃ c, r.2 = Promoted c))))
  ∧ (is_Some (active_position s) → r = (s, Skipped))
  ∧ (∀ c, active_position s = None → armed_candidates s !! inst_id = Some c →
          (ARMED_CANDIDATE_TIMEOUT_SEC cfg < now - cand_time c)%Qc →
          r = (set_armed_candidates (delete inst_id) s,
               Rejected "Execution" "Stale Candidate")).
Proof.
  intros r. subst r. unfold execution_locked.
  destruct (active_position s) as [p |] eqn:Hpos.
  { simpl. repeat split; try done. left. by split; [| left]. }
  assert (∀ m : gmap string Candidate, ∀ j, j ≠ inst_id →
            delete inst_id m !! j = m !! j) as Hdel.
  { intros m j Hj. by rewrite lookup_delete_ne. }
  destruct (armed_candidates s !! inst_id) as [c |] eqn:Hc.
  2: { simpl. repeat split; try done; try (by intros []).
       left. by split; [| left]. }
  destruct (qlt _ _) eqn:Hstale.
  { simpl. repeat split; try done; try (by intros []); try (by apply Hdel).
    right. by split; [| left]. }
  destruct (RiskManager.can_open_position _ _ _ _ _) as [rm [can reason]].
  assert (∀ c0 : Candidate,
            Some c = Some c0 →
            (ARMED_CANDIDATE_TIMEOUT_SEC cfg < now - cand_time c0)%Qc → False) as Hfresh.
  { intros c0 [= <-] Hlt. apply qlt_true in Hlt. congruence. }
  destruct can; cbn [negb].
  2: { simpl. repeat split; try done; try (by intros []).
       - left. split; [done |]. right. by exists "Risk".
       - intros c0 _ E Hlt. by destruct (Hfresh c0 E Hlt). }
  destruct (confirmations _ _ _ _ _) as [[reason' | imb] | e] eqn:Hconf; simpl.
  - repeat split; try done; try (by intros []).
    + left. split; [done |]. right. exists reason'. split; [done |].
      intros ->. revert Hconf. unfold confirmations. intros H.
      repeat (first
        [ discriminate H
        | apply py_bind_ret in H as (? & _ & H)
        | match type of H with
          | context [match ?x with _ => _ end] => destruct x
          end ]).
    + intros c0 _ E Hlt. by destruct (Hfresh c0 E Hlt).
  - repeat split; try done; try (by intros []); try (by apply Hdel).
    + right. split; [done |]. right; right. by eexists.
    + intros c0 _ E Hlt. by destruct (Hfresh c0 E Hlt).
  - repeat split; try done; try (by intros []); try (by apply Hdel).
    + right. split; [done |]. right; left. by eexists.
    + intros c0 _ E Hlt. by destruct (Hfresh c0 E Hlt).
Qed.

(** ** Ingestion and the confirmation scan together *)

Lemma handle_bbo_data_snapshot cfg s inst_id bbo rest now bid ask :
  best_px (bbo_bids bbo) = Some bid → best_px (bbo_asks bbo) = Some ask →
  let s' := (handle_bbo_data cfg s inst_id (bbo :: rest) now).1 in
  active_position s' = active_position s
  ∧ armed_candidates s' = armed_candidates s
  ∧ risk_manager s' = risk_manager s
  ∧ pairs_data s' !! inst_id ≫= pd_best_bid = Some bid
  ∧ pairs_data s' !! inst_id ≫= pd_best_ask = Some ask.
Proof.
  destruct bbo as [bids asks]. unfold handle_bbo_data. simpl.
  destruct bids as [[| [| b0 lb] bids] |]; try done.
  destruct asks as [[| [| a0 la] asks] |]; try done.
  simpl. intros [= ->] [= ->].
  destruct (qlt 0 _).
  - destruct (BarAggregator.add_tick _ _ _ _ _); simpl;
      by rewrite lookup_insert_eq.
  - simpl. by rewrite lookup_insert_eq.
Qed.

(** X13.  A quote with a zero ask costs the instrument its candidate.
    [handle_bbo_data] stores the quote before it looks at the mid price;
    if the instrument has a fresh armed candidate, no position is held and
    the risk manager admits it, the next confirmation scan divides by that
    ask, faults, and its handler removes the candidate from the table. *)
Theorem zero_ask_drops_candidate
    (float_pow : Qc → Qc → Qc) (math_log : Qc → Py Qc)
    (cfg : Config) (s : Sniper) (inst_id : string)
    (bbo : Bbo) (rest : list Bbo) (bid : Qc) (c : Candidate) (t0 now : Qc) :
  best_px (bbo_bids bbo) = Some bid →
  best_px (bbo_asks bbo) = Some 0%Qc →
  active_position s = None →
  armed_candidates s !! inst_id = Some c →
  (now - cand_time c ≤ ARMED_CANDIDATE_TIMEOUT_SEC cfg)%Qc →
  (RiskManager.can_open_position cfg (risk_manager s) (Some inst_id) 0 now).2.1 = true →
  let s1 := (handle_bbo_data cfg s inst_id (bbo :: rest) t0).1 in
  let r := execution_locked float_pow math_log cfg s1 inst_id now in
  execution_precheck s1 inst_id = true
  ∧ (∃ e, r.2 = Faulted e)
  ∧ armed_candidates r.1 = delete inst_id (armed_candidates s)
  ∧ active_position r.1 = None.
Proof.
  intros Hbid Hask Hpos Hc Hfresh Hrisk s1 r.
  destruct (handle_bbo_data_snapshot cfg s inst_id bbo rest t0 bid 0%Qc Hbid Hask)
    as (H1 & H2 & H3 & H4 & H5).
  fold s1 in H1, H2, H3, H4, H5.
  split.
  { unfold execution_precheck. rewrite H2, Hc.
    rewrite bool_decide_eq_true_2 by done. simpl.
    apply bool_decide_eq_true.
    subst s1. destruct bbo as [bids asks]. unfold handle_bbo_data. simpl in *.
    destruct bids as [[| [| b0 lb] bids] |]; try done.
    destruct asks as [[| [| a0 la] asks] |]; try done.
    destruct (qlt 0 _).
    - destruct (BarAggregator.add_tick _ _ _ _ _); simpl;
        by rewrite lookup_insert_eq.
    - simpl. by rewrite lookup_insert_eq. }
  subst r. unfold execution_locked. rewrite H1, Hpos, H2, Hc.
  apply qlt_false in Hfresh. rewrite Hfresh. rewrite H3.
  destruct (RiskManager.can_open_position _ _ _ _ _) as [rm [can reason]].
  simpl in Hrisk. subst can. cbn [negb].
  assert (confirmations float_pow math_log cfg (set_risk_manager rm s1) inst_id
          = Raise ZeroDivisionError) as ->.
  { unfold confirmations. cbn [set_risk_manager pairs_data].
    destruct (pairs_data s1 !! inst_id) as [pd |]; [| done].
    simpl in H4, H5. rewrite H4, H5. cbn [mbind Py_bind py_bind].
    unfold py_truediv. by rewrite decide_True. }
  simpl. rewrite H1, H2. repeat split; try done. by eexists.
Qed.

Lemma zero_ask_drops_candidate_witness :
  let s1 := (handle_bbo_data config armed_quoted_sniper "BTC-USDT"
               [ {| bbo_bids := Some [[qc 100 1; qc 1 1]];
                    bbo_asks := Some [[0%Qc; qc 1 1]] |} ] (qc 155 10)).1 in
  let r := execution_locked no_pow flat_log config s1 "BTC-USDT" (qc 16 1) in
  execution_precheck s1 "BTC-USDT" = true
  ∧ (∃ e, r.2 = Faulted e)
  ∧ armed_candidates r.1 = delete "BTC-USDT" (armed_candidates armed_quoted_sniper)
  ∧ active_position r.1 = None.
Proof.
  destruct (armed_candidates armed_quoted_sniper !! "BTC-USDT") as [c |] eqn:Hc;
    [| vm_compute in Hc; discriminate Hc].
  apply (zero_ask_drops_candidate no_pow flat_log config armed_quoted_sniper
           "BTC-USDT"
           {| bbo_bids := Some [[qc 100 1; qc 1 1]];
              bbo_asks := Some [[0%Qc; qc 1 1]] |} [] (qc 100 1) c (qc 155 10) (qc 16 1)).
  - reflexivity.
  - reflexivity.
  - reflexivity.
  - exact Hc.
  - vm_compute in Hc. injection Hc as <-. vm_compute. intros H. discriminate H.
  - reflexivity.
Defined.

(** ** Trade prints *)

Lemma add_tick_period a now offset price volume a' :
  BarAggregator.add_tick a now offset price volume = Ret a' →
  BarAggregator.bar_period a' = BarAggregator.bar_period a.
Proof.
  unfold BarAggregator.add_tick. intros H.
  apply py_bind_ret in H as (bucket & _ & H).
  match type of H with
  | match BarAggregator.current_bar ?x with _ => _ end = _ =>
      assert (BarAggregator.bar_period x = BarAggregator.bar_period a) as Hx
        by (by destruct (_ || _));
      destruct (BarAggregator.current_bar x) as [[[[[s o] h] l] c] |]; [| done]
  end.
  injection H as <-. done.
Qed.

Lemma add_tick_returns a now offset price volume :
  BarAggregator.bar_period a ≠ 0%Qc →
  float_overflows (now + offset) = false →
  float_overflows ((now + offset) / BarAggregator.bar_period a) = false →
  ∃ a', BarAggregator.add_tick a now offset price volume = Ret a'.
Proof.
  intros Hp Hnow Hq.
  unfold BarAggregator.add_tick, BarAggregator.bucket_of, py_truediv.
  destruct (decide (BarAggregator.bar_period a = 0%Qc)); [done |].
  cbn [mbind Py_bind py_bind]. rewrite Hnow, Hq. cbn [orb mbind Py_bind py_bind].
  destruct (_ || _) eqn:Hnew; cbn [BarAggregator.current_bar]; [by eexists |].
  apply orb_false_iff in Hnew as [Hcur _]. apply bool_decide_eq_false in Hcur.
  destruct (BarAggregator.current_bar a) as [[[[[s o] h] l] c] |]; [by eexists | done].
Qed.

Lemma fold_trade_tick offset a tr :
  fold_trade offset a tr
  = match trade_tick offset tr with
    | Some k =>
        except_all (BarAggregator.add_tick a (BarAggregator.tick_now k)
                      (BarAggregator.tick_offset k) (BarAggregator.tick_price k)
                      (BarAggregator.tick_volume k)) a
    | None => a
    end.
Proof.
  unfold fold_trade, trade_tick.
  destruct (tr_px tr) as [price |]; [| done].
  destruct (tr_sz tr) as [sz |]; by destruct (qlt 0 price).
Qed.

(** X14.  With a non-zero bar period and the clock within the range of the
    floats, [handle_trade_data] feeds the instrument's aggregator (a fresh
    one if it had none) exactly one tick per trade print that carries a
    positive price and a readable size, in order of arrival; prints with a
    non-positive or unreadable price, or an unreadable size, add nothing.
    Every other aggregator, the market data, the candidates, the position
    and the risk state are left as they were. *)
Theorem handle_trade_data_ticks
    (cfg : Config) (s : Sniper) (inst_id : string) (trades : list Trade) :
  BarAggregator.bar_period (aggregator_of cfg s inst_id) ≠ 0%Qc →
  Forall (BarAggregator.tick_in_range
            (BarAggregator.bar_period (aggregator_of cfg s inst_id)))
         (omap (trade_tick (time_offset s)) trades) →
  let s' := handle_trade_data cfg s inst_id trades in
  (∃ a, BarAggregator.add_ticks (aggregator_of cfg s inst_id)
          (omap (trade_tick (time_offset s)) trades) = Ret a
        ∧ bar_aggregators s' !! inst_id = Some a)
  ∧ (∀ other, other ≠ inst_id →
       bar_aggregators s' !! other = bar_aggregators s !! other)
  ∧ pairs_data s' = pairs_data s
  ∧ armed_candidates s' = armed_candidates s
  ∧ active_position s' = active_position s
  ∧ risk_manager s' = risk_manager s.
Proof.
  intros Hp Hrange s'. subst s'. unfold handle_trade_data. simpl.
  split; [| repeat split; try done; intros other Hne; by rewrite lookup_insert_ne].
  rewrite lookup_insert_eq.
  generalize dependent (aggregator_of cfg s inst_id).
  induction trades as [| tr trades IH]; intros a Hp Hrange.
  - by exists a.
  - cbn [foldl]. rewrite fold_trade_tick.
    change (omap (trade_tick (time_offset s)) (tr :: trades))
      with (match trade_tick (time_offset s) tr with
            | Some k => k :: omap (trade_tick (time_offset s)) trades
            | None => omap (trade_tick (time_offset s)) trades
            end) in Hrange |- *.
    destruct (trade_tick (time_offset s) tr) as [k |]; [| by apply IH].
    apply Forall_cons in Hrange as [[Hnow Hq] Hrange].
    destruct (add_tick_returns a (BarAggregator.tick_now k)
                (BarAggregator.tick_offset k) (BarAggregator.tick_price k)
                (BarAggregator.tick_volume k) Hp Hnow Hq) as [a1 Ha1].
    cbn [BarAggregator.add_ticks]. rewrite Ha1. cbn [except_all mbind Py_bind py_bind].
    pose proof (add_tick_period _ _ _ _ _ _ Ha1) as Hp1.
    apply IH; by rewrite Hp1.
Qed.

Lemma handle_trade_data_ticks_witness :
  let trades := [ mkTrade (Some (qc 100 1)) (Some (qc 2 1)) (qc 5 10);
                  mkTrade (Some (qc 101 1)) None (qc 6 10);
                  mkTrade (Some 0%Qc) (Some (qc 1 1)) (qc 7 10) ] in
  let s' := handle_trade_data config new_sniper "BTC-USDT" trades in
  (∃ a, BarAggregator.add_ticks (aggregator_of config new_sniper "BTC-USDT")
          (omap (trade_tick (time_offset new_sniper)) trades) = Ret a
        ∧ bar_aggregators s' !! "BTC-USDT" = Some a)
  ∧ (∀ other, other ≠ "BTC-USDT" →
       bar_aggregators s' !! other = bar_aggregators new_sniper !! other)
  ∧ pairs_data s' = pairs_data new_sniper
  ∧ armed_candidates s' = armed_candidates new_sniper
  ∧ active_position s' = active_position new_sniper
  ∧ risk_manager s' = risk_manager new_sniper.
Proof.
  apply (handle_trade_data_ticks config new_sniper "BTC-USDT"
           [ mkTrade (Some (qc 100 1)) (Some (qc 2 1)) (qc 5 10);
             mkTrade (Some (qc 101 1)) None (qc 6 10);
             mkTrade (Some 0%Qc) (Some (qc 1 1)) (qc 7 10) ]).
  - intros H. discriminate H.
  - repeat (constructor; try (split; reflexivity)).
Defined.

(** ** Account updates and settlement *)

(** X15.  Settlement of a TP/SL hit.  For an OPEN position with a non-zero
    entry price and a size, an update of its instrument that names its
    attached order and carries a non-zero exit price ([lastPx], or [avgPx]
    when [lastPx] is missing) records one trade whose profit is
    (exit − entry) × size − (entry fee + exit fees, the fee of the update in
    absolute value included), clears the position and the dead-zone level
    of the instrument, and touches nothing else. *)
Theorem order_update_settles
    (s : Sniper) (pos : Position) (u : AccountUpdate) (clk : Clocks)
    (entry_price entry_size : Qc) :
  active_position s = Some pos →
  pos_state pos = OPEN →
  pos_entry_price pos = Some entry_price →
  entry_price ≠ 0%Qc →
  pos_entry_size pos = Some entry_size →
  upd_instId u = Some (pos_inst_id pos) →
  truthy_str (pos_attach_algo_id pos) = true →
  upd_algoId u = pos_attach_algo_id pos →
  let exit_price :=
    safe_decimal (match upd_lastPx u with Missing => upd_avgPx u | present => present end) in
  exit_price ≠ 0%Qc →
  let pnl :=
    ((exit_price - entry_price) * entry_size
     - (default 0%Qc (pos_entry_fee pos)
        + (default 0%Qc (pos_exit_fee pos) + Qcabs (safe_decimal (upd_fee u)))))%Qc in
  let r := order_update s u clk in
  r.2 = Ret ()
  ∧ active_position r.1 = None
  ∧ risk_manager r.1
    = RiskManager.record_trade (risk_manager s) (pos_inst_id pos) pnl
        (clk_trade clk) (clk_window clk) (clk_loss clk)
  ∧ RiskManager.daily_pnl (risk_manager r.1)
    = (RiskManager.daily_pnl (risk_manager s) + pnl)%Qc
  ∧ pairs_data r.1 !! pos_inst_id pos ≫= pd_last_armed_high = None
  ∧ (∀ j, j ≠ pos_inst_id pos → pairs_data r.1 !! j = pairs_data s !! j)
  ∧ armed_candidates r.1 = armed_candidates s
  ∧ bar_aggregators r.1 = bar_aggregators s
  ∧ usdt_balance r.1 = usdt_balance s.
Proof.
  intros Hpos Hstate Hentry Hnz Hsize Hinst Hattach Halgo exit_price Hexit pnl r.
  subst r. unfold order_update. rewrite Hpos.
  rewrite bool_decide_eq_false_2 by (by intros []).
  rewrite Hstate, Hattach.
  rewrite (bool_decide_eq_false_2 (OPEN = PENDING_ENTRY)) by done.
  rewrite andb_false_r.
  rewrite (bool_decide_eq_true_2 (upd_algoId u = pos_attach_algo_id pos)) by done.
  rewrite (bool_decide_eq_true_2 (OPEN = OPEN)) by done.
  cbn [andb orb]. fold exit_price.
  unfold finalize_trade.
  cbn [set_active_position active_position with_exit_fill pos_entry_price
       pos_exit_price pos_entry_size pos_exit_type pos_inst_id].
  rewrite Hentry, Hsize.
  rewrite !bool_decide_eq_false_2 by done. cbn [orb].
  unfold pnl_usdt. cbn [pos_entry_fee pos_exit_fee with_exit_fill default].
  fold pnl. simpl.
  repeat split; try done.
  - rewrite lookup_alter_eq. by destruct (pairs_data s !! pos_inst_id pos).
  - intros j Hj. by rewrite lookup_alter_ne.
Qed.

Lemma order_update_settles_witness :
  let r := order_update example_filled_sniper tpsl_hit_update example_clocks in
  r.2 = Ret ()
  ∧ active_position r.1 = None
  ∧ RiskManager.daily_pnl (risk_manager r.1)
    = (RiskManager.daily_pnl (risk_manager example_filled_sniper)
       + ((qc 101 1 - qc 100 1) * qc 2 1 - (qc 1 10 + (0 + qc 1 10))))%Qc.
Proof.
  destruct (active_position example_filled_sniper) as [pos |] eqn:Hpos;
    [| vm_compute in Hpos; discriminate Hpos].
  assert (pos_state pos = OPEN
          ∧ pos_entry_price pos = Some (qc 100 1)
          ∧ pos_entry_size pos = Some (qc 2 1)
          ∧ pos_inst_id pos = "BTC-USDT"
          ∧ pos_attach_algo_id pos = Some "2001"
          ∧ pos_entry_fee pos = Some (qc 1 10)
          ∧ pos_exit_fee pos = None) as (H1 & H2 & H3 & H4 & H5 & H6 & H7).
  { vm_compute in Hpos. injection Hpos as <-.
    repeat split; try reflexivity; simpl; f_equal; qc_eq. }
  destruct (order_update_settles example_filled_sniper pos tpsl_hit_update
              example_clocks (qc 100 1) (qc 2 1) Hpos H1 H2)
    as (R1 & R2 & _ & R4 & _).
  - intros H. discriminate H.
  - exact H3.
  - by rewrite H4.
  - by rewrite H5.
  - by rewrite H5.
  - intros H. discriminate H.
  - split; [exact R1 |]. split; [exact R2 |].
    rewrite R4, H6, H7. qc_eq.
Defined.

Lemma apply_details_frame ds : ∀ s,
  active_position (apply_details ds s) = active_position s
  ∧ risk_manager (apply_details ds s) = risk_manager s
  ∧ pairs_data (apply_details ds s) = pairs_data s
  ∧ armed_candidates (apply_details ds s) = armed_candidates s
  ∧ bar_aggregators (apply_details ds s) = bar_aggregators s
  ∧ time_offset (apply_details ds s) = time_offset s
  ∧ next_obj (apply_details ds s) = next_obj s.
Proof.
  unfold apply_details.
  induction ds as [| d ds IH] using rev_ind; intros s; [done |].
  rewrite foldl_app. simpl. case_bool_decide; [| apply IH].
  simpl. apply IH.
Qed.

Lemma order_update_closing s pos u clk :
  active_position s = Some pos →
  pos_state pos = CLOSING ∨ pos_state pos = CLOSING_FAILED →
  order_update s u clk = (s, Ret ()).
Proof.
  intros Hpos Hstate. unfold order_update. rewrite Hpos.
  case_bool_decide; [done |].
  rewrite (bool_decide_eq_false_2 (pos_state pos = PENDING_ENTRY))
    by (destruct Hstate as [-> | ->]; done).
  rewrite (bool_decide_eq_false_2 (pos_state pos = OPEN))
    by (destruct Hstate as [-> | ->]; done).
  by rewrite !andb_false_r.
Qed.

Lemma handle_account_update_closing data : ∀ s pos,
  active_position s = Some pos →
  pos_state pos = CLOSING ∨ pos_state pos = CLOSING_FAILED →
  let r := handle_account_update s data in
  r.2 = Ret ()
  ∧ active_position r.1 = Some pos
  ∧ risk_manager r.1 = risk_manager s
  ∧ pairs_data r.1 = pairs_data s
  ∧ armed_candidates r.1 = armed_candidates s.
Proof.
  induction data as [| [u clk] data IH]; intros s pos Hpos Hstate; [done |].
  cbn [handle_account_update].
  destruct (upd_details u) as [ds |].
  - destruct (apply_details_frame ds s) as (A1 & A2 & A3 & A4 & _).
    destruct (IH (apply_details ds s) pos) as (R1 & R2 & R3 & R4 & R5);
      [by rewrite A1 | done |].
    cbn zeta. by rewrite R3, R4, R5, A2, A3, A4.
  - rewrite (order_update_closing s pos u clk Hpos Hstate). by apply IH.
Qed.

(** X16.  A forced exit is never settled.  [force_close_position] on an OPEN
    position with a size leaves it in state CLOSING; from then on no account
    update, the fill of the exit order included, settles or clears it:
    [handle_account_update] returns with the position, the risk state, the
    market data and the candidates as they were, and the monitor passes
    over it.  No trade is recorded for the exit and the position is held
    for good. *)
Theorem forced_exit_never_settles
    (cfg : Config) (meta : gmap string nat) (s : Sniper) (pos : Position)
    (reason : string) (cancel_res order_res : OrderManager.ApiResponse)
    (data : list (AccountUpdate * Clocks)) (now : Qc)
    (cancel_res' order_res' : OrderManager.ApiResponse) :
  active_position s = Some pos →
  pos_state pos = OPEN →
  truthy_num (pos_entry_size pos) = true →
  let s1 := (force_close_position meta s reason cancel_res order_res).1 in
  let r := handle_account_update s1 data in
  active_position s1 = Some (with_state CLOSING pos)
  ∧ r.2 = Ret ()
  ∧ active_position r.1 = Some (with_state CLOSING pos)
  ∧ risk_manager r.1 = risk_manager s
  ∧ pairs_data r.1 = pairs_data s
  ∧ armed_candidates r.1 = armed_candidates s
  ∧ monitor_open cfg meta r.1 now cancel_res' order_res' = (r.1, Ret ()).
Proof.
  intros Hpos Hopen Hsize s1 r. subst r s1.
  rewrite (force_close_position_open meta s pos reason cancel_res order_res
             Hpos Hopen Hsize).
  cbn [fst].
  destruct (handle_account_update_closing data
              (set_active_position (Some (with_state CLOSING pos)) s)
              (with_state CLOSING pos) eq_refl (or_introl eq_refl))
    as (R1 & R2 & R3 & R4 & R5).
  repeat split; try done.
  unfold monitor_open. rewrite R2. by rewrite bool_decide_eq_true_2.
Qed.

Lemma forced_exit_never_settles_witness :
  let s1 := (force_close_position example_meta example_held_sniper "MAX_HOLD_TIME"
               order_rejected order_rejected).1 in
  let r := handle_account_update s1 [(exit_fill_update, example_clocks)] in
  active_position s1 = Some (with_state CLOSING example_open_position)
  ∧ r.2 = Ret ()
  ∧ active_position r.1 = Some (with_state CLOSING example_open_position)
  ∧ risk_manager r.1 = risk_manager example_held_sniper
  ∧ pairs_data r.1 = pairs_data example_held_sniper
  ∧ armed_candidates r.1 = armed_candidates example_held_sniper
  ∧ monitor_open config example_meta r.1 (qc 500 1) order_rejected order_rejected
    = (r.1, Ret ()).
Proof.
  apply (forced_exit_never_settles config example_meta example_held_sniper
           example_open_position "MAX_HOLD_TIME" order_rejected order_rejected
           [(exit_fill_update, example_clocks)] (qc 500 1)
           order_rejected order_rejected).
  - reflexivity.
  - reflexivity.
  - reflexivity.
Defined.

(** X17.  The entry fill.  For a PENDING_ENTRY position, a [filled] update
    of its instrument and entry order that carries [avgPx] and [accFillSz]
    opens it: state OPEN, entry price and peak price the average price,
    size the filled size, fee in absolute value, clock restarted.  If either
    key is missing the update raises [KeyError] and the position stays
    pending.  A second delivery of the same update changes nothing, unless
    it also names the attached order (a pending position has no exit
    order). *)
Theorem order_update_entry_fill
    (s : Sniper) (pos : Position) (u : AccountUpdate) (clk clk' : Clocks) :
  active_position s = Some pos →
  pos_state pos = PENDING_ENTRY →
  upd_instId u = Some (pos_inst_id pos) →
  upd_ordId u = pos_entry_order_id pos →
  upd_state u = Some "filled" →
  let r := order_update s u clk in
  match upd_avgPx u, upd_accFillSz u with
  | Text avg, Text sz =>
      let opened :=
        with_entry_fill (safe_decimal (Text avg)) (safe_decimal (Text sz))
          (Qcabs (safe_decimal (upd_fee u))) (clk_fill clk) pos in
      r = (set_active_position (Some opened) s, Ret ())
      ∧ pos_state opened = OPEN
      ∧ pos_entry_price opened = Some (safe_decimal (Text avg))
      ∧ pos_peak_price opened = pos_entry_price opened
      ∧ pos_entry_size opened = Some (safe_decimal (Text sz))
      ∧ pos_time opened = clk_fill clk
      ∧ (truthy_str (pos_attach_algo_id pos) = false
         ∨ upd_algoId u ≠ pos_attach_algo_id pos →
         pos_exit_order_id pos = None →
         order_update r.1 u clk' = (r.1, Ret ()))
  | _, _ => r = (s, Raise KeyError)
  end.
Proof.
  intros Hpos Hstate Hinst Hord Hfilled r.
  assert (r = match (avg ← field_item (upd_avgPx u);
                     sz ← field_item (upd_accFillSz u);
                     Ret (with_entry_fill (safe_decimal avg) (safe_decimal sz)
                            (Qcabs (safe_decimal (upd_fee u))) (clk_fill clk) pos)) with
              | Ret pos' => (set_active_position (Some pos') s, Ret ())
              | Raise e => (s, Raise e)
              end) as Hr.
  { subst r. unfold order_update. rewrite Hpos.
    rewrite bool_decide_eq_false_2 by (by intros []).
    rewrite Hstate.
    rewrite (bool_decide_eq_true_2 (upd_ordId u = pos_entry_order_id pos)) by done.
    rewrite (bool_decide_eq_true_2 (upd_state u = Some "filled")) by done.
    by rewrite (bool_decide_eq_true_2 (PENDING_ENTRY = PENDING_ENTRY)) by done. }
  clearbody r.
  destruct (upd_avgPx u) as [| avg]; [by destruct (upd_accFillSz u) |].
  destruct (upd_accFillSz u) as [| sz]; [done |].
  simpl in Hr. subst r. cbn zeta. repeat split.
  intros Hnot Hexit. unfold order_update. simpl.
  rewrite bool_decide_eq_false_2 by (by intros []).
  rewrite andb_false_r.
  assert (truthy_str (pos_attach_algo_id pos)
          && bool_decide (upd_algoId u = pos_attach_algo_id pos) = false) as ->.
  { destruct Hnot as [-> | Hne]; [done |].
    rewrite (bool_decide_eq_false_2 _ Hne). apply andb_false_r. }
  by rewrite Hexit.
Qed.

Lemma order_update_entry_fill_witness :
  let r := order_update example_pending_sniper entry_fill_update example_clocks in
  r.2 = Ret ()
  ∧ pos_state <$> active_position r.1 = Some OPEN
  ∧ (active_position r.1 ≫= pos_entry_price) = Some (qc 100 1)
  ∧ order_update r.1 entry_fill_update example_clocks = (r.1, Ret ()).
Proof.
  pose proof (order_update_entry_fill example_pending_sniper
                (pending_position "BTC-USDT" example_signal (Some "1001") (Some "2001")
                   "MS86BTC1" (qc 16 1))
                entry_fill_update example_clocks example_clocks
                eq_refl eq_refl eq_refl eq_refl eq_refl) as H.
  cbn zeta in H. cbn [entry_fill_update upd_avgPx upd_accFillSz] in H.
  destruct H as (Hr & Hst & Hpx & _ & _ & _ & Hreplay).
  cbn zeta. rewrite Hr. cbn [fst snd].
  split; [reflexivity |].
  split; [reflexivity |].
  split; [reflexivity |].
  rewrite Hr in Hreplay. apply Hreplay; [| reflexivity].
  right. intros H. discriminate H.
Defined.

(** X18.  A hit without a price discards the position.  For an OPEN
    position, an update that names its attached order but whose exit price
    is missing, unreadable or zero, or that finds the entry price missing
    or zero, clears the position without recording a trade: the risk state
    (daily profit, streak, cooldown clock, rate window) and the dead-zone
    level stay as they were. *)
Theorem order_update_discards
    (s : Sniper) (pos : Position) (u : AccountUpdate) (clk : Clocks) :
  active_position s = Some pos →
  pos_state pos = OPEN →
  upd_instId u = Some (pos_inst_id pos) →
  truthy_str (pos_attach_algo_id pos) = true →
  upd_algoId u = pos_attach_algo_id pos →
  safe_decimal (match upd_lastPx u with Missing => upd_avgPx u | present => present end)
  = 0%Qc
  ∨ truthy_num (pos_entry_price pos) = false →
  order_update s u clk = (set_active_position None s, Ret ()).
Proof.
  intros Hpos Hstate Hinst Hattach Halgo Hzero.
  unfold order_update. rewrite Hpos.
  rewrite bool_decide_eq_false_2 by (by intros []).
  rewrite Hstate, Hattach.
  rewrite (bool_decide_eq_false_2 (OPEN = PENDING_ENTRY)) by done.
  rewrite andb_false_r.
  rewrite (bool_decide_eq_true_2 (upd_algoId u = pos_attach_algo_id pos)) by done.
  rewrite (bool_decide_eq_true_2 (OPEN = OPEN)) by done.
  cbn [andb orb].
  unfold finalize_trade.
  cbn [set_active_position active_position with_exit_fill pos_entry_price
       pos_exit_price].
  destruct (pos_entry_price pos) as [entry |]; [| done].
  destruct Hzero as [-> | Hentry].
  - rewrite (bool_decide_eq_true_2 (0%Qc = 0%Qc)) by done.
    by rewrite orb_true_r.
  - simpl in Hentry. apply negb_false_iff, bool_decide_eq_true in Hentry.
    by rewrite (bool_decide_eq_true_2 _ Hentry).
Qed.

Lemma order_update_discards_witness :
  order_update example_filled_sniper
    {| upd_details := None; upd_instId := Some "BTC-USDT"; upd_ordId := None;
       upd_algoId := Some "2001"; upd_state := Some "effective";
       upd_avgPx := Missing; upd_accFillSz := Missing; upd_fee := Missing;
       upd_lastPx := Text None |} example_clocks
  = (set_active_position None example_filled_sniper, Ret ()).
Proof.
  destruct (active_position example_filled_sniper) as [pos |] eqn:Hpos;
    [| vm_compute in Hpos; discriminate Hpos].
  assert (pos_state pos = OPEN ∧ pos_inst_id pos = "BTC-USDT"
          ∧ pos_attach_algo_id pos = Some "2001") as (H1 & H2 & H3).
  { vm_compute in Hpos. injection Hpos as <-. by repeat split. }
  apply (order_update_discards example_filled_sniper pos _ example_clocks Hpos H1).
  - by rewrite H2.
  - by rewrite H3.
  - by rewrite H3.
  - by left.
Defined.








